(** * yalms: the Logseq client's entity resolution and link synchronisation

    A shallow embedding of [pkg/logseq] (client.go, models.go, utils.go) of
    clstb/yalms.  Go strings are byte strings and are modelled by [string];
    the remote HTTP store is an abstract transition system; the client's
    methods are state-passing functions over it. *)

From Stdlib Require Import String Ascii List Bool Arith ZArith Lia.
From Stdlib Require Import Numbers.DecimalString.
Import ListNotations.
Open Scope string_scope.
Open Scope nat_scope.

Set Warnings "-register-all,-abstract-large-number".

(** ** The part of Go's [strings] package the client uses *)

Module Strings.

(** [s[n:]], clamped at the end of the string. *)
Fixpoint drop (n : nat) (s : string) : string :=
  match n, s with
  | O, _ => s
  | S _, EmptyString => EmptyString
  | S k, String _ s' => drop k s'
  end.

(** [strings.HasPrefix]. *)
Definition HasPrefix (s pre : string) : bool := String.prefix pre s.

(** [strings.Contains]: [substr] occurs at some offset of [s]. *)
Fixpoint Contains (s substr : string) : bool :=
  String.prefix substr s
  || match s with
     | EmptyString => false
     | String _ s' => Contains s' substr
     end.

(** [strings.ReplaceAll] for a non-empty [old]: the non-overlapping
    occurrences of [old] are replaced from the left.  [skip] counts the bytes
    of a matched occurrence that are still to be passed over.  (For an empty
    [old] Go inserts [new] around every UTF-8 sequence; the client only
    passes ["[[" ++ link ++ "]]"], and the model leaves [s] as it is there.) *)
Fixpoint replaceFrom (old new : string) (skip : nat) (s : string) : string :=
  match s with
  | EmptyString => EmptyString
  | String c s' =>
      match skip with
      | S k => replaceFrom old new k s'
      | O =>
          if String.prefix old s
          then new ++ replaceFrom old new (String.length old - 1) s'
          else String c (replaceFrom old new 0 s')
      end
  end.

Definition ReplaceAll (s old new : string) : string :=
  match old with
  | EmptyString => s
  | _ => replaceFrom old new 0 s
  end.

(** [strings.Split] for a non-empty separator: the pieces between the
    non-overlapping occurrences of [sep]; [cur] is the piece being read.
    (An empty separator explodes the string into UTF-8 sequences in Go; the
    client only splits on ["/"], and the model returns [[s]] there.) *)
Fixpoint splitFrom (sep : string) (skip : nat) (cur s : string) : list string :=
  match s with
  | EmptyString => [cur]
  | String c s' =>
      match skip with
      | S k => splitFrom sep k cur s'
      | O =>
          if String.prefix sep s
          then cur :: splitFrom sep (String.length sep - 1) "" s'
          else splitFrom sep 0 (cur ++ String c "") s'
      end
  end.

Definition Split (s sep : string) : list string :=
  match sep with
  | EmptyString => [s]
  | _ => splitFrom sep 0 "" s
  end.

(** The UTF-8 encodings of the code points for which [unicode.IsSpace]
    holds: the six ASCII ones, U+0085, U+00A0, U+1680, U+2000..U+200A,
    U+2028, U+2029, U+202F, U+205F and U+3000. *)
Definition byte (n : nat) : ascii := ascii_of_nat n.

Definition str (l : list nat) : string := string_of_list_ascii (map byte l).

Definition spaces : list string :=
  map str
    [[9]; [10]; [11]; [12]; [13]; [32];
     [194; 133]; [194; 160]; [225; 154; 128];
     [226; 128; 128]; [226; 128; 129]; [226; 128; 130]; [226; 128; 131];
     [226; 128; 132]; [226; 128; 133]; [226; 128; 134]; [226; 128; 135];
     [226; 128; 136]; [226; 128; 137]; [226; 128; 138];
     [226; 128; 168]; [226; 128; 169]; [226; 128; 175];
     [226; 129; 159]; [227; 128; 128]].

Fixpoint rev (s : string) : string :=
  match s with
  | EmptyString => EmptyString
  | String c s' => rev s' ++ String c ""
  end.

(** The length of the white-space sequence [s] starts with, if any. *)
Definition spaceWidth (pats : list string) (s : string) : option nat :=
  option_map String.length (find (fun p => String.prefix p s) pats).

(** Drops leading white space; [skip] as in [replaceFrom]. *)
Fixpoint trimLeftFrom (pats : list string) (skip : nat) (s : string) : string :=
  match s with
  | EmptyString => EmptyString
  | String c s' =>
      match skip with
      | S k => trimLeftFrom pats k s'
      | O =>
          match spaceWidth pats s with
          | Some w => trimLeftFrom pats (w - 1) s'
          | None => s
          end
      end
  end.

Definition TrimLeftSpace (s : string) : string := trimLeftFrom spaces 0 s.

Definition TrimRightSpace (s : string) : string :=
  rev (trimLeftFrom (map rev spaces) 0 (rev s)).

(** [strings.TrimSpace]. *)
Definition TrimSpace (s : string) : string := TrimRightSpace (TrimLeftSpace s).

End Strings.

Import Strings.

(** ** JSON values and the decoder of [encoding/json]

    A Go value of type [any] that came from, or goes to, JSON: [nil], [bool],
    a number (kept as its literal, the client never computes with one),
    [string], [[]any] and [map[string]any] (members in document order; a
    lookup takes the last one, as a later duplicate key overwrites). *)

Module Json.

Inductive value : Type :=
| Null
| Bool (v : bool)
| Number (lit : string)
| Str (s : string)
| Array (items : list value)
| Object (members : list (string * value)).

Local Open Scope N_scope.

Definition code (c : ascii) : N := N_of_ascii c.

Definition between (lo hi : N) (c : ascii) : bool :=
  (lo <=? code c) && (code c <=? hi).

Definition bytes (l : list N) : string := string_of_list_ascii (map ascii_of_N l).

Definition quote : ascii := ascii_of_N 34.

Definition isWs (c : ascii) : bool :=
  match code c with
  | 32 | 9 | 10 | 13 => true
  | _ => false
  end.

Fixpoint skipWs (s : string) : string :=
  match s with
  | String c s' => if isWs c then skipWs s' else s
  | EmptyString => s
  end.

Definition isDigit (c : ascii) : bool := between 48 57 c.

Fixpoint takeDigits (s : string) : string * string :=
  match s with
  | String c s' =>
      if isDigit c
      then let '(d, r) := takeDigits s' in (String c d, r)
      else ("", s)
  | EmptyString => ("", "")
  end.

Definition someDigits (s : string) : option (string * string) :=
  match takeDigits s with
  | (EmptyString, _) => None
  | (d, r) => Some (d, r)
  end.

(** A number literal: an optional minus sign, then 0 or a digit string
    without leading zero, then an optional fraction and an optional
    exponent. *)
Definition scanNumber (s : string) : option (string * string) :=
  let '(sign, s1) :=
    match s with
    | String "-"%char r => ("-", r)
    | _ => ("", s)
    end in
  match
    match s1 with
    | String "0"%char r => Some ("0", r)
    | _ => someDigits s1
    end
  with
  | None => None
  | Some (int, s2) =>
      match
        match s2 with
        | String "."%char r =>
            option_map (fun '(d, r') => ("." ++ d, r')) (someDigits r)
        | _ => Some ("", s2)
        end
      with
      | None => None
      | Some (frac, s3) =>
          match s3 with
          | String e r =>
              if (Ascii.eqb e "e" || Ascii.eqb e "E")%bool
              then
                let '(esign, r1) :=
                  match r with
                  | String "+"%char r' => ("+", r')
                  | String "-"%char r' => ("-", r')
                  | _ => ("", r)
                  end in
                option_map
                  (fun '(d, r') => (sign ++ int ++ frac ++ String e esign ++ d, r'))
                  (someDigits r1)
              else Some (sign ++ int ++ frac, s3)
          | EmptyString => Some (sign ++ int ++ frac, s3)
          end
      end
  end.

(** The number of bytes of the UTF-8 sequence [s] starts with, as
    [utf8.DecodeRune] finds it; [None] for an ill-formed one. *)
Definition runeWidth (s : string) : option nat :=
  match s with
  | EmptyString => None
  | String c0 r0 =>
      if code c0 <? 128 then Some 1%nat
      else
        match r0 with
        | EmptyString => None
        | String c1 r1 =>
            if between 194 223 c0 then
              if between 128 191 c1 then Some 2%nat else None
            else
              match r1 with
              | EmptyString => None
              | String c2 r2 =>
                  let lo1 := if code c0 =? 224 then 160
                             else if code c0 =? 240 then 144 else 128 in
                  let hi1 := if code c0 =? 237 then 159
                             else if code c0 =? 244 then 143 else 191 in
                  if between 224 239 c0 then
                    if between lo1 hi1 c1 && between 128 191 c2
                    then Some 3%nat else None
                  else if between 240 244 c0 then
                    match r2 with
                    | EmptyString => None
                    | String c3 _ =>
                        if between lo1 hi1 c1 && between 128 191 c2
                           && between 128 191 c3
                        then Some 4%nat else None
                    end
                  else None
              end
        end
  end.

(** [utf8.EncodeRune]; surrogates and out-of-range code points become
    U+FFFD. *)
Definition replacement : string := bytes [239; 191; 189].

Definition encodeRune (r : N) : string :=
  if r <? 128 then bytes [r]
  else if r <? 2048 then bytes [192 + r / 64; 128 + r mod 64]
  else if (55296 <=? r) && (r <=? 57343) then replacement
  else if r <? 65536 then
    bytes [224 + r / 4096; 128 + (r / 64) mod 64; 128 + r mod 64]
  else if r <? 1114112 then
    bytes [240 + r / 262144; 128 + (r / 4096) mod 64;
         128 + (r / 64) mod 64; 128 + r mod 64]
  else replacement.

Definition hexDigit (c : ascii) : option N :=
  if between 48 57 c then Some (code c - 48)
  else if between 97 102 c then Some (code c - 87)
  else if between 65 70 c then Some (code c - 55)
  else None.

(** [getu4] after the [\u]: four hexadecimal digits. *)
Definition getu4 (s : string) : option N :=
  match s with
  | String a (String b (String c (String d _))) =>
      match hexDigit a, hexDigit b, hexDigit c, hexDigit d with
      | Some x, Some y, Some z, Some w => Some (((x * 16 + y) * 16 + z) * 16 + w)
      | _, _, _, _ => None
      end
  | _ => None
  end.

Definition isSurrogate (r : N) : bool := (55296 <=? r) && (r <=? 57343).

(** What an escape stands for, and how many bytes after the backslash it
    takes. *)
Definition unescape (s : string) : option (string * nat) :=
  match s with
  | EmptyString => None
  | String e r =>
      if Ascii.eqb e quote then Some (String quote "", 1%nat)
      else if Ascii.eqb e "\" then Some ("\", 1%nat)
      else if Ascii.eqb e "/" then Some ("/", 1%nat)
      else if Ascii.eqb e "b" then Some (bytes [8], 1%nat)
      else if Ascii.eqb e "f" then Some (bytes [12], 1%nat)
      else if Ascii.eqb e "n" then Some (bytes [10], 1%nat)
      else if Ascii.eqb e "r" then Some (bytes [13], 1%nat)
      else if Ascii.eqb e "t" then Some (bytes [9], 1%nat)
      else if Ascii.eqb e "u" then
        match getu4 r with
        | None => None
        | Some hi =>
            if isSurrogate hi then
              match drop 4%nat r with
              | String "\"%char (String "u"%char r') =>
                  match getu4 r' with
                  | Some lo =>
                      if (hi <? 56320) && (56320 <=? lo) && (lo <=? 57343)
                      then Some (encodeRune
                                   ((hi - 55296) * 1024 + (lo - 56320) + 65536), 11%nat)
                      else Some (replacement, 5%nat)
                  | None => Some (replacement, 5%nat)
                  end
              | _ => Some (replacement, 5%nat)
              end
            else Some (encodeRune hi, 5%nat)
        end
      else None
  end.

(** The body of a string literal after its opening quote, unquoted as
    [encoding/json] does: escapes decoded, ill-formed UTF-8 replaced by
    U+FFFD, control characters refused.  [skip] bytes belong to an escape
    already decoded; [copy] bytes are the tail of a well-formed sequence. *)
Fixpoint scanString (skip copy : nat) (acc s : string) : option (string * string) :=
  match s with
  | EmptyString => None
  | String c s' =>
      match skip, copy with
      | S k, _ => scanString k copy acc s'
      | O, S k => scanString 0%nat k (acc ++ String c "") s'
      | O, O =>
          if Ascii.eqb c quote then Some (acc, s')
          else if Ascii.eqb c "\" then
            match unescape s' with
            | Some (out, n) => scanString n 0%nat (acc ++ out) s'
            | None => None
            end
          else if code c <? 32 then None
          else
            match runeWidth s with
            | Some w => scanString 0%nat (w - 1)%nat (acc ++ String c "") s'
            | None => scanString 0%nat 0%nat (acc ++ replacement) s'
            end
      end
  end.

Definition expect (lit : string) (v : value) (s : string) : option (value * string) :=
  if String.prefix lit s then Some (v, drop (String.length lit) s) else None.

(** The recursive descent over one value; [fuel] bounds the number of
    calls, [parse] below gives enough for the whole text. *)
Fixpoint parseValue (fuel : nat) (s : string) {struct fuel} : option (value * string) :=
  match fuel with
  | O => None
  | S fuel' =>
      match skipWs s with
      | EmptyString => None
      | String c r =>
          if Ascii.eqb c "n" then expect "null" Null (String c r)
          else if Ascii.eqb c "t" then expect "true" (Bool true) (String c r)
          else if Ascii.eqb c "f" then expect "false" (Bool false) (String c r)
          else if Ascii.eqb c quote then
            option_map (fun '(x, r') => (Str x, r')) (scanString 0%nat 0%nat "" r)
          else if Ascii.eqb c "[" then
            match skipWs r with
            | String "]"%char r' => Some (Array [], r')
            | _ => parseItems fuel' [] r
            end
          else if Ascii.eqb c "{" then
            match skipWs r with
            | String "}"%char r' => Some (Object [], r')
            | _ => parseMembers fuel' [] r
            end
          else option_map (fun '(n, r') => (Number n, r')) (scanNumber (String c r))
      end
  end
with parseItems (fuel : nat) (acc : list value) (s : string) {struct fuel}
  : option (value * string) :=
  match fuel with
  | O => None
  | S fuel' =>
      match parseValue fuel' s with
      | None => None
      | Some (v, r) =>
          match skipWs r with
          | String ","%char r' => parseItems fuel' (acc ++ [v]) r'
          | String "]"%char r' => Some (Array (acc ++ [v]), r')
          | _ => None
          end
      end
  end
with parseMembers (fuel : nat) (acc : list (string * value)) (s : string) {struct fuel}
  : option (value * string) :=
  match fuel with
  | O => None
  | S fuel' =>
      match skipWs s with
      | String q r =>
          if Ascii.eqb q quote then
            match scanString 0%nat 0%nat "" r with
            | None => None
            | Some (k, r1) =>
                match skipWs r1 with
                | String ":"%char r2 =>
                    match parseValue fuel' r2 with
                    | None => None
                    | Some (v, r3) =>
                        match skipWs r3 with
                        | String ","%char r4 => parseMembers fuel' (acc ++ [(k, v)]) r4
                        | String "}"%char r4 => Some (Object (acc ++ [(k, v)]), r4)
                        | _ => None
                        end
                    end
                | _ => None
                end
            end
          else None
      | EmptyString => None
      end
  end.

(** [json.Unmarshal] into an [any]: one value and nothing but white space
    after it. *)
Definition parse (s : string) : option value :=
  match parseValue (2 * String.length s + 2)%nat s with
  | Some (v, r) =>
      match skipWs r with
      | EmptyString => Some v
      | _ => None
      end
  | None => None
  end.

End Json.

Import Json.


(** ** models.go: pages, blocks and their decoding *)

(** A [map[string]any]: an association list in which every key occurs once;
    [range] visits it in list order (Go leaves the order open, a statement
    over all lists covers every order). *)
Definition Props : Type := list (string * value).

Fixpoint mapSet (k : string) (v : value) (m : Props) : Props :=
  match m with
  | [] => [(k, v)]
  | (k', v') :: m' =>
      if String.eqb k k' then (k, v) :: m' else (k', v') :: mapSet k v m'
  end.

Definition mapOf (members : list (string * value)) : Props :=
  fold_left (fun m kv => mapSet (fst kv) (snd kv) m) members [].

(** A decoded JSON text as the [any] that [json.Unmarshal] builds: objects
    become maps, so of two members with one key the later one stays. *)
Fixpoint toAny (v : value) : value :=
  match v with
  | Array items => Array (map toAny items)
  | Object members => Object (mapOf (map (fun kv => (fst kv, toAny (snd kv))) members))
  | _ => v
  end.

(** How [encoding/json] matches an object key with a field tag: equal up to
    case, where U+017F folds to [S] and U+212A to [K]. *)
Definition upper (c : ascii) : ascii :=
  if between 97 122 c then ascii_of_N (code c - 32) else c.

Fixpoint foldName (s : string) : string :=
  match s with
  | EmptyString => EmptyString
  | String c s' =>
      let rest := foldName s' in
      if (code c =? 197)%N && String.prefix (bytes [191%N]) s'
      then String "S" (Strings.drop 1 rest)
      else if (code c =? 226)%N && String.prefix (bytes [132%N; 170%N]) s'
      then String "K" (Strings.drop 2 rest)
      else String (upper c) rest
  end.

Definition isField (tag key : string) : bool :=
  String.eqb (foldName key) (foldName tag).

(** A JSON number into a Go [int] (64 bits): only an integer literal in
    range. *)
Fixpoint digitsValue (acc : Z) (s : string) : option Z :=
  match s with
  | EmptyString => Some acc
  | String c s' =>
      if isDigit c
      then digitsValue (10 * acc + Z.of_N (code c - 48)) s'
      else None
  end.

Definition parseInt (lit : string) : option Z :=
  let r :=
    match lit with
    | String "-"%char d => option_map Z.opp (digitsValue 0 d)
    | _ => digitsValue 0 lit
    end in
  match r with
  | Some z => if ((- 2 ^ 63 <=? z) && (z <? 2 ^ 63))%Z then Some z else None
  | None => None
  end.

(** A JSON number into a [float64], as every number decoded into an [any]
    is: [strconv.ParseFloat] refuses a literal that rounds to infinity,
    that is, whose value is at least [2^1024 - 2^970]. *)
Definition digitsOrZero (s : string) : Z :=
  match digitsValue 0 s with
  | Some z => z
  | None => 0%Z
  end.

Definition fitsFloat64 (lit : string) : bool :=
  let unsigned := match lit with String "-"%char r => r | _ => lit end in
  let '(int, r1) := takeDigits unsigned in
  let '(frac, r2) :=
    match r1 with
    | String "."%char r => takeDigits r
    | _ => ("", r1)
    end in
  let exponent :=
    match r2 with
    | String _ (String "-"%char d) => (- digitsOrZero d)%Z
    | String _ (String "+"%char d) => digitsOrZero d
    | String _ d => digitsOrZero d
    | EmptyString => 0%Z
    end in
  let mantissa := digitsOrZero (int ++ frac) in
  let scale := (exponent - Z.of_nat (String.length frac))%Z in
  let limit := (2 ^ 1024 - 2 ^ 970)%Z in
  if (0 <=? scale)%Z
  then (mantissa * 10 ^ scale <? limit)%Z
  else (mantissa <? limit * 10 ^ (- scale))%Z.

Fixpoint anyOk (v : value) : bool :=
  match v with
  | Number lit => fitsFloat64 lit
  | Array items => forallb anyOk items
  | Object members => forallb (fun kv => anyOk (snd kv)) members
  | _ => true
  end.

(** Decoders of one field; [None] is an [UnmarshalTypeError].  A JSON null
    leaves a scalar as it is and resets a map or a slice to nil. *)
Definition intField (old : Z) (v : value) : option Z :=
  match v with
  | Null => Some old
  | Number lit => parseInt lit
  | _ => None
  end.

Definition stringField (old : string) (v : value) : option string :=
  match v with
  | Null => Some old
  | Str s => Some s
  | _ => None
  end.

Definition boolField (old : bool) (v : value) : option bool :=
  match v with
  | Null => Some old
  | Bool x => Some x
  | _ => None
  end.

Definition mapField (old : option Props) (v : value) : option (option Props) :=
  match v with
  | Null => Some None
  | Object members =>
      if anyOk v
      then Some (Some (fold_left (fun m kv => mapSet (fst kv) (toAny (snd kv)) m) members
                         (match old with Some m => m | None => [] end)))
      else None
  | _ => None
  end.

Definition sliceField (v : value) : option (list value) :=
  match v with
  | Null => Some []
  | Array items => if anyOk v then Some (map toAny items) else None
  | _ => None
  end.

(** Decodes the members of an object one after the other into a struct. *)
Definition decodeStruct {T : Type} (setField : T -> string -> value -> option T)
    (zero : T) (v : value) : option T :=
  match v with
  | Null => Some zero
  | Object members =>
      fold_left
        (fun acc kv =>
           match acc with
           | Some t => setField t (fst kv) (snd kv)
           | None => None
           end)
        members (Some zero)
  | _ => None
  end.

Module EntityRef.

Record t : Type := mk { ID : Z; UUID : string }.

Definition zero : t := mk 0 "".

Definition setField (e : t) (k : string) (v : value) : option t :=
  if isField "id" k then option_map (fun z => mk z (UUID e)) (intField (ID e) v)
  else if isField "uuid" k then option_map (fun s => mk (ID e) s) (stringField (UUID e) v)
  else Some e.

(** [EntityRef.UnmarshalJSON]: an integer identifier first, an object with
    [id] and [uuid] otherwise. *)
Definition UnmarshalJSON (e : t) (data : value) : option t :=
  match intField 0 data with
  | Some id => Some (mk id (UUID e))
  | None => decodeStruct setField e data
  end.

End EntityRef.

Module Page.

(** [RawProperties] carries the tag [json:"-"] and is never written; it is
    left out. *)
Record t : Type := mk {
  ID : Z;
  UUID : string;
  Name : string;
  OriginalName : string;
  Properties : option Props;
  Journal : bool
}.

Definition zero : t := mk 0 "" "" "" None false.

Definition setField (p : t) (k : string) (v : value) : option t :=
  if isField "id" k then
    option_map (fun z => mk z (UUID p) (Name p) (OriginalName p) (Properties p) (Journal p))
      (intField (ID p) v)
  else if isField "uuid" k then
    option_map (fun s => mk (ID p) s (Name p) (OriginalName p) (Properties p) (Journal p))
      (stringField (UUID p) v)
  else if isField "name" k then
    option_map (fun s => mk (ID p) (UUID p) s (OriginalName p) (Properties p) (Journal p))
      (stringField (Name p) v)
  else if isField "originalName" k then
    option_map (fun s => mk (ID p) (UUID p) (Name p) s (Properties p) (Journal p))
      (stringField (OriginalName p) v)
  else if isField "properties" k then
    option_map (fun m => mk (ID p) (UUID p) (Name p) (OriginalName p) m (Journal p))
      (mapField (Properties p) v)
  else if isField "journal?" k then
    option_map (fun x => mk (ID p) (UUID p) (Name p) (OriginalName p) (Properties p) x)
      (boolField (Journal p) v)
  else Some p.

Definition knownFields : list string :=
  ["id"; "uuid"; "name"; "originalName"; "journal?"; "properties"; "left";
   "parent"; "page"; "format"; "children"; "content"; "createdAt";
   "updatedAt"; "file"; "namespace"].

Definition known (k : string) : bool := existsb (String.eqb k) knownFields.

(** [Page.UnmarshalJSON]: the tagged fields, then every member whose key is
    not a known field becomes a property, and the explicit [properties]
    are merged over them. *)
Definition UnmarshalJSON (p : t) (data : value) : option t :=
  match decodeStruct setField p data, anyOk data with
  | None, _ | _, false => None
  | Some p1, true =>
      let explicitProps := Properties p1 in
      let raw :=
        match data with
        | Object members => mapOf (map (fun kv => (fst kv, toAny (snd kv))) members)
        | _ => []
        end in
      let extra := filter (fun kv => negb (known (fst kv))) raw in
      let merged :=
        match explicitProps with
        | Some m => fold_left (fun acc kv => mapSet (fst kv) (snd kv) acc) m extra
        | None => extra
        end in
      Some (mk (ID p1) (UUID p1) (Name p1) (OriginalName p1) (Some merged) (Journal p1))
  end.

End Page.

Module Block.

Record t : Type := mk {
  ID : Z;
  UUID : string;
  Content : string;
  Format : string;
  Left : value;
  Parent : EntityRef.t;
  Page : EntityRef.t;
  Properties : option Props;
  Children : list value;
  Refs : list value
}.

Definition zero : t :=
  mk 0 "" "" "" Null EntityRef.zero EntityRef.zero None [] [].

Definition setField (x : t) (k : string) (v : value) : option t :=
  if isField "id" k then
    option_map (fun z => mk z (UUID x) (Content x) (Format x) (Left x) (Parent x)
                           (Page x) (Properties x) (Children x) (Refs x))
      (intField (ID x) v)
  else if isField "uuid" k then
    option_map (fun s => mk (ID x) s (Content x) (Format x) (Left x) (Parent x)
                           (Page x) (Properties x) (Children x) (Refs x))
      (stringField (UUID x) v)
  else if isField "content" k then
    option_map (fun s => mk (ID x) (UUID x) s (Format x) (Left x) (Parent x)
                           (Page x) (Properties x) (Children x) (Refs x))
      (stringField (Content x) v)
  else if isField "format" k then
    option_map (fun s => mk (ID x) (UUID x) (Content x) s (Left x) (Parent x)
                           (Page x) (Properties x) (Children x) (Refs x))
      (stringField (Format x) v)
  else if isField "left" k then
    if anyOk v
    then Some (mk (ID x) (UUID x) (Content x) (Format x) (toAny v) (Parent x)
                 (Page x) (Properties x) (Children x) (Refs x))
    else None
  else if isField "parent" k then
    option_map (fun e => mk (ID x) (UUID x) (Content x) (Format x) (Left x) e
                           (Page x) (Properties x) (Children x) (Refs x))
      (EntityRef.UnmarshalJSON (Parent x) v)
  else if isField "page" k then
    option_map (fun e => mk (ID x) (UUID x) (Content x) (Format x) (Left x) (Parent x)
                           e (Properties x) (Children x) (Refs x))
      (EntityRef.UnmarshalJSON (Page x) v)
  else if isField "properties" k then
    option_map (fun m => mk (ID x) (UUID x) (Content x) (Format x) (Left x) (Parent x)
                           (Page x) m (Children x) (Refs x))
      (mapField (Properties x) v)
  else if isField "children" k then
    option_map (fun l => mk (ID x) (UUID x) (Content x) (Format x) (Left x) (Parent x)
                           (Page x) (Properties x) l (Refs x))
      (sliceField v)
  else if isField "refs" k then
    option_map (fun l => mk (ID x) (UUID x) (Content x) (Format x) (Left x) (Parent x)
                           (Page x) (Properties x) (Children x) l)
      (sliceField v)
  else Some x.

End Block.

(** [json.Unmarshal(data, &x)] for the targets the client decodes into;
    [None] is a non-nil error. *)
Definition unmarshalPage (data : string) : option Page.t :=
  match parse data with
  | Some v => Page.UnmarshalJSON Page.zero v
  | None => None
  end.

Definition unmarshalBlock (data : string) : option Block.t :=
  match parse data with
  | Some v => decodeStruct Block.setField Block.zero v
  | None => None
  end.

Definition unmarshalBlocks (data : string) : option (list Block.t) :=
  match parse data with
  | Some Null => Some []
  | Some (Array items) =>
      fold_right
        (fun v acc =>
           match decodeStruct Block.setField Block.zero v, acc with
           | Some x, Some l => Some (x :: l)
           | _, _ => None
           end)
        (Some []) items
  | _ => None
  end.

Definition unmarshalString (data : string) : option string :=
  match parse data with
  | Some v => stringField "" v
  | None => None
  end.

Definition unmarshalAny (data : string) : option value :=
  match parse data with
  | Some v => if anyOk v then Some (toAny v) else None
  | None => None
  end.

(** The anonymous [struct { Error string `json:"error"` }] of [Call]. *)
Definition unmarshalErrCheck (data : string) : option string :=
  match parse data with
  | Some v =>
      decodeStruct
        (fun e k x => if isField "error" k then stringField e x else Some e) "" v
  | None => None
  end.

(** ** utils.go: the link extractor *)

(** The longest prefix of [s] without the byte [c], and what follows it. *)
Fixpoint span (c : ascii) (s : string) : string * string :=
  match s with
  | EmptyString => ("", "")
  | String a s' =>
      if Ascii.eqb a c then ("", s)
      else let '(x, r) := span c s' in (String a x, r)
  end.

(** A match of the regular expression [oo([^c]+)cc] at the start of [s]
    (for [\[\[([^\]]+)\]\]] and [\(\(([^)]+)\)\)]): the submatch. *)
Definition matchAt (o c : ascii) (s : string) : option string :=
  match s with
  | String a0 (String a1 r) =>
      if Ascii.eqb a0 o && Ascii.eqb a1 o then
        match span c r with
        | (String x inner, String c0 (String c1 _)) =>
            if Ascii.eqb c0 c && Ascii.eqb c1 c then Some (String x inner) else None
        | _ => None
        end
      else None
  | _ => None
  end.

(** [re.FindAllStringSubmatch(content, -1)], the submatches only: leftmost
    matches that do not overlap; [skip] bytes of the last match are still
    to be passed over. *)
Fixpoint findAll (o c : ascii) (skip : nat) (s : string) : list string :=
  match s with
  | EmptyString => []
  | String _ s' =>
      match skip with
      | S k => findAll o c k s'
      | O =>
          match matchAt o c s with
          | Some inner => inner :: findAll o c (String.length inner + 3) s'
          | None => findAll o c 0 s'
          end
      end
  end.

Definition member (x : string) (l : list string) : bool := existsb (String.eqb x) l.

(** The loop both extractors share: trim, drop the empty, keep the first of
    equal names. *)
Definition uniqueNames (matches : list string) : list string :=
  fold_left
    (fun links m =>
       let name := TrimSpace m in
       if negb (String.eqb name "") && negb (member name links)
       then (links ++ [name])%list else links)
    matches [].

Definition extractLinks (content : string) : list string :=
  uniqueNames (findAll "[" "]" 0 content).

Definition ExtractLinks (content : string) : list string := extractLinks content.

Definition extractBlockRefs (content : string) : list string :=
  uniqueNames (findAll "(" ")" 0 content).

(** [BlockContent] of models.go, and how it goes on the wire
    ([omitempty] drops an empty map and an empty list). *)
Inductive BlockContent : Type :=
| mkBlockContent (Content : string) (Properties : option Props) (Children : list BlockContent).

Fixpoint marshalBlockContent (x : BlockContent) : value :=
  match x with
  | mkBlockContent content properties children =>
      Object
        ([("content", Str content)]
         ++ match properties with
            | Some (kv :: m) => [("properties", Object (kv :: m))]
            | _ => []
            end
         ++ match children with
            | [] => []
            | _ => [("children", Array (map marshalBlockContent children))]
            end)%list
  end.

(** The flattening of [Query]: when the first row is a list, every row that
    is a non-empty list is replaced by its first element and every other
    row is dropped. *)
Definition flatten (results : value) : value :=
  match results with
  | Array (Array first :: rest) =>
      Array
        (flat_map
           (fun item =>
              match item with
              | Array (x :: _) => [x]
              | _ => []
              end)
           (Array first :: rest))
  | _ => results
  end.

(** ** client.go: the transport *)

Record apiRequest : Type := mkRequest { Method : string; Args : list value }.

(** What [c.client.R().SetBody(reqBody).Post("/api")] comes back with: an
    error of the HTTP client, or a response. *)
Inductive HttpResult : Type :=
| Failed (msg : string)
| Response (status : N) (body : string).

(** Go [error] values: those of the libraries, and [fmt.Errorf] with the
    text before its [%w] operand.  The text of a decoding error is the
    library's; [errorText] writes a fixed one for it. *)
Inductive error : Type :=
| NetError (msg : string)
| JsonError
| Errorf (text : string) (cause : option error).

Fixpoint errorText (e : error) : string :=
  match e with
  | NetError msg => msg
  | JsonError => "json: cannot unmarshal"
  | Errorf text (Some cause) => text ++ errorText cause
  | Errorf text None => text
  end.

Inductive Level : Type := Debug | Info | Warn | Error.

Record LogEntry : Type := mkLog {
  level : Level;
  message : string;
  fields : list (string * value)
}.

(** The client: [client] is the resty client together with the network and
    the store behind it, a transition of the remote [World] per request;
    [logger] says whether [c.logger != nil]. *)
Record Client (World : Type) : Type := mkClient {
  client : World -> apiRequest -> World * HttpResult;
  logger : bool;
  token : string;
  apiURL : string
}.

Arguments mkClient {World}.
Arguments client {World}.
Arguments logger {World}.
Arguments token {World}.
Arguments apiURL {World}.

(** What a method reads and writes: the remote store, the requests sent so
    far and the log. *)
Record State (World : Type) : Type := mkState {
  remote : World;
  sent : list apiRequest;
  logs : list LogEntry
}.

Arguments mkState {World}.
Arguments remote {World}.
Arguments sent {World}.
Arguments logs {World}.

Definition M (World A : Type) : Type := State World -> A * State World.

Definition ret {W A : Type} (a : A) : M W A := fun st => (a, st).

Definition bind {W A B : Type} (m : M W A) (k : A -> M W B) : M W B :=
  fun st => let (a, st') := m st in k a st'.

Notation "x <- m ;; k" := (bind m (fun x => k))
  (at level 61, m at next level, right associativity).
Notation "' pat <- m ;; k" := (bind m (fun x => match x with pat => k end))
  (at level 61, pat pattern, m at next level, right associativity).
Notation "m ;; k" := (bind m (fun _ => k))
  (at level 61, right associativity).

Definition decimal (n : N) : string := NilZero.string_of_uint (N.to_uint n).

Section Methods.

Context {World : Type}.
Variable c : Client World.

Definition log (l : Level) (msg : string) (fs : list (string * value)) : M World unit :=
  fun st =>
    if logger c
    then (tt, mkState (remote st) (sent st) (logs st ++ [mkLog l msg fs]))
    else (tt, st).

Definition Post (req : apiRequest) : M World HttpResult :=
  fun st =>
    let (w, out) := client c (remote st) req in
    (out, mkState w (sent st ++ [req]) (logs st)).

(** [Response.String] of resty: the body without surrounding white space. *)
Definition Call (method : string) (args : list value) : M World (string * option error) :=
  log Debug "Logseq API Call" [("method", Str method); ("args", Array args)] ;;
  resp <- Post (mkRequest method args) ;;
  match resp with
  | Failed msg =>
      log Error "Logseq API request failed"
        [("method", Str method); ("error", Str msg)] ;;
      ret ("", Some (Errorf "request failed: " (Some (NetError msg))))
  | Response status body =>
      if (399 <? status)%N then
        log Error "Logseq API error response"
          [("method", Str method); ("status", Number (decimal status));
           ("body", Str (TrimSpace body))] ;;
        ret ("", Some (Errorf ("api error: " ++ TrimSpace body
                               ++ " (status: " ++ decimal status ++ ")") None))
      else
        match unmarshalErrCheck body with
        | Some (String x e) =>
            log Error "Logseq API business error"
              [("method", Str method); ("error", Str (String x e))] ;;
            ret ("", Some (Errorf ("api error: " ++ String x e) None))
        | _ => ret (body, None)
        end
  end.

Definition isEmptyResult (resp : string) : bool :=
  String.eqb resp "null" || String.eqb resp "[]".

Definition GetPage (nameOrUUID : string) : M World (option Page.t * option error) :=
  '(resp, err) <- Call "logseq.Editor.getPage" [Str nameOrUUID] ;;
  match err with
  | Some e => ret (None, Some e)
  | None =>
      if negb (isEmptyResult resp) then
        match unmarshalPage resp with
        | Some page => ret (Some page, None)
        | None => ret (None, None)
        end
      else ret (None, None)
  end.

Definition GetBlock (uuid : string) : M World (option Block.t * option error) :=
  '(resp, err) <- Call "logseq.Editor.getBlock" [Str uuid; Bool true] ;;
  match err with
  | Some e => ret (None, Some e)
  | None =>
      if String.eqb resp "null" then
        log Debug "GetBlock returned null" [("uuid", Str uuid)] ;;
        ret (None, None)
      else
        match unmarshalBlock resp with
        | None => ret (None, Some (Errorf "failed to parse block: " (Some JsonError)))
        | Some block => ret (Some block, None)
        end
  end.

Definition entries (properties : option Props) : Props :=
  match properties with
  | Some m => m
  | None => []
  end.

Definition optional (options : option Props) : list value :=
  match options with
  | Some o => [Object o]
  | None => []
  end.

(** [CreatePage] with the call of [UpdatePage] left open: [UpdatePage] runs
    [EnsureLinkedPages], which creates pages again, with no properties. *)
Definition CreatePageWith
    (UpdatePage : string -> option Props -> M World (option Page.t * option error))
    (name : string) (properties options : option Props)
  : M World (option Page.t * option error) :=
  let properties := match properties with None => Some [] | p => p end in
  '(existing, err) <- GetPage name ;;
  match err, existing with
  | None, Some existing =>
      if (0 <? List.length (entries properties))%nat then
        UpdatePage (Page.UUID existing) properties ;;
        GetPage (Page.UUID existing)
      else ret (Some existing, None)
  | _, _ =>
      let args := ([Str name; Object (entries properties)] ++ optional options)%list in
      log Debug "Attempting CreatePage" [("name", Str name)] ;;
      '(resp, err) <- Call "logseq.Editor.createPage" args ;;
      match err with
      | Some e =>
          log Warn "CreatePage failed" [("error", Str (errorText e))] ;;
          ret (None, Some e)
      | None =>
          success <-
            match unmarshalPage resp with
            | Some page =>
                if String.eqb (Page.UUID page) "" then
                  log Warn "CreatePage returned empty UUID" [("requested", Str name)] ;;
                  ret None
                else ret (Some page)
            | None =>
                log Warn "CreatePage JSON parse error"
                  [("error", Str (errorText JsonError))] ;;
                ret None
            end ;;
          match success with
          | Some page =>
              if (0 <? List.length (entries properties))%nat then
                UpdatePage (Page.UUID page) properties ;;
                '(updated, err) <- GetPage (Page.UUID page) ;;
                match err, updated with
                | None, Some updated => ret (Some updated, None)
                | _, _ => ret (Some page, None)
                end
              else ret (Some page, None)
          | None =>
              ret (None, Some (Errorf ("failed to create page '" ++ name ++ "'") None))
          end
      end
  end.

(** [c.CreatePage(currentPath, nil, nil)] as [EnsureLinkedPages] calls it:
    with no properties [UpdatePage] is not reached. *)
Definition CreatePageBare (name : string) : M World (option Page.t * option error) :=
  CreatePageWith (fun _ _ => ret (None, None)) name None None.

(** The loop over the parts of one link (steps "Handle hierarchy" of
    [EnsureLinkedPages]); [i] is the index of [part], [n] is [len(parts)]. *)
Fixpoint ensureLevels (parts : list string) (i n : nat) (currentPath finalUUID : string)
  : M World string :=
  match parts with
  | [] => ret finalUUID
  | part :: rest =>
      let currentPath :=
        if String.eqb currentPath "" then part else currentPath ++ "/" ++ part in
      log Debug "Checking linked page existence" [("page", Str currentPath)] ;;
      '(page, err) <- GetPage currentPath ;;
      match err, page with
      | None, Some page =>
          ensureLevels rest (S i) n currentPath
            (if i =? n - 1 then Page.UUID page else finalUUID)
      | _, _ =>
          log Info "Auto-creating missing linked page/namespace"
            [("page", Str currentPath)] ;;
          '(created, err) <- CreatePageBare currentPath ;;
          match err, created with
          | Some e, _ =>
              log Error "Failed to auto-create linked page"
                [("page", Str currentPath); ("error", Str (errorText e))] ;;
              ensureLevels rest (S i) n currentPath finalUUID
          | None, Some created =>
              ensureLevels rest (S i) n currentPath
                (if i =? n - 1 then Page.UUID created else finalUUID)
          | None, None => ensureLevels rest (S i) n currentPath finalUUID
          end
      end
  end.

(** The namespace materializer: the levels of [link], and the identifier of
    the deepest one. *)
Definition materialize (link : string) : M World string :=
  let parts := Split link "/" in
  ensureLevels parts 0 (List.length parts) "" "".

(** [properties[k] = strings.ReplaceAll(str, target, replacement)] for the
    string values that contain [target]. *)
Definition replaceInProps (target replacement : string) (properties : Props) : Props :=
  map
    (fun kv =>
       match snd kv with
       | Str s =>
           if Contains s target
           then (fst kv, Str (ReplaceAll s target replacement))
           else kv
       | _ => kv
       end)
    properties.

(** Step 4 for one link, once its levels are there. *)
Definition rewriteLink (link finalUUID content : string) (properties : option Props)
  : M World (string * option Props) :=
  if Contains link "/" && negb (String.eqb finalUUID "") then
    let target := "[[" ++ link ++ "]]" in
    let replacement := "((" ++ finalUUID ++ "))" in
    log Debug "Replacing namespaced link with UUID"
      [("original", Str target); ("replacement", Str replacement)] ;;
    ret (ReplaceAll content target replacement,
         option_map (replaceInProps target replacement) properties)
  else ret (content, properties).

Fixpoint ensureLinks (linkList : list string) (content : string) (properties : option Props)
  : M World (string * option Props) :=
  match linkList with
  | [] => ret (content, properties)
  | link :: rest =>
      finalUUID <- materialize link ;;
      '(content, properties) <- rewriteLink link finalUUID content properties ;;
      ensureLinks rest content properties
  end.

(** The string values of a property map, in [range] order. *)
Definition stringValues (properties : option Props) : list string :=
  flat_map (fun kv => match snd kv with Str s => [s] | _ => [] end) (entries properties).

Definition dedup (links : list string) : list string :=
  fold_left (fun linkList l => if member l linkList then linkList else (linkList ++ [l])%list)
    links [].

Fixpoint verifyRefs (refs : list string) : M World unit :=
  match refs with
  | [] => ret tt
  | uuid :: rest =>
      '(block, err) <- GetBlock uuid ;;
      match err, block with
      | None, Some _ => verifyRefs rest
      | _, _ =>
          log Warn " Referenced block not found" [("uuid", Str uuid)] ;;
          verifyRefs rest
      end
  end.

(** [EnsureLinkedPages]: the content to submit, and the property map as the
    call leaves it (Go mutates the caller's map in place). *)
Definition EnsureLinkedPages (content : string) (properties : option Props)
  : M World (string * option Props) :=
  let links := (extractLinks content ++ flat_map extractLinks (stringValues properties))%list in
  let linkList := dedup links in
  '(content, properties) <- ensureLinks linkList content properties ;;
  let refs :=
    (extractBlockRefs content ++ flat_map extractBlockRefs (stringValues properties))%list in
  verifyRefs refs ;;
  ret (content, properties).

Fixpoint upsertAll (uuid : string) (properties : Props) : M World (option error) :=
  match properties with
  | [] => ret None
  | (k, v) :: rest =>
      '(_, err) <- Call "logseq.Editor.upsertBlockProperty" [Str uuid; Str k; v] ;;
      match err with
      | Some e => ret (Some (Errorf ("failed to update property " ++ k ++ ": ") (Some e)))
      | None => upsertAll uuid rest
      end
  end.

Definition UpdatePage (uuid : string) (properties : option Props)
  : M World (option Page.t * option error) :=
  '(_, properties) <- EnsureLinkedPages "" properties ;;
  err <- upsertAll uuid (entries properties) ;;
  match err with
  | Some e => ret (None, Some e)
  | None => GetPage uuid
  end.

Definition CreatePage (name : string) (properties options : option Props)
  : M World (option Page.t * option error) :=
  CreatePageWith UpdatePage name properties options.

Definition UpdateBlock (uuid content : string) (properties : option Props)
  : M World (option Block.t * option error) :=
  '(content, properties) <- EnsureLinkedPages content properties ;;
  let args := ([Str uuid; Str content] ++ optional properties)%list in
  '(resp, err) <- Call "logseq.Editor.updateBlock" args ;;
  match err with
  | Some e => ret (None, Some e)
  | None =>
      match
        match unmarshalBlock resp with
        | Some block => if String.eqb (Block.UUID block) "" then None else Some block
        | None => None
        end
      with
      | Some block => ret (Some block, None)
      | None =>
          match unmarshalString resp with
          | Some (String x respUUID) => GetBlock (String x respUUID)
          | _ => GetBlock uuid
          end
      end
  end.

Definition InsertBlock (parentUUID content : string) (properties options : option Props)
  : M World (option Block.t * option error) :=
  '(content, properties) <- EnsureLinkedPages content properties ;;
  let args := ([Str parentUUID; Str content] ++ optional options)%list in
  '(resp, err) <- Call "logseq.Editor.insertBlock" args ;;
  match err with
  | Some e => ret (None, Some e)
  | None =>
      match unmarshalBlock resp with
      | None => ret (None, Some (Errorf "failed to parse inserted block: " (Some JsonError)))
      | Some block =>
          if (0 <? List.length (entries properties))%nat then
            '(_, err) <- UpdateBlock (Block.UUID block) content properties ;;
            match err with
            | Some e =>
                log Error "Failed to apply properties to new block"
                  [("error", Str (errorText e))] ;;
                ret (Some block, Some (Errorf "block created but properties failed: " (Some e)))
            | None => GetBlock (Block.UUID block)
            end
          else ret (Some block, None)
      end
  end.

Definition AppendBlockInPage (pageName content : string) (options : option Props)
  : M World (option Block.t * option error) :=
  '(content, _) <- EnsureLinkedPages content None ;;
  let args := ([Str pageName; Str content] ++ optional options)%list in
  '(resp, err) <- Call "logseq.Editor.appendBlockInPage" args ;;
  match err with
  | Some e => ret (None, Some e)
  | None =>
      match unmarshalBlock resp with
      | None => ret (None, Some (Errorf "failed to parse appended block: " (Some JsonError)))
      | Some block => ret (Some block, None)
      end
  end.

(** [InsertBatchBlock]: every block of the tree is synchronised, parents
    before children, before the one batch call. *)
Fixpoint scanBlock (block : BlockContent) : M World BlockContent :=
  match block with
  | mkBlockContent content properties children =>
      '(content, properties) <- EnsureLinkedPages content properties ;;
      children <-
        (fix scanBlocks (blocks : list BlockContent) : M World (list BlockContent) :=
           match blocks with
           | [] => ret []
           | x :: rest =>
               x' <- scanBlock x ;;
               rest' <- scanBlocks rest ;;
               ret (x' :: rest')
           end) children ;;
      ret (mkBlockContent content properties children)
  end.

Fixpoint scanBlocks (blocks : list BlockContent) : M World (list BlockContent) :=
  match blocks with
  | [] => ret []
  | x :: rest =>
      x' <- scanBlock x ;;
      rest' <- scanBlocks rest ;;
      ret (x' :: rest')
  end.

Definition InsertBatchBlock (parentUUID : string) (batch : list BlockContent)
    (options : option Props) : M World (list Block.t * option error) :=
  batch <- scanBlocks batch ;;
  let args := ([Str parentUUID; Array (map marshalBlockContent batch)] ++ optional options)%list in
  '(resp, err) <- Call "logseq.Editor.insertBatchBlock" args ;;
  match err with
  | Some e => ret ([], Some e)
  | None =>
      match unmarshalBlocks resp with
      | None => ret ([], Some (Errorf "failed to parse batch blocks: " (Some JsonError)))
      | Some blocks => ret (blocks, None)
      end
  end.

(** [Query]: the fallback to the second engine on an empty answer, then the
    flattening. *)
Definition Query (datalog : string) : M World (value * option error) :=
  '(resp, err) <- Call "logseq.DB.q" [Str datalog] ;;
  match err with
  | Some e => ret (Null, Some e)
  | None =>
      resp <-
        (if String.eqb resp "[]" || String.eqb resp "null" then
           '(respDS, err) <- Call "logseq.DB.datascriptQuery" [Str datalog] ;;
           match err with
           | None =>
               if negb (String.eqb respDS "[]") && negb (String.eqb respDS "null")
               then ret respDS else ret resp
           | Some _ => ret resp
           end
         else ret resp) ;;
      match unmarshalAny resp with
      | None => ret (Null, Some (Errorf "failed to parse query results: " (Some JsonError)))
      | Some results => ret (flatten results, None)
      end
  end.

End Methods.

Arguments CreatePageWith {World} c UpdatePage name properties options.

(** ** Remote stores to run the client against *)

Module Servers.

(** An [httptest] server whose handler counts the calls, as the tests of the
    package write them. *)
Definition scripted (handler : nat -> apiRequest -> HttpResult)
  : nat -> apiRequest -> nat * HttpResult :=
  fun callCount req => (S callCount, handler (S callCount) req).

Definition ok (body : string) : HttpResult := Response 200 body.

Definition q (s : string) : string := String quote s ++ String quote "".

(** The text of a page object; names and identifiers are written as they
    are, without escapes. *)
Definition pageJson (uuid name : string) : string :=
  "{" ++ q "uuid" ++ ": " ++ q uuid ++ ", " ++ q "name" ++ ": " ++ q name ++ "}".

Definition blockJson (uuid content : string) : string :=
  "{" ++ q "uuid" ++ ": " ++ q uuid ++ ", " ++ q "content" ++ ": " ++ q content ++ "}".

(** A store that keeps the pages it is asked to create, under the
    identifier ["u-" ++ name], and knows no block. *)
Definition lookup (name : string) (pages : list (string * string)) : option (string * string) :=
  find (fun p => String.eqb (fst p) name || String.eqb (snd p) name) pages.

Definition store (pages : list (string * string)) (req : apiRequest)
  : list (string * string) * HttpResult :=
  match Args req with
  | Str name :: _ =>
      if String.eqb (Method req) "logseq.Editor.getPage" then
        match lookup name pages with
        | Some (n, u) => (pages, ok (pageJson u n))
        | None => (pages, ok "null")
        end
      else if String.eqb (Method req) "logseq.Editor.createPage" then
        match lookup name pages with
        | Some (n, u) => (pages, ok (pageJson u n))
        | None =>
            let uuid := "u-" ++ name in
            ((pages ++ [(name, uuid)])%list, ok (pageJson uuid name))
        end
      else (pages, ok "null")
  | _ => (pages, ok "null")
  end.

(** A store that is down. *)
Definition down (w : unit) (req : apiRequest) : unit * HttpResult :=
  (w, Failed "connection refused").

End Servers.

(** [NewClient]; the transport stands for the resty client it builds. *)
Definition NewClient {World : Type} (transport : World -> apiRequest -> World * HttpResult)
    (apiURL token : string) (logger : bool) : Client World :=
  mkClient transport logger token apiURL.

Definition start {World : Type} (w : World) : State World := mkState w [] [].

(** ** Requests and outcomes the statements speak about *)

Definition getPageRequest (name : string) : apiRequest :=
  mkRequest "logseq.Editor.getPage" [Str name].

Definition createPageRequest (name : string) : apiRequest :=
  mkRequest "logseq.Editor.createPage" [Str name; Object []].

Definition getBlockRequest (uuid : string) : apiRequest :=
  mkRequest "logseq.Editor.getBlock" [Str uuid; Bool true].

(** What [Call] returns for what the HTTP client came back with. *)
Definition outcome (resp : HttpResult) : string * option error :=
  match resp with
  | Failed msg => ("", Some (Errorf "request failed: " (Some (NetError msg))))
  | Response status body =>
      if (399 <? status)%N then
        ("", Some (Errorf ("api error: " ++ TrimSpace body
                           ++ " (status: " ++ decimal status ++ ")") None))
      else
        match unmarshalErrCheck body with
        | Some (String x e) => ("", Some (Errorf ("api error: " ++ String x e) None))
        | _ => (body, None)
        end
  end.

(** A response that [Call] hands on: not an error status and no business
    error in it. *)
Definition accepted (status : N) (body : string) : bool :=
  negb (399 <? status)%N
  && match unmarshalErrCheck body with
     | Some (String _ _) => false
     | _ => true
     end.

(** What [GetPage] returns, from what [Call] returned. *)
Definition pageResult (r : string * option error) : option Page.t * option error :=
  match r with
  | (_, Some e) => (None, Some e)
  | (resp, None) => (if isEmptyResult resp then None else unmarshalPage resp, None)
  end.

(** [c] is one of the bytes of [s]. *)
Fixpoint hasChar (c : ascii) (s : string) : bool :=
  match s with
  | EmptyString => false
  | String a s' => Ascii.eqb a c || hasChar c s'
  end.

(** What step 4 makes of the content and the property map for one link
    (the [rewriteLink] above without its log entry). *)
Definition replaceLink (link finalUUID : string) (cp : string * option Props)
  : string * option Props :=
  let target := "[[" ++ link ++ "]]" in
  let replacement := "((" ++ finalUUID ++ "))" in
  (ReplaceAll (fst cp) target replacement,
   option_map (replaceInProps target replacement) (snd cp)).

Definition rewrites (link finalUUID : string) : bool :=
  Contains link "/" && negb (String.eqb finalUUID "").

Definition rewritten (cp : string * option Props) (lu : string * string)
  : string * option Props :=
  if rewrites (fst lu) (snd lu) then replaceLink (fst lu) (snd lu) cp else cp.

(** The identifiers the materializer obtains for the links of a list, in
    the order and in the states in which [ensureLinks] obtains them. *)
Fixpoint resolveAll {World : Type} (c : Client World) (linkList : list string)
  : M World (list (string * string)) :=
  match linkList with
  | [] => ret []
  | link :: rest =>
      finalUUID <- materialize c link ;;
      (if rewrites link finalUUID
       then log c Debug "Replacing namespaced link with UUID"
              [("original", Str ("[[" ++ link ++ "]]"));
               ("replacement", Str ("((" ++ finalUUID ++ "))"))]
       else ret tt) ;;
      resolved <- resolveAll c rest ;;
      ret ((link, finalUUID) :: resolved)
  end.

(** The links [EnsureLinkedPages] works on. *)
Definition linksOf (content : string) (properties : option Props) : list string :=
  dedup (extractLinks content ++ flat_map extractLinks (stringValues properties))%list.

(** The paths the loop over the parts of a link accumulates. *)
Fixpoint levelPaths (currentPath : string) (parts : list string) : list string :=
  match parts with
  | [] => []
  | part :: rest =>
      let currentPath :=
        if String.eqb currentPath "" then part else currentPath ++ "/" ++ part in
      currentPath :: levelPaths currentPath rest
  end.

(** No value of the map is a string. *)
Definition noStrings (properties : option Props) : Prop :=
  forall k v, In (k, v) (entries properties) -> forall s, v <> Str s.

(** An entry and what a replacement makes of it: the key stays, a value
    that is not a string stays, a string stays a string. *)
Definition kept (kv kv' : string * value) : Prop :=
  fst kv' = fst kv
  /\ match snd kv with
     | Str _ => exists s', snd kv' = Str s'
     | v => snd kv' = v
     end.

(** What step 4 makes of the content alone. *)
Definition contentStep (content : string) (lu : string * string) : string :=
  if rewrites (fst lu) (snd lu)
  then ReplaceAll content ("[[" ++ fst lu ++ "]]") ("((" ++ snd lu ++ "))")
  else content.

(** How one level of a link came to be there, or not. *)
Inductive LevelOutcome : Type :=
| Found (page : Page.t)
| FoundByCreate (page : Page.t)
| Created (page : Page.t)
| NotCreated (e : error).

(** The requests that go with an outcome: the lookup of the walk, the
    lookup of [CreatePage], the create call with no properties. *)
Definition levelRequests (path : string) (o : LevelOutcome) : list apiRequest :=
  match o with
  | Found _ => [getPageRequest path]
  | FoundByCreate _ => [getPageRequest path; getPageRequest path]
  | Created _ | NotCreated _ =>
      [getPageRequest path; getPageRequest path; createPageRequest path]
  end.

Definition levelIdentifier (o : LevelOutcome) : string :=
  match o with
  | Found page | FoundByCreate page | Created page => Page.UUID page
  | NotCreated _ => ""
  end.

Definition leafIdentifier (outcomes : list LevelOutcome) : string :=
  last (map levelIdentifier outcomes) "".

Definition failureEntry (path : string) (e : error) : LogEntry :=
  mkLog Error "Failed to auto-create linked page"
    [("page", Str path); ("error", Str (errorText e))].

Definition wellFormed (o : LevelOutcome) : Prop :=
  match o with
  | Created page => Page.UUID page <> ""
  | _ => True
  end.

(** What [CreatePage] returns for an outcome. *)
Definition createResult (o : LevelOutcome) : option Page.t * option error :=
  match o with
  | NotCreated e => (None, Some e)
  | Found page | FoundByCreate page | Created page => (Some page, None)
  end.

(** The identifier the walk ends with: that of the last level, or the
    initial one when the last level failed. *)
Definition pick (initial : string) (o : LevelOutcome) : string :=
  match o with
  | NotCreated _ => initial
  | _ => levelIdentifier o
  end.

Fixpoint finalOf (initial : string) (outcomes : list LevelOutcome) : string :=
  match outcomes with
  | [] => initial
  | o :: rest =>
      match rest with
      | [] => pick initial o
      | _ => finalOf initial rest
      end
  end.

Definition levelsRequests (paths : list string) (outcomes : list LevelOutcome)
  : list apiRequest :=
  flat_map (fun po => levelRequests (fst po) (snd po)) (combine paths outcomes).

(** [strings.Join(parts, "/")]. *)
Fixpoint joinSlash (parts : list string) : string :=
  match parts with
  | [] => ""
  | p :: rest =>
      match rest with
      | [] => p
      | _ => p ++ "/" ++ joinSlash rest
      end
  end.


(** What [UpdateBlock] falls back to when the response is not a block with
    an identifier: the block of the identifier in the response, if the
    response is a non-empty string, the block of the identifier it was
    called with otherwise. *)
Definition reresolve {World : Type} (c : Client World) (uuid body : string)
  : M World (option Block.t * option error) :=
  match unmarshalString body with
  | Some (String x respUUID) => GetBlock c (String x respUUID)
  | _ => GetBlock c uuid
  end.

(** The error, if any, that [Call] makes of what the store answers to [req]
    in the state [st]. *)
Definition failure {World : Type} (c : Client World) (st : State World)
    (req : apiRequest) : option error :=
  snd (outcome (snd (client c (remote st) req))).

(** The clients the statements are tried on. *)
Module Examples.

Import Servers.

(** A client with a logger on the store that keeps its pages. *)
Definition onStore : Client (list (string * string)) :=
  NewClient store "http://localhost:12315" "auth" true.

(** The client of the package's tests: no logger, a handler by call count. *)
Definition onScript (handler : nat -> apiRequest -> HttpResult) : Client nat :=
  NewClient (scripted handler) "http://127.0.0.1" "token" false.

Definition offline : Client unit := NewClient down "http://invalid-url-12345" "token" true.

(** The body of [TestModels_UnmarshalError]: an identifier that is not an
    integer. *)
Definition notAPage : string := "{" ++ q "id" ++ ": " ++ q "not-an-int" ++ "}".

(** The lookup finds the page, the property call fails, the second lookup
    finds the page again. *)
Definition propertyFails (callCount : nat) (req : apiRequest) : HttpResult :=
  match callCount with
  | 2 => Response 500 "boom"
  | _ => ok (pageJson "u1" "P")
  end.

(** The first query engine answers an empty list, the second one fails. *)
Definition fallbackFails (callCount : nat) (req : apiRequest) : HttpResult :=
  match callCount with
  | 1 => ok "[]"
  | _ => Response 500 "boom"
  end.

(** The update call is answered with the block, with a bare identifier, or
    with [null]; a lookup of a block is answered with the block. *)
Definition answersBlock (callCount : nat) (req : apiRequest) : HttpResult :=
  ok (blockJson "b1" "updated").

Definition answersIdentifier (callCount : nat) (req : apiRequest) : HttpResult :=
  match callCount with
  | 1 => ok (q "b2")
  | _ => ok (blockJson "b2" "moved")
  end.

Definition answersNull (callCount : nat) (req : apiRequest) : HttpResult :=
  match callCount with
  | 1 => ok "null"
  | _ => ok (blockJson "b1" "updated")
  end.



End Examples.

(** ** models.go: the graph descriptor *)

Module GraphInfo.

Record t : Type := mk { Name : string; Path : string }.

Definition zero : t := mk "" "".

Definition setField (g : t) (k : string) (v : value) : option t :=
  if isField "name" k then option_map (fun s => mk s (Path g)) (stringField (Name g) v)
  else if isField "path" k then option_map (fun s => mk (Name g) s) (stringField (Path g) v)
  else Some g.

End GraphInfo.

Definition unmarshalGraph (data : string) : option GraphInfo.t :=
  match parse data with
  | Some v => decodeStruct GraphInfo.setField GraphInfo.zero v
  | None => None
  end.

(** ** utils.go: journal names *)

(** A match of [^\d{4}S\d{2}S\d{2}$] for the separator byte [S]; [\d] is an
    ASCII digit and [$] the end of the text. *)
Definition isDate (sep : ascii) (name : string) : bool :=
  match list_ascii_of_string name with
  | [y1; y2; y3; y4; s1; m1; m2; s2; d1; d2] =>
      forallb isDigit [y1; y2; y3; y4; m1; m2; d1; d2]
      && Ascii.eqb s1 sep && Ascii.eqb s2 sep
  | _ => false
  end.

Definition IsJournalName (name : string) : bool :=
  if isDate "-" name then true
  else if isDate "_" name then true
  else if isDate "/" name then true
  else false.

(** ** client.go: the remaining operations *)

(** [strings.TrimPrefix]. *)
Definition TrimPrefix (s pre : string) : string :=
  if HasPrefix s pre then Strings.drop (String.length pre) s else s.

(** What a method without a result value comes back with: its error, or a
    panic where it dereferences a nil block. *)
Inductive Completion : Type :=
| Returned (err : option error)
| Panicked.

Section Operations.

Context {World : Type}.
Variable c : Client World.

Definition GetGraph : M World (option GraphInfo.t * option error) :=
  '(resp, err) <- Call c "logseq.App.getCurrentGraph" [] ;;
  match err with
  | Some e => ret (None, Some e)
  | None =>
      match unmarshalGraph resp with
      | None => ret (None, Some (Errorf "failed to parse graph info: " (Some JsonError)))
      | Some graph => ret (Some graph, None)
      end
  end.

Definition RenamePage (uuid newName : string) : M World (option error) :=
  '(_, err) <- Call c "logseq.Editor.renamePage" [Str uuid; Str newName] ;;
  match err with
  | Some e => ret (Some (Errorf "failed to rename page: " (Some e)))
  | None => ret None
  end.

Definition DeletePage (nameOrUUID : string) : M World (option error) :=
  '(_, err) <- Call c "logseq.Editor.deletePage" [Str nameOrUUID] ;;
  ret err.

Definition UpsertProperty (uuid key : string) (v : value) : M World (option error) :=
  '(_, err) <- Call c "logseq.Editor.upsertBlockProperty" [Str uuid; Str key; v] ;;
  ret err.

Definition RemoveProperty (uuid key : string) : M World (option error) :=
  '(_, err) <- Call c "logseq.Editor.removeBlockProperty" [Str uuid; Str key] ;;
  ret err.

Definition DeleteBlock (uuid : string) : M World (option error) :=
  '(_, err) <- Call c "logseq.Editor.removeBlock" [Str uuid] ;;
  ret err.

(** The first block of an accepted, non-empty answer that decodes as a
    list of blocks. *)
Definition firstBlock (blocksRaw : string) (err : option error) : option Block.t :=
  match err with
  | Some _ => None
  | None =>
      if negb (String.eqb blocksRaw "null") && negb (String.eqb blocksRaw "[]") then
        match unmarshalBlocks blocksRaw with
        | Some (b :: _) => Some b
        | _ => None
        end
      else None
  end.

(** [getEntityBlock]: the block of the identifier, or the block of the page
    of that name, or the first block of that page. *)
Definition getEntityBlock (uuid : string) : M World (option Block.t * option error) :=
  '(block, err) <- GetBlock c uuid ;;
  match err, block with
  | Some e, _ => ret (None, Some e)
  | None, Some block => ret (Some block, None)
  | None, None =>
      '(page, err) <- GetPage c uuid ;;
      match err, page with
      | None, Some page =>
          '(block, err) <- GetBlock c (Page.UUID page) ;;
          match err, block with
          | Some e, _ => ret (None, Some e)
          | None, Some block => ret (Some block, None)
          | None, None =>
              '(blocksRaw, err) <-
                Call c "logseq.Editor.getPageBlocksTree" [Str (Page.UUID page)] ;;
              match firstBlock blocksRaw err with
              | Some b => ret (Some b, None)
              | None =>
                  ret (None,
                       Some (Errorf ("failed to find content block for page: " ++ uuid) None))
              end
          end
      | _, _ => ret (None, Some (Errorf ("entity not found: " ++ uuid) None))
      end
  end.

(** [AddTag]; [err.Error()] is [errorText e].  (The text of a decoding
    error of the library never holds the words the method looks for, and
    neither does the fixed text [errorText] writes for it.) *)
Definition AddTag (uuid tag : string) : M World Completion :=
  '(block, err) <- getEntityBlock uuid ;;
  '(block, err) <-
    match err with
    | Some e =>
        if Contains (errorText e) "failed to find content block"
        then AppendBlockInPage c uuid "" None
        else ret (block, Some e)
    | None => ret (block, None)
    end ;;
  match err, block with
  | Some e, _ => ret (Returned (Some e))
  | None, None => ret Panicked
  | None, Some block =>
      let cleanTag := TrimPrefix tag "#" in
      let tagStr := "#" ++ cleanTag in
      if Contains (Block.Content block) tagStr then ret (Returned None)
      else
        let newContent := TrimSpace (Block.Content block) ++ " " ++ tagStr in
        '(_, err) <- UpdateBlock c (Block.UUID block) newContent None ;;
        ret (Returned err)
  end.

Definition RemoveTag (uuid tag : string) : M World Completion :=
  '(block, err) <- getEntityBlock uuid ;;
  match err, block with
  | Some e, _ => ret (Returned (Some e))
  | None, None => ret Panicked
  | None, Some block =>
      let cleanTag := TrimPrefix tag "#" in
      let tagStr := "#" ++ cleanTag in
      if negb (Contains (Block.Content block) tagStr) then ret (Returned None)
      else
        let newContent := ReplaceAll (Block.Content block) tagStr "" in
        let newContent := ReplaceAll newContent "  " " " in
        let newContent := TrimSpace newContent in
        '(_, err) <- UpdateBlock c (Block.UUID block) newContent None ;;
        ret (Returned err)
  end.

(** The name a row of the namespace query stands for: a string, or the
    first element of a list when that is a string. *)
Definition rowName (res : value) : string :=
  match res with
  | Str s => s
  | Array (Str s :: _) => s
  | _ => ""
  end.

(** [namespaces[name] = true] for the name of a row, when it has one. *)
Definition putName (namespaces : list string) (res : value) : list string :=
  let name := rowName res in
  if negb (String.eqb name "") && negb (member name namespaces)
  then (namespaces ++ [name])%list else namespaces.

Definition namespacesQuery : string :=
  "[:find ?parentName :where [?p :block/name] [?p :block/parent ?parent] [?parent :block/name ?parentName]]".

(** [ListNamespaces]: the keys of the set [namespaces], here in the order
    in which they were first put in (Go leaves the order of the result
    open). *)
Definition ListNamespaces : M World (list string * option error) :=
  log c Debug "ListNamespaces Query" [("query", Str namespacesQuery)] ;;
  '(results, err) <- Query c namespacesQuery ;;
  let namespaces :=
    match err, results with
    | None, Array list => fold_left putName list []
    | _, _ => []
    end in
  ret (namespaces, None).

End Operations.

(** ** What the statements about the further operations speak about *)

(** The loop of the extractors, from the names found so far. *)
Definition collect (links : list string) (m : string) : list string :=
  let name := TrimSpace m in
  if negb (String.eqb name "") && negb (member name links)
  then (links ++ [name])%list else links.

Definition allDigits (s : string) : bool := forallb isDigit (list_ascii_of_string s).

(** A request of the namespace materializer for [link]: the lookup of one
    of its levels, or its creation with no properties. *)
Definition levelRequestOf (link : string) (req : apiRequest) : Prop :=
  exists p, In p (levelPaths "" (Split link "/"))
            /\ (req = getPageRequest p \/ req = createPageRequest p).

(** The request [UpdatePage] sends for one property. *)
Definition upsertRequest (uuid : string) (kv : string * value) : apiRequest :=
  mkRequest "logseq.Editor.upsertBlockProperty" [Str uuid; Str (fst kv); snd kv].

(** A tree of blocks without its texts: the contents and the string values
    of the properties are blanked, the keys, the other values and the
    children stay. *)
Definition bare (kv : string * value) : string * value :=
  (fst kv, match snd kv with Str _ => Str "" | v => v end).

Fixpoint skeleton (x : BlockContent) : BlockContent :=
  match x with
  | mkBlockContent _ properties children =>
      mkBlockContent "" (option_map (map bare) properties) (map skeleton children)
  end.

(** The requests that only read the store. *)
Definition isLookup (req : apiRequest) : bool :=
  String.eqb (Method req) "logseq.Editor.getBlock"
  || String.eqb (Method req) "logseq.Editor.getPage"
  || String.eqb (Method req) "logseq.Editor.getPageBlocksTree".

(** [m[k]], with whether the key is there. *)
Fixpoint mapGet (k : string) (m : Props) : option value :=
  match m with
  | [] => None
  | (k', v) :: m' => if String.eqb k k' then Some v else mapGet k m'
  end.

(** The tag as [AddTag] and [RemoveTag] look for it, the content [AddTag]
    submits for a block that does not hold it, and the content
    [RemoveTag] submits for a block that holds it. *)
Definition tagText (tag : string) : string := "#" ++ TrimPrefix tag "#".




(** The store has a page of the name: a lookup of it finds one. *)
Definition found {World : Type} (c : Client World) (w : World) (name : string) : Prop :=
  exists page,
    pageResult (outcome (snd (client c w (getPageRequest name)))) = (Some page, None).

(** Lookups do not make the store lose a page. *)
Definition lookupsKeep {World : Type} (c : Client World) : Prop :=
  forall w name p, found c w p -> found c (fst (client c w (getPageRequest name))) p.

(** A store that remembers: neither a lookup nor a creation makes it lose
    a page, and a page it answers a creation with, with an identifier, is
    found from then on. *)
Definition remembers {World : Type} (c : Client World) : Prop :=
  lookupsKeep c
  /\ (forall w name p, found c w p -> found c (fst (client c w (createPageRequest name))) p)
  /\ (forall w name status body page,
        snd (client c w (createPageRequest name)) = Response status body ->
        accepted status body = true ->
        unmarshalPage body = Some page ->
        Page.UUID page <> "" ->
        found c (fst (client c w (createPageRequest name))) name).

(** A level that the walk left behind: it failed to create it, or the
    store [w] has it. *)
Definition settled {World : Type} (c : Client World) (w : World)
    (path : string) (o : LevelOutcome) : Prop :=
  (exists e, o = NotCreated e) \/ found c w path.

(** Further stores to try the statements on. *)
Module Cases.

Import Servers.

(** Every lookup of a block is answered with the block [b1], which holds
    the tag [#important]. *)
Definition taggedBlock (callCount : nat) (req : apiRequest) : HttpResult :=
  ok (blockJson "b1" "note #important").

(** The first engine answers an empty list, the second one a row. *)
Definition secondEngineAnswers (callCount : nat) (req : apiRequest) : HttpResult :=
  match callCount with
  | 1 => ok "[]"
  | _ => ok "[[1]]"
  end.

(** The insert call is answered with the block, the update call fails. *)
Definition insertThenFail (callCount : nat) (req : apiRequest) : HttpResult :=
  match callCount with
  | 1 => ok (blockJson "b1" "text")
  | _ => Response 500 "boom"
  end.

(** No block and no page of the name. *)
Definition knowsNothing (callCount : nat) (req : apiRequest) : HttpResult := ok "null".

(** The rows of a namespace query: names, a list that starts with a name,
    an empty name and a name twice. *)
Definition namespaceRows (callCount : nat) (req : apiRequest) : HttpResult :=
  ok ("[" ++ q "projects" ++ ", [" ++ q "areas" ++ "], " ++ q "" ++ ", "
      ++ q "projects" ++ ", 7]").

(** A page object with a field that is not a known one, and explicit
    properties that name it again. *)
Definition pageMembers : list (string * value) :=
  [("uuid", Str "u1"); ("name", Str "P"); ("status", Str "open"); ("file", Number "3");
   ("properties", Object [("status", Str "done")])].

(** A store that keeps the names of the pages it was asked to create and
    answers every page with the same identifier. *)
Definition keepsNames (names : list string) (req : apiRequest)
  : list string * HttpResult :=
  match Args req with
  | Str name :: _ =>
      if String.eqb (Method req) "logseq.Editor.getPage" then
        (names, if member name names then ok (pageJson "u" "p") else ok "null")
      else if String.eqb (Method req) "logseq.Editor.createPage" then
        ((names ++ [name])%list, ok (pageJson "u" "p"))
      else (names, ok "null")
  | _ => (names, ok "null")
  end.

Definition onNames : Client (list string) :=
  NewClient keepsNames "http://localhost:12315" "auth" false.

End Cases.

(** ** What the store answers along the levels of a link *)

(** What [CreatePage] with no properties comes to on the store [w]: the
    page its lookup finds, or the page the create call answers with, or the
    error; and the store afterwards. *)
Definition createOutcome {World : Type} (c : Client World) (w : World) (path : string)
  : LevelOutcome * World :=
  let w1 := fst (client c w (getPageRequest path)) in
  match pageResult (outcome (snd (client c w (getPageRequest path)))) with
  | (Some page, None) => (FoundByCreate page, w1)
  | _ =>
      let w2 := fst (client c w1 (createPageRequest path)) in
      match outcome (snd (client c w1 (createPageRequest path))) with
      | (_, Some e) => (NotCreated e, w2)
      | (resp, None) =>
          match unmarshalPage resp with
          | Some page =>
              if String.eqb (Page.UUID page) ""
              then (NotCreated (Errorf ("failed to create page '" ++ path ++ "'") None), w2)
              else (Created page, w2)
          | None => (NotCreated (Errorf ("failed to create page '" ++ path ++ "'") None), w2)
          end
      end
  end.

(** The outcome of one level on the store [w], from what the store answers:
    the page the lookup of the walk finds, or what [CreatePage] comes to. *)
Definition levelOutcome {World : Type} (c : Client World) (w : World) (path : string)
  : LevelOutcome * World :=
  match pageResult (outcome (snd (client c w (getPageRequest path)))) with
  | (Some page, None) => (Found page, fst (client c w (getPageRequest path)))
  | _ => createOutcome c (fst (client c w (getPageRequest path))) path
  end.

(** The outcomes of the levels in order, each on the store the levels
    before it left, and the store after the last. *)
Fixpoint levelOutcomes {World : Type} (c : Client World) (w : World) (paths : list string)
  : list LevelOutcome * World :=
  match paths with
  | [] => ([], w)
  | path :: rest =>
      let o := levelOutcome c w path in
      let os := levelOutcomes c (snd o) rest in
      (fst o :: fst os, snd os)
  end.

(** The store after a list of requests. *)
Definition storeAfter {World : Type} (c : Client World) (w : World) (reqs : list apiRequest)
  : World :=
  fold_left (fun w req => fst (client c w req)) reqs w.



(** A text in which every bracket pair around a name without a closing
    bracket holds a name without an opening bracket. *)
Definition tidy (s : string) : Prop :=
  forall x, hasChar "]" x = false ->
    Contains s ("[[" ++ x ++ "]]") = true -> hasChar "[" x = false.

(** A text that does not end inside an open bracket pair. *)
Definition closed (pre : string) : Prop :=
  forall z y, hasChar "]" y = false -> pre <> z ++ "[[" ++ y.

(** The text holds the reference [((uuid))] at a place that no bracket
    pair opened before it reaches. *)
Definition holds (uuid s : string) : Prop :=
  exists pre post, s = pre ++ ("((" ++ uuid ++ "))") ++ post /\ closed pre.

(** A store that knows no page, refuses to create a page whose name holds
    an opening bracket, and creates any other under the identifier
    ["u-" ++ name]. *)
Definition refusesBrackets (callCount : nat) (req : apiRequest) : HttpResult :=
  match Args req with
  | Str name :: _ =>
      if String.eqb (Method req) "logseq.Editor.createPage" then
        if hasChar "[" name then Response 500 "no such name"
        else Servers.ok (Servers.pageJson ("u-" ++ name) name)
      else Servers.ok "null"
  | _ => Servers.ok "null"
  end.

(** A store that answers every request with a page whose identifier is the
    text of a link. *)
Definition answersBracketed (callCount : nat) (req : apiRequest) : HttpResult :=
  Servers.ok (Servers.pageJson "[[A/B]]" "p").

(** * Properties *)

Section Transport.

Context {World : Type}.
Variable c : Client World.

Lemma log_eq l msg fs (st : State World) :
  log c l msg fs st
  = (tt, mkState (remote st) (sent st)
           (logs st ++ if logger c then [mkLog l msg fs] else [])).
Proof.
  unfold log. destruct (logger c); [reflexivity |].
  rewrite app_nil_r. destruct st; reflexivity.
Qed.

Lemma Call_result method args (st : State World) :
  fst (Call c method args st)
  = outcome (snd (client c (remote st) (mkRequest method args))).
Proof.
  unfold Call, bind, Post. rewrite log_eq. cbn [remote sent logs].
  destruct (client c (remote st) (mkRequest method args)) as [w [msg | status body]];
    cbn [snd outcome].
  - rewrite log_eq. reflexivity.
  - destruct (399 <? status)%N.
    + rewrite log_eq. reflexivity.
    + destruct (unmarshalErrCheck body) as [[| x e] |]; try reflexivity.
      rewrite log_eq. reflexivity.
Qed.

Lemma Call_sent method args (st : State World) :
  sent (snd (Call c method args st)) = (sent st ++ [mkRequest method args])%list.
Proof.
  unfold Call, bind, Post. rewrite log_eq. cbn [remote sent logs].
  destruct (client c (remote st) (mkRequest method args)) as [w [msg | status body]].
  - rewrite log_eq. reflexivity.
  - destruct (399 <? status)%N.
    + rewrite log_eq. reflexivity.
    + destruct (unmarshalErrCheck body) as [[| x e] |]; try reflexivity.
      rewrite log_eq. reflexivity.
Qed.

Lemma Call_remote method args (st : State World) :
  remote (snd (Call c method args st))
  = fst (client c (remote st) (mkRequest method args)).
Proof.
  unfold Call, bind, Post. rewrite log_eq. cbn [remote sent logs].
  destruct (client c (remote st) (mkRequest method args)) as [w [msg | status body]].
  - rewrite log_eq. reflexivity.
  - destruct (399 <? status)%N.
    + rewrite log_eq. reflexivity.
    + destruct (unmarshalErrCheck body) as [[| x e] |]; try reflexivity.
      rewrite log_eq. reflexivity.
Qed.

Lemma GetPage_result name (st : State World) :
  fst (GetPage c name st)
  = pageResult (outcome (snd (client c (remote st) (getPageRequest name)))).
Proof.
  unfold GetPage, bind.
  pose proof (Call_result "logseq.Editor.getPage" [Str name] st) as R.
  destruct (Call c "logseq.Editor.getPage" [Str name] st) as [[resp err] st1].
  cbn [fst] in R. unfold getPageRequest. rewrite <- R.
  destruct err as [e |]; cbn; try reflexivity.
  destruct (isEmptyResult resp); cbn; try reflexivity.
  destruct (unmarshalPage resp); reflexivity.
Qed.

Lemma GetPage_state name (st : State World) :
  snd (GetPage c name st) = snd (Call c "logseq.Editor.getPage" [Str name] st).
Proof.
  unfold GetPage, bind.
  destruct (Call c "logseq.Editor.getPage" [Str name] st) as [[resp err] st1].
  destruct err as [e |]; cbn; try reflexivity.
  destruct (isEmptyResult resp); cbn; try reflexivity.
  destruct (unmarshalPage resp); reflexivity.
Qed.

Lemma GetPage_sent name (st : State World) :
  sent (snd (GetPage c name st)) = (sent st ++ [getPageRequest name])%list.
Proof. rewrite GetPage_state. apply Call_sent. Qed.

Lemma GetPage_remote name (st : State World) :
  remote (snd (GetPage c name st))
  = fst (client c (remote st) (getPageRequest name)).
Proof. rewrite GetPage_state. apply Call_remote. Qed.

End Transport.

Section StringFacts.

Lemma prefix_nil_r x : String.prefix x "" = true -> x = "".
Proof. destruct x; [reflexivity | discriminate]. Qed.

Lemma prefix_cons a x b s :
  String.prefix (String a x) (String b s) = true <-> a = b /\ String.prefix x s = true.
Proof.
  cbn [String.prefix]. destruct (ascii_dec a b) as [E | N]; split; intros H.
  - auto.
  - apply H.
  - discriminate.
  - destruct H; contradiction.
Qed.

Lemma prefix_cons_eq a x b s :
  String.prefix (String a x) (String b s) = Ascii.eqb a b && String.prefix x s.
Proof.
  cbn [String.prefix]. destruct (ascii_dec a b) as [-> | N].
  - rewrite Ascii.eqb_refl. reflexivity.
  - apply Ascii.eqb_neq in N. rewrite N. reflexivity.
Qed.

Lemma prefix_nil_l s : String.prefix "" s = true.
Proof. destruct s; reflexivity. Qed.

Lemma prefix_app x r : String.prefix x (x ++ r) = true.
Proof.
  induction x as [| a x IH]; [apply prefix_nil_l |].
  cbn [append]. rewrite prefix_cons_eq, Ascii.eqb_refl. exact IH.
Qed.

Lemma prefix_split x s : String.prefix x s = true -> s = x ++ drop (String.length x) s.
Proof.
  revert s. induction x as [| a x IH]; intros s H; [reflexivity |].
  destruct s as [| b s]; [discriminate |].
  apply prefix_cons in H. destruct H as [-> H]. cbn. f_equal. apply IH, H.
Qed.

Lemma drop_app x r : drop (String.length x) (x ++ r) = r.
Proof. induction x; [destruct r; reflexivity | exact IHx]. Qed.

Lemma drop_length_le k s : String.length (drop k s) <= String.length s.
Proof.
  revert s. induction k as [| k IH]; intros s; [reflexivity |].
  destruct s as [| a s]; [reflexivity |]. cbn. specialize (IH s). lia.
Qed.

Lemma append_assoc (x y z : string) : (x ++ y) ++ z = x ++ (y ++ z).
Proof. induction x; cbn; [reflexivity | f_equal; assumption]. Qed.

Lemma Contains_prefix s x : String.prefix x s = true -> Contains s x = true.
Proof. intros H. destruct s; cbn [Contains]; rewrite H; reflexivity. Qed.

Lemma Contains_cons a s x : Contains s x = true -> Contains (String a s) x = true.
Proof. intros H. cbn [Contains]. rewrite H. apply orb_true_r. Qed.

Lemma Contains_cons_inv a s x :
  Contains (String a s) x = true ->
  String.prefix x (String a s) = true \/ Contains s x = true.
Proof. cbn [Contains]. intros H. apply orb_true_iff in H. exact H. Qed.

Lemma Contains_app_l p y x : Contains y x = true -> Contains (p ++ y) x = true.
Proof. induction p; cbn [append]; intros H; [exact H | apply Contains_cons; auto]. Qed.

Lemma Contains_drop k s x : Contains (drop k s) x = true -> Contains s x = true.
Proof.
  revert s. induction k as [| k IH]; intros s H; [exact H |].
  destruct s as [| a s]; [exact H |]. apply Contains_cons, IH, H.
Qed.

(** An occurrence of [x] cannot start inside a piece that lacks the first
    byte of [x]. *)
Lemma Contains_skip p y x0 x' x :
  x = String x0 x' -> hasChar x0 p = false ->
  Contains (p ++ y) x = true -> Contains y x = true.
Proof.
  intros ->. induction p as [| a p IH]; cbn [append hasChar]; intros Hp H; [exact H |].
  apply orb_false_iff in Hp. destruct Hp as [Ha Hp].
  apply Contains_cons_inv in H. destruct H as [H | H].
  - apply prefix_cons in H. destruct H as [<- _].
    rewrite Ascii.eqb_refl in Ha. discriminate.
  - apply IH; assumption.
Qed.

Lemma hasChar_app c x y : hasChar c (x ++ y) = hasChar c x || hasChar c y.
Proof. induction x; cbn; [reflexivity | rewrite IHx; apply orb_assoc]. Qed.

Variables old new : string.
Hypothesis old_nonempty : old <> "".

#[local] Abbreviation R := (replaceFrom old new 0).

Lemma replaceFrom_skip k s : replaceFrom old new k s = R (drop k s).
Proof.
  revert k. induction s as [| a s IH]; intros k.
  - destruct k; reflexivity.
  - destruct k as [| k]; [reflexivity |]. cbn [replaceFrom drop]. apply IH.
Qed.

Lemma ReplaceAll_eq s : ReplaceAll s old new = R s.
Proof. unfold ReplaceAll. destruct old; [contradiction | reflexivity]. Qed.

Lemma replace_match s :
  String.prefix old s = true -> R s = new ++ R (drop (String.length old) s).
Proof.
  intros H. destruct s as [| a s].
  - apply prefix_nil_r in H. contradiction.
  - cbn [replaceFrom]. rewrite H, replaceFrom_skip. do 2 f_equal.
    destruct old as [| o old']; [contradiction |]. cbn. rewrite Nat.sub_0_r. reflexivity.
Qed.

Lemma replace_app r : R (old ++ r) = new ++ R r.
Proof. rewrite replace_match by apply prefix_app. rewrite drop_app. reflexivity. Qed.

Lemma replace_nomatch a s :
  String.prefix old (String a s) = false -> R (String a s) = String a (R s).
Proof. intros H. cbn [replaceFrom]. rewrite H. reflexivity. Qed.

(** A piece without the first byte of [old] is copied. *)
Lemma replace_copy o old' p y :
  old = String o old' -> hasChar o p = false -> R (p ++ y) = p ++ R y.
Proof.
  intros E. induction p as [| a p IH]; cbn [append hasChar]; intros Hp; [reflexivity |].
  apply orb_false_iff in Hp. destruct Hp as [Ha Hp].
  rewrite replace_nomatch.
  - f_equal. apply IH, Hp.
  - rewrite E, prefix_cons_eq, Ascii.eqb_sym, Ha. reflexivity.
Qed.

Lemma string_len_ind (P : string -> Prop) :
  (forall s, (forall s', String.length s' < String.length s -> P s') -> P s) ->
  forall s, P s.
Proof.
  intros H s. remember (String.length s) as n eqn:E.
  revert s E. induction n as [n IH] using lt_wf_ind. intros s ->.
  apply H. intros s' L. exact (IH _ L s' eq_refl).
Qed.

Lemma drop_old_shorter a s :
  String.length (drop (String.length old) (String a s)) < String.length (String a s).
Proof.
  destruct old as [| o old']; [contradiction |]. cbn.
  pose proof (drop_length_le (String.length old') s). lia.
Qed.

(** A prefix of the result that lacks the first byte of [new] is a prefix
    of the text. *)
Lemma replace_prefix_inv n0 new' x s :
  new = String n0 new' -> hasChar n0 x = false ->
  String.prefix x (R s) = true -> String.prefix x s = true.
Proof.
  intros E. revert x. induction s as [| a s IH]; intros x Hx H; [exact H |].
  destruct x as [| b x]; [reflexivity |].
  cbn [hasChar] in Hx. apply orb_false_iff in Hx. destruct Hx as [Hb Hx].
  destruct (String.prefix old (String a s)) eqn:Em.
  - rewrite replace_match, E in H by exact Em. cbn [append] in H.
    apply prefix_cons in H. destruct H as [-> _].
    rewrite Ascii.eqb_refl in Hb. discriminate.
  - rewrite replace_nomatch in H by exact Em.
    apply prefix_cons in H. destruct H as [-> H].
    apply prefix_cons. split; [reflexivity |]. apply IH; assumption.
Qed.

(** No occurrence of [x] is made by the replacement, when [x] does not
    start with a byte of [new] and does not hold the first byte of [new]. *)
Lemma replace_no_new_occurrence n0 new' x0 x s :
  new = String n0 new' -> hasChar n0 (String x0 x) = false -> hasChar x0 new = false ->
  Contains (R s) (String x0 x) = true -> Contains s (String x0 x) = true.
Proof.
  intros E Hx Hn. induction s as [s IH] using string_len_ind. intros H.
  destruct s as [| a s]; [exact H |].
  destruct (String.prefix old (String a s)) eqn:Em.
  - rewrite replace_match in H by exact Em.
    eapply Contains_skip in H; [| reflexivity | exact Hn].
    apply IH in H; [| apply drop_old_shorter].
    eapply Contains_drop, H.
  - rewrite replace_nomatch in H by exact Em.
    apply Contains_cons_inv in H. destruct H as [H | H].
    + rewrite <- replace_nomatch in H by exact Em.
      apply Contains_prefix. eapply replace_prefix_inv; eassumption.
    + apply Contains_cons, IH; [cbn; lia | exact H].
Qed.

(** After the replacement [old] is gone, when [new] lacks the first byte of
    [old] and [old] lacks the first byte of [new]. *)
Lemma replace_removes o old' n0 new' s :
  old = String o old' -> new = String n0 new' ->
  hasChar o new = false -> hasChar n0 old = false ->
  Contains (R s) old = false.
Proof.
  intros Eo En Ho Hn. induction s as [s IH] using string_len_ind.
  destruct s as [| a s].
  - rewrite Eo. reflexivity.
  - destruct (Contains (R (String a s)) old) eqn:H; [exfalso | reflexivity].
    destruct (String.prefix old (String a s)) eqn:Em.
    + rewrite replace_match in H by exact Em.
      eapply Contains_skip in H; [| exact Eo | exact Ho].
      rewrite IH in H; [discriminate | apply drop_old_shorter].
    + rewrite replace_nomatch in H by exact Em.
      apply Contains_cons_inv in H. destruct H as [H | H].
      * rewrite <- replace_nomatch in H by exact Em.
        eapply replace_prefix_inv in H; [| exact En | exact Hn]. congruence.
      * rewrite IH in H; [discriminate | cbn; lia].
Qed.

(** Where [old] occurred, [new] occurs afterwards. *)
Lemma replace_puts_new s : Contains s old = true -> Contains (R s) new = true.
Proof.
  induction s as [| a s IH]; intros H.
  - cbn in H. rewrite orb_false_r in H. apply prefix_nil_r in H. contradiction.
  - destruct (String.prefix old (String a s)) eqn:Em.
    + rewrite replace_match by exact Em. apply Contains_prefix, prefix_app.
    + rewrite replace_nomatch by exact Em.
      apply Contains_cons_inv in H. destruct H as [H | H]; [congruence |].
      apply Contains_cons, IH, H.
Qed.

(** A prefix that lacks the first byte of [old] stays a prefix. *)
Lemma replace_prefix_kept o old' x s :
  old = String o old' -> hasChar o x = false ->
  String.prefix x s = true -> String.prefix x (R s) = true.
Proof.
  intros E Hx H. apply prefix_split in H. rewrite H.
  rewrite (replace_copy o old') by assumption. apply prefix_app.
Qed.

(** An occurrence of [x] stays, when [x] lacks the first byte of [old] and
    [old] lacks the first byte of [x]. *)
Lemma replace_keeps_occurrence o old' x0 x s :
  old = String o old' -> hasChar o (String x0 x) = false -> hasChar x0 old = false ->
  Contains s (String x0 x) = true -> Contains (R s) (String x0 x) = true.
Proof.
  intros E Hx Ho. induction s as [s IH] using string_len_ind. intros H.
  destruct s as [| a s]; [exact H |].
  destruct (String.prefix old (String a s)) eqn:Em.
  - rewrite replace_match by exact Em. apply Contains_app_l, IH; [apply drop_old_shorter |].
    rewrite (prefix_split _ _ Em) in H. eapply Contains_skip in H; [exact H | reflexivity | exact Ho].
  - apply Contains_cons_inv in H. destruct H as [H | H].
    + apply Contains_prefix. eapply replace_prefix_kept; eassumption.
    + rewrite replace_nomatch by exact Em. apply Contains_cons, IH; [cbn; lia | exact H].
Qed.

Lemma bracket_prefix_eq C L a b :
  hasChar "]" C = false -> hasChar "]" L = false ->
  String.prefix (C ++ String "]" a) (L ++ String "]" b) = true -> C = L.
Proof.
  revert L. induction C as [| c0 C IH]; intros L HC HL H.
  - destruct L as [| l0 L]; [reflexivity |]. cbn [append] in H.
    apply prefix_cons in H. destruct H as [<- _]. discriminate.
  - cbn [hasChar] in HC. apply orb_false_iff in HC. destruct HC as [Hc HC].
    destruct L as [| l0 L]; cbn [append] in H; apply prefix_cons in H; destruct H as [E H].
    + subst c0. discriminate.
    + cbn [hasChar] in HL. apply orb_false_iff in HL. destruct HL as [_ HL].
      subst l0. f_equal. apply IH; assumption.
Qed.

Lemma not_bracket_head C z : hasChar "[" C = false -> String.prefix "[" (C ++ String "]" z) = false.
Proof.
  destruct C as [| c0 C]; cbn [append hasChar]; intros H; rewrite prefix_cons_eq.
  - reflexivity.
  - apply orb_false_iff in H. destruct H as [H _].
    rewrite Ascii.eqb_sym, H. reflexivity.
Qed.

Lemma bracket_head_cons y : String.prefix "[" (String "[" y) = true.
Proof. rewrite prefix_cons_eq, prefix_nil_l. reflexivity. Qed.

Lemma bracket_head_prefix x y :
  String.prefix (String "[" x) y = true -> String.prefix "[" y = true.
Proof.
  destruct y as [| z Z]; [discriminate |]. rewrite !prefix_cons_eq, prefix_nil_l.
  intros H. apply andb_true_iff in H. destruct H as [-> _]. reflexivity.
Qed.

(** An occurrence of the link [[[C]]] stays when the other link [[[L]]] is
    replaced, both names being free of brackets. *)
Lemma replace_keeps_link C L s :
  old = "[[" ++ L ++ "]]" -> C <> L ->
  hasChar "[" C = false -> hasChar "]" C = false ->
  hasChar "[" L = false -> hasChar "]" L = false ->
  Contains s ("[[" ++ C ++ "]]") = true -> Contains (R s) ("[[" ++ C ++ "]]") = true.
Proof.
  intros E NE HC1 HC2 HL1 HL2. induction s as [s IH] using string_len_ind. intros H.
  destruct s as [| a s]; [exact H |].
  destruct (String.prefix old (String a s)) eqn:Em.
  - rewrite replace_match by exact Em. apply Contains_app_l, IH; [apply drop_old_shorter |].
    rewrite (prefix_split _ _ Em) in H. revert H.
    generalize (drop (String.length old) (String a s)). intros rest H.
    rewrite E in H. cbn [append] in H. rewrite append_assoc in H. cbn [append] in H.
    apply Contains_cons_inv in H. destruct H as [H | H].
    { apply prefix_cons in H. destruct H as [_ H].
      apply prefix_cons in H. destruct H as [_ H].
      apply bracket_prefix_eq in H; [contradiction | assumption | assumption]. }
    apply Contains_cons_inv in H. destruct H as [H | H].
    { apply prefix_cons in H. destruct H as [_ H].
      apply bracket_head_prefix in H.
      rewrite (not_bracket_head L (String "]" rest) HL1) in H. discriminate. }
    eapply Contains_skip in H; [| reflexivity | exact HL1].
    eapply Contains_skip with (p := "]]") in H; [exact H | reflexivity | reflexivity].
  - apply Contains_cons_inv in H. destruct H as [H | H].
    + apply Contains_prefix. apply prefix_split in H.
      remember (drop (String.length ("[[" ++ C ++ "]]")) (String a s)) as rest eqn:Er.
      clear Er IH.
      assert (Hs : String a s = String "[" (String "[" ((C ++ "]]") ++ rest))) by exact H.
      rewrite Hs in Em |- *. clear H Hs.
      rewrite (replace_nomatch _ _ Em).
      assert (N2 : String.prefix old (String "[" ((C ++ "]]") ++ rest)) = false).
      { destruct (String.prefix old (String "[" ((C ++ "]]") ++ rest))) eqn:P; [| reflexivity].
        rewrite E in P. cbn [append] in P.
        apply prefix_cons in P. destruct P as [_ P].
        apply bracket_head_prefix in P. rewrite append_assoc in P. cbn [append] in P.
        rewrite (not_bracket_head C (String "]" rest) HC1) in P. discriminate. }
      rewrite (replace_nomatch _ _ N2).
      rewrite (replace_copy "[" (String "[" (L ++ "]]")) (C ++ "]]") rest E)
        by (rewrite hasChar_app, HC1; reflexivity).
      change (String "[" (String "[" ((C ++ "]]") ++ R rest)))
        with (("[[" ++ C ++ "]]") ++ R rest).
      apply prefix_app.
    + rewrite replace_nomatch by exact Em. apply Contains_cons, IH; [cbn; lia | exact H].
Qed.

End StringFacts.

Section Synchronize.

Context {World : Type}.
Variable c : Client World.

Lemma rewriteLink_eq link finalUUID content properties (st : State World) :
  rewriteLink c link finalUUID content properties st
  = (rewritten (content, properties) (link, finalUUID),
     snd ((if rewrites link finalUUID
           then log c Debug "Replacing namespaced link with UUID"
                  [("original", Str ("[[" ++ link ++ "]]"));
                   ("replacement", Str ("((" ++ finalUUID ++ "))"))]
           else ret tt) st)).
Proof.
  unfold rewriteLink, rewritten, rewrites, replaceLink. cbn [fst snd].
  destruct (Contains link "/" && negb (finalUUID =? ""))%string; [| reflexivity].
  unfold bind. rewrite log_eq. reflexivity.
Qed.

Lemma ensureLinks_eq linkList content properties (st : State World) :
  ensureLinks c linkList content properties st
  = (fold_left rewritten (fst (resolveAll c linkList st)) (content, properties),
     snd (resolveAll c linkList st)).
Proof.
  revert content properties st.
  induction linkList as [| link rest IH]; intros content properties st; [reflexivity |].
  cbn [ensureLinks resolveAll]. unfold bind.
  destruct (materialize c link st) as [finalUUID st1].
  rewrite rewriteLink_eq.
  destruct (rewritten (content, properties) (link, finalUUID)) as [content' properties'] eqn:E.
  destruct (rewrites link finalUUID).
  - rewrite log_eq. cbn [snd]. rewrite IH.
    destruct (resolveAll c rest _) as [resolved st3]. cbn [fst snd fold_left ret].
    rewrite E. reflexivity.
  - cbn [snd ret]. rewrite IH.
    destruct (resolveAll c rest _) as [resolved st3]. cbn [fst snd fold_left ret].
    rewrite E. reflexivity.
Qed.

Lemma EnsureLinkedPages_eq content properties (st : State World) :
  EnsureLinkedPages c content properties st
  = let run := resolveAll c (linksOf content properties) st in
    let cp := fold_left rewritten (fst run) (content, properties) in
    (cp, snd (verifyRefs c
                (extractBlockRefs (fst cp)
                 ++ flat_map extractBlockRefs (stringValues (snd cp)))%list
                (snd run))).
Proof.
  unfold EnsureLinkedPages, bind. fold (linksOf content properties).
  rewrite ensureLinks_eq. cbn zeta.
  destruct (fold_left rewritten _ _) as [content' properties']. cbn [fst snd].
  destruct (verifyRefs c _ _). reflexivity.
Qed.

Lemma EnsureLinkedPages_result content properties (st : State World) :
  fst (EnsureLinkedPages c content properties st)
  = fold_left rewritten (fst (resolveAll c (linksOf content properties) st))
      (content, properties).
Proof.
  unfold EnsureLinkedPages, bind. fold (linksOf content properties).
  rewrite ensureLinks_eq.
  destruct (fold_left rewritten _ _) as [content' properties'].
  destruct (verifyRefs c _ _). reflexivity.
Qed.

Lemma resolveAll_links linkList (st : State World) :
  map fst (fst (resolveAll c linkList st)) = linkList.
Proof.
  revert st. induction linkList as [| link rest IH]; intros st; [reflexivity |].
  cbn [resolveAll]. unfold bind.
  destruct (materialize c link st) as [finalUUID st1].
  destruct (rewrites link finalUUID).
  - rewrite log_eq. match goal with |- context [resolveAll c rest ?s] =>
      specialize (IH s); destruct (resolveAll c rest s) as [resolved st3] end.
    cbn in *. rewrite IH. reflexivity.
  - cbn [ret]. specialize (IH st1). destruct (resolveAll c rest st1) as [resolved st3].
    cbn in *. rewrite IH. reflexivity.
Qed.

(** *** Property values that are not strings *)

Lemma kept_refl kv : kept kv kv.
Proof. split; [reflexivity |]. destruct (snd kv); eauto. Qed.

Lemma kept_trans a b d : kept a b -> kept b d -> kept a d.
Proof.
  intros [K1 V1] [K2 V2]. split; [congruence |].
  destruct (snd a); try (rewrite V1 in V2; exact V2).
  destruct V1 as [s' V1]. rewrite V1 in V2. exact V2.
Qed.

Lemma Forall2_kept_refl m : Forall2 kept m m.
Proof. induction m; constructor; auto using kept_refl. Qed.

Lemma Forall2_kept_trans m1 m2 m3 :
  Forall2 kept m1 m2 -> Forall2 kept m2 m3 -> Forall2 kept m1 m3.
Proof.
  intros H. revert m3. induction H; intros m3 H3; inversion H3; subst; constructor.
  - eapply kept_trans; eassumption.
  - auto.
Qed.

Lemma replaceInProps_kept target replacement m :
  Forall2 kept m (replaceInProps target replacement m).
Proof.
  induction m as [| [k v] m IH]; cbn; constructor; [| exact IH].
  destruct v; try apply kept_refl. cbn.
  destruct (Contains s target); [| apply kept_refl].
  split; cbn; eauto.
Qed.

Lemma rewritten_kept cp lu :
  Forall2 kept (entries (snd cp)) (entries (snd (rewritten cp lu))).
Proof.
  unfold rewritten, replaceLink. destruct (rewrites _ _); [| apply Forall2_kept_refl].
  cbn [snd]. destruct (snd cp) as [m |]; cbn; [apply replaceInProps_kept | constructor].
Qed.

Lemma fold_rewritten_kept resolved cp :
  Forall2 kept (entries (snd cp)) (entries (snd (fold_left rewritten resolved cp))).
Proof.
  revert cp. induction resolved as [| lu resolved IH]; intros cp; cbn [fold_left].
  - apply Forall2_kept_refl.
  - eapply Forall2_kept_trans; [apply rewritten_kept | apply IH].
Qed.

Lemma kept_noStrings m m' :
  (forall k v, In (k, v) m -> forall s, v <> Str s) -> Forall2 kept m m' -> m' = m.
Proof.
  intros N H. induction H as [| [k v] [k' v'] m m' [K V] H IH]; [reflexivity |].
  cbn in K, V. f_equal.
  - subst k'.
    f_equal.
    specialize (N k v (or_introl eq_refl)).
    destruct v; try exact V.
    exfalso.
    exact (N s eq_refl).
  - apply IH. intros k0 v0 I. apply (N k0). right. exact I.
Qed.

Lemma noStrings_values properties : noStrings properties -> stringValues properties = [].
Proof.
  unfold noStrings, stringValues. induction (entries properties) as [| [k v] m IH]; intros N.
  - reflexivity.
  - cbn. rewrite IH by (intros k0 v0 I; apply (N k0); right; exact I).
    specialize (N k v (or_introl eq_refl)).
    destruct v; try reflexivity. exfalso. exact (N s eq_refl).
Qed.

Lemma fold_rewritten_content resolved content properties :
  fst (fold_left rewritten resolved (content, properties))
  = fold_left contentStep resolved content.
Proof.
  revert content properties.
  induction resolved as [| lu resolved IH]; intros content properties; [reflexivity |].
  cbn [fold_left]. unfold rewritten at 2, contentStep at 2, replaceLink.
  destruct (rewrites _ _); cbn [fst snd]; apply IH.
Qed.

Lemma entries_eq (p p' : option Props) :
  entries p' = entries p -> (p = None <-> p' = None) -> p' = p.
Proof.
  destruct p, p'; cbn; intros E [A B]; try congruence.
  - discriminate B; reflexivity.
  - discriminate A; reflexivity.
Qed.

Lemma fold_rewritten_none resolved cp :
  snd cp = None <-> snd (fold_left rewritten resolved cp) = None.
Proof.
  revert cp. induction resolved as [| lu resolved IH]; intros cp; cbn [fold_left].
  - reflexivity.
  - rewrite <- IH. unfold rewritten, replaceLink.
    destruct (rewrites _ _); [| reflexivity]. cbn [snd].
    destruct (snd cp); cbn; split; congruence.
Qed.

(** C8.  For a property map none of whose values is a string,
    [EnsureLinkedPages] returns the map as it was, and the whole run (the
    content returned, the requests sent, the log) is the run on the content
    alone: the values are neither scanned nor modified.  For any map, every
    entry keeps its key, and a value that is not a string is kept as it
    is. *)
Theorem EnsureLinkedPages_frames_non_string_values content properties (st : State World) :
  noStrings properties ->
  snd (fst (EnsureLinkedPages c content properties st)) = properties
  /\ fst (fst (EnsureLinkedPages c content properties st))
     = fst (fst (EnsureLinkedPages c content None st))
  /\ snd (EnsureLinkedPages c content properties st)
     = snd (EnsureLinkedPages c content None st)
  /\ forall properties',
       Forall2 kept (entries properties')
         (entries (snd (fst (EnsureLinkedPages c content properties' st)))).
Proof.
  intros N.
  assert (P : snd (fst (EnsureLinkedPages c content properties st)) = properties).
  { rewrite EnsureLinkedPages_result. apply entries_eq.
    - apply kept_noStrings; [exact N |].
      apply (fold_rewritten_kept _ (content, properties)).
    - apply (fold_rewritten_none _ (content, properties)). }
  assert (L : linksOf content properties = linksOf content None).
  { unfold linksOf. rewrite (noStrings_values _ N). reflexivity. }
  assert (C : fst (fst (EnsureLinkedPages c content properties st))
              = fst (fst (EnsureLinkedPages c content None st))).
  { rewrite !EnsureLinkedPages_result, !fold_rewritten_content, L. reflexivity. }
  split; [exact P |]. split; [exact C |]. split.
  - rewrite EnsureLinkedPages_result in P, C.
    rewrite !EnsureLinkedPages_eq. cbn zeta. cbn [snd].
    rewrite <- L.
    assert (P2 : snd (fold_left rewritten (fst (resolveAll c (linksOf content properties) st))
                        (content, None)) = None).
    { apply (fold_rewritten_none _ (content, None)). reflexivity. }
    rewrite EnsureLinkedPages_result, <- L in C.
    rewrite P, P2, C. rewrite (noStrings_values _ N). reflexivity.
  - intros properties'. rewrite EnsureLinkedPages_result.
    apply (fold_rewritten_kept _ (content, properties')).
Qed.

(** *** Which links are rewritten *)

Lemma fold_rewritten_filter resolved cp :
  fold_left rewritten resolved cp
  = fold_left (fun cp lu => replaceLink (fst lu) (snd lu) cp)
      (filter (fun lu => rewrites (fst lu) (snd lu)) resolved) cp.
Proof.
  revert cp. induction resolved as [| lu resolved IH]; intros cp; [reflexivity |].
  cbn [fold_left filter]. unfold rewritten at 2.
  destruct (rewrites _ _); cbn [fold_left]; apply IH.
Qed.

End Synchronize.

Section Rewriting.

Lemma member_In x l : member x l = true <-> In x l.
Proof.
  unfold member. rewrite existsb_exists. split.
  - intros [y [I E]]. apply String.eqb_eq in E. subst. exact I.
  - intros I. exists x. split; [exact I | apply String.eqb_refl].
Qed.

Lemma NoDup_snoc (x : string) l : NoDup l -> ~ In x l -> NoDup (l ++ [x]).
Proof.
  induction l as [| a l IH]; intros N I; cbn.
  - constructor; [intros [] | constructor].
  - inversion N; subst. constructor.
    + rewrite in_app_iff. intros [J | [J | []]]; [contradiction | subst].
      apply I. left. reflexivity.
    + apply IH; [assumption |]. intros J. apply I. right. exact J.
Qed.

Lemma dedup_NoDup links : NoDup (dedup links).
Proof.
  unfold dedup. assert (G : forall acc, NoDup acc ->
    NoDup (fold_left (fun linkList l =>
             if member l linkList then linkList else (linkList ++ [l])%list) links acc)).
  { induction links as [| l links IH]; intros acc N; [exact N |].
    cbn [fold_left]. apply IH. destruct (member l acc) eqn:E; [exact N |].
    apply NoDup_snoc; [exact N |]. rewrite <- member_In, E. discriminate. }
  apply G. constructor.
Qed.

Lemma span_lacks c s : hasChar c (fst (span c s)) = false.
Proof.
  induction s as [| a s IH]; cbn [span]; [reflexivity |].
  destruct (Ascii.eqb a c) eqn:E; [reflexivity |].
  destruct (span c s) as [x r]. cbn [fst hasChar] in *. rewrite E, IH. reflexivity.
Qed.

Lemma matchAt_lacks o c s inner : matchAt o c s = Some inner -> hasChar c inner = false.
Proof.
  unfold matchAt. destruct s as [| a0 [| a1 r]]; try discriminate.
  destruct (Ascii.eqb a0 o && Ascii.eqb a1 o); [| discriminate].
  pose proof (span_lacks c r) as L. destruct (span c r) as [[| x inner'] rest];
    [discriminate |].
  destruct rest as [| c0 [| c1 rest]]; try discriminate.
  destruct (Ascii.eqb c0 c && Ascii.eqb c1 c); [| discriminate].
  intros E. injection E as <-. exact L.
Qed.

Lemma findAll_lacks o c s :
  forall skip m, In m (findAll o c skip s) -> hasChar c m = false.
Proof.
  induction s as [| a s IH]; intros skip m I; [destruct I |].
  cbn [findAll] in I. destruct skip as [| k]; [| exact (IH _ _ I)].
  destruct (matchAt o c (String a s)) as [inner |] eqn:E; [| exact (IH _ _ I)].
  destruct I as [<- | I]; [exact (matchAt_lacks _ _ _ _ E) | exact (IH _ _ I)].
Qed.

Lemma hasChar_drop c k s : hasChar c (drop k s) = true -> hasChar c s = true.
Proof.
  revert s. induction k as [| k IH]; intros s H; [exact H |].
  destruct s as [| a s]; [exact H |]. cbn [hasChar]. rewrite (IH s H). apply orb_true_r.
Qed.

Lemma trimLeftFrom_drop pats s : forall skip, exists j, trimLeftFrom pats skip s = drop j s.
Proof.
  induction s as [| a s IH]; intros skip; [exists 0; reflexivity |].
  cbn [trimLeftFrom]. destruct skip as [| k].
  - destruct (spaceWidth pats (String a s)) as [w |]; [| exists 0; reflexivity].
    destruct (IH (w - 1)) as [j E]. exists (S j). exact E.
  - destruct (IH k) as [j E]. exists (S j). exact E.
Qed.

Lemma hasChar_rev c s : hasChar c (Strings.rev s) = hasChar c s.
Proof.
  induction s as [| a s IH]; [reflexivity |].
  cbn [Strings.rev hasChar]. rewrite hasChar_app, IH. cbn [hasChar].
  rewrite orb_false_r. apply orb_comm.
Qed.

Lemma TrimSpace_lacks c s : hasChar c s = false -> hasChar c (TrimSpace s) = false.
Proof.
  intros H. unfold TrimSpace, TrimRightSpace, TrimLeftSpace.
  destruct (hasChar c (Strings.rev _)) eqn:E; [| reflexivity].
  rewrite hasChar_rev in E.
  destruct (trimLeftFrom_drop (map Strings.rev spaces)
              (Strings.rev (trimLeftFrom spaces 0 s)) 0) as [j Ej].
  rewrite Ej in E. apply hasChar_drop in E. rewrite hasChar_rev in E.
  destruct (trimLeftFrom_drop spaces s 0) as [i Ei].
  rewrite Ei in E. apply hasChar_drop in E. congruence.
Qed.

Lemma uniqueNames_lacks c matches :
  (forall m, In m matches -> hasChar c m = false) ->
  forall name, In name (uniqueNames matches) -> hasChar c name = false.
Proof.
  unfold uniqueNames. intros H.
  assert (G : forall acc,
             (forall name, In name acc -> hasChar c name = false) ->
             forall name,
               In name (fold_left
                          (fun links m =>
                             let name := TrimSpace m in
                             if negb (String.eqb name "") && negb (member name links)
                             then (links ++ [name])%list else links)
                          matches acc) ->
               hasChar c name = false).
  { induction matches as [| m matches IH]; intros acc A name I; [exact (A name I) |].
    cbn [fold_left] in I. refine (IH _ _ _ name I).
    - intros m' I'. apply H. right. exact I'.
    - intros n In'. cbn zeta in In'.
      destruct (negb (String.eqb (TrimSpace m) "") && negb (member (TrimSpace m) acc));
        [| exact (A n In')].
      apply in_app_or in In'. destruct In' as [J | [<- | []]]; [exact (A n J) |].
      apply TrimSpace_lacks, H. left. reflexivity. }
  apply G. intros name [].
Qed.

Lemma extractLinks_lacks content link :
  In link (extractLinks content) -> hasChar "]" link = false.
Proof.
  unfold extractLinks. apply uniqueNames_lacks. intros m I.
  exact (findAll_lacks _ _ _ _ _ I).
Qed.

Lemma dedup_In links l : In l (dedup links) -> In l links.
Proof.
  unfold dedup.
  assert (G : forall acc,
             In l (fold_left (fun linkList x =>
                                if member x linkList then linkList
                                else (linkList ++ [x])%list) links acc) ->
             In l acc \/ In l links).
  { induction links as [| x links IH]; intros acc I; [left; exact I |].
    cbn [fold_left] in I. apply IH in I. destruct I as [I | I]; [| right; right; exact I].
    destruct (member x acc); [left; exact I |].
    apply in_app_or in I. destruct I as [I | [<- | []]]; [left; exact I | right; left; reflexivity]. }
  intros I. apply G in I. destruct I as [[] | I]. exact I.
Qed.

Lemma linksOf_lacks content properties link :
  In link (linksOf content properties) -> hasChar "]" link = false.
Proof.
  unfold linksOf. intros I. apply dedup_In, in_app_or in I.
  destruct I as [I | I]; [exact (extractLinks_lacks _ _ I) |].
  apply in_flat_map in I. destruct I as [s [_ I]]. exact (extractLinks_lacks _ _ I).
Qed.

Lemma target_nonempty link : "[[" ++ link ++ "]]" <> "".
Proof. discriminate. Qed.

Lemma hasChar_target ch link :
  hasChar ch ("[[" ++ link ++ "]]")
  = Ascii.eqb "[" ch || (hasChar ch link || Ascii.eqb "]" ch).
Proof.
  cbn [append hasChar]. rewrite hasChar_app. cbn [hasChar].
  destruct (Ascii.eqb "[" ch), (hasChar ch link), (Ascii.eqb "]" ch); reflexivity.
Qed.

Lemma hasChar_reference ch uuid :
  hasChar ch ("((" ++ uuid ++ "))")
  = Ascii.eqb "(" ch || (hasChar ch uuid || Ascii.eqb ")" ch).
Proof.
  cbn [append hasChar]. rewrite hasChar_app. cbn [hasChar].
  destruct (Ascii.eqb "(" ch), (hasChar ch uuid), (Ascii.eqb ")" ch); reflexivity.
Qed.

Lemma fold_invariant (P : string -> Prop) resolved :
  (forall s lu, In lu resolved -> P s -> P (contentStep s lu)) ->
  forall s, P s -> P (fold_left contentStep resolved s).
Proof.
  induction resolved as [| lu resolved IH]; intros Step s H; [exact H |].
  cbn [fold_left]. apply IH.
  - intros s' lu' I. apply Step. right. exact I.
  - apply Step; [left; reflexivity | exact H].
Qed.

End Rewriting.

Section Paths.

Lemma append_nil_r (s : string) : s ++ "" = s.
Proof. induction s; cbn; [reflexivity | f_equal; assumption]. Qed.

Lemma splitFrom_nonempty cur s : splitFrom "/" 0 cur s <> [].
Proof.
  revert cur. induction s as [| a s IH]; intros cur; cbn [splitFrom]; [discriminate |].
  destruct (String.prefix "/" (String a s)); [discriminate | apply IH].
Qed.

Lemma splitFrom_join cur s : joinSlash (splitFrom "/" 0 cur s) = cur ++ s.
Proof.
  revert cur. induction s as [| a s IH]; intros cur; cbn [splitFrom].
  - cbn. rewrite append_nil_r. reflexivity.
  - rewrite prefix_cons_eq, prefix_nil_l, andb_true_r.
    destruct (Ascii.eqb "/" a) eqn:E.
    + apply Ascii.eqb_eq in E. subst a. cbn [String.length Nat.sub joinSlash].
      pose proof (splitFrom_nonempty "" s) as N. specialize (IH "").
      destruct (splitFrom "/" 0 "" s); [contradiction |].
      rewrite IH. reflexivity.
    + rewrite IH, append_assoc. reflexivity.
Qed.

Lemma joinSlash_head cur p rest :
  joinSlash ((cur ++ "/" ++ p) :: rest) = cur ++ "/" ++ joinSlash (p :: rest).
Proof.
  destruct rest; cbn [joinSlash]; [reflexivity |].
  rewrite !append_assoc. reflexivity.
Qed.

Lemma last_cons (x : string) l d : last (x :: l) d = last l x.
Proof.
  revert x d. induction l as [| y l IH]; intros x d; [reflexivity |].
  change (last (x :: y :: l) d) with (last (y :: l) d). rewrite !IH. reflexivity.
Qed.

Lemma levelPaths_last_from cur parts :
  cur <> "" -> last (levelPaths cur parts) cur = joinSlash (cur :: parts).
Proof.
  revert cur. induction parts as [| p rest IH]; intros cur N; [reflexivity |].
  cbn [levelPaths]. destruct (String.eqb_spec cur ""); [contradiction |].
  assert (N' : cur ++ "/" ++ p <> "") by (destruct cur; [contradiction | discriminate]).
  rewrite last_cons, (IH _ N'), joinSlash_head. reflexivity.
Qed.

Lemma splitFrom_head s :
  String.prefix "/" s = false -> s <> "" ->
  exists p rest, splitFrom "/" 0 "" s = p :: rest /\ p <> "".
Proof.
  destruct s as [| a s]; intros P N; [contradiction |].
  cbn [splitFrom]. rewrite P. cbn [append].
  assert (G : forall t cur, cur <> "" ->
            exists p rest, splitFrom "/" 0 cur t = p :: rest /\ p <> "").
  { induction t as [| b t IH]; intros cur Nc; cbn [splitFrom].
    - eauto.
    - destruct (String.prefix "/" (String b t)); [eauto |].
      apply IH. destruct cur; [contradiction | discriminate]. }
  apply G. discriminate.
Qed.

(** The deepest path of a link that does not start with the separator is
    the link itself. *)
Lemma levelPaths_last link :
  HasPrefix link "/" = false ->
  last (levelPaths "" (Split link "/")) "" = link.
Proof.
  unfold HasPrefix, Split. intros P.
  destruct (String.eqb_spec link "") as [-> | N]; [reflexivity |].
  pose proof (splitFrom_join "" link) as J.
  destruct (splitFrom_head link P N) as (p & rest & E & Np).
  rewrite E in *. cbn [levelPaths String.eqb]. rewrite last_cons.
  rewrite (levelPaths_last_from p rest Np). exact J.
Qed.

End Paths.

Section Materializer.

Context {World : Type}.
Variable c : Client World.

Lemma Call_state method args (st : State World) :
  exists more,
    snd (Call c method args st)
    = mkState (fst (client c (remote st) (mkRequest method args)))
        (sent st ++ [mkRequest method args]) (logs st ++ more).
Proof.
  unfold Call, bind, Post. rewrite log_eq. cbn [remote sent logs].
  destruct (client c (remote st) (mkRequest method args)) as [w [msg | status body]].
  - rewrite log_eq. cbn. rewrite <- app_assoc. eauto.
  - destruct (399 <? status)%N.
    + rewrite log_eq. cbn. rewrite <- app_assoc. eauto.
    + destruct (unmarshalErrCheck body) as [[| x e] |]; cbn; eauto.
      rewrite log_eq. cbn. rewrite <- app_assoc. eauto.
Qed.

Lemma Call_run method args (st : State World) :
  exists more,
    Call c method args st
    = (outcome (snd (client c (remote st) (mkRequest method args))),
       mkState (fst (client c (remote st) (mkRequest method args)))
         (sent st ++ [mkRequest method args]) (logs st ++ more)).
Proof.
  destruct (Call_state method args st) as [more E].
  exists more. rewrite <- E, <- Call_result.
  destruct (Call c method args st); reflexivity.
Qed.

Lemma GetPage_run name (st : State World) :
  exists more,
    GetPage c name st
    = (pageResult (outcome (snd (client c (remote st) (getPageRequest name)))),
       mkState (fst (client c (remote st) (getPageRequest name)))
         (sent st ++ [getPageRequest name]) (logs st ++ more)).
Proof.
  destruct (Call_state "logseq.Editor.getPage" [Str name] st) as [more E].
  exists more. unfold getPageRequest. rewrite <- E, <- GetPage_state.
  fold (getPageRequest name). rewrite <- GetPage_result.
  destruct (GetPage c name st); reflexivity.
Qed.

(** What [CreatePage] with no properties does: it finds the page, or
    creates it, or fails after its create call. *)
Lemma CreatePageBare_run name (st : State World) :
  exists o more w,
    CreatePageBare c name st
    = (createResult o,
       mkState w (sent st ++ tl (levelRequests name o)) (logs st ++ more))
    /\ wellFormed o /\ (forall page, o <> Found page).
Proof.
  unfold CreatePageBare, CreatePageWith, bind. cbn [entries List.length Nat.ltb Nat.leb].
  destruct (GetPage_run name st) as [m1 ->].
  destruct (pageResult _) as [[existing |] [e |]].
  1, 3, 4: rewrite log_eq; cbn [remote sent logs optional app];
    match goal with |- context [Call c ?m ?a ?s] =>
      destruct (Call_run m a s) as [m2 ->] end;
    cbn [remote sent logs];
    destruct (outcome _) as [resp [e' |]].
  all: try (rewrite log_eq; cbn [remote sent logs ret];
            eexists (NotCreated _), _, _; split;
            [ rewrite <- !app_assoc; reflexivity | split; [exact I | discriminate] ]).
  all: try (destruct (unmarshalPage resp) as [page |];
            [ destruct (String.eqb (Page.UUID page) "") eqn:U | ];
            [ rewrite log_eq; cbn [remote sent logs ret];
              eexists (NotCreated _), _, _; split;
              [ rewrite <- !app_assoc; reflexivity | split; [exact I | discriminate] ]
            | cbn [ret]; eexists (Created page), _, _; split;
              [ rewrite <- !app_assoc; reflexivity
              | split; [apply String.eqb_neq; exact U | discriminate] ]
            | rewrite log_eq; cbn [remote sent logs ret];
              eexists (NotCreated _), _, _; split;
              [ rewrite <- !app_assoc; reflexivity | split; [exact I | discriminate] ] ]).
  cbn [ret]. eexists (FoundByCreate existing), _, _. split.
  - reflexivity.
  - split; [exact I | discriminate].
Qed.

Lemma last_index i n (rest : list string) :
  i + S (List.length rest) = n ->
  (i =? n - 1) = match rest with [] => true | _ => false end.
Proof.
  intros <-. destruct rest; cbn [List.length].
  - apply Nat.eqb_eq. lia.
  - apply Nat.eqb_neq. lia.
Qed.

Lemma finalOf_step (rest : list string) initial o outs uuid :
  List.length outs = List.length rest ->
  pick initial o = uuid ->
  finalOf (if match rest with [] => true | _ => false end then uuid else initial) outs
  = finalOf initial (o :: outs).
Proof.
  intros L P. destruct rest, outs; try discriminate; cbn [finalOf].
  - exact (eq_sym P).
  - reflexivity.
Qed.

Lemma finalOf_failed (rest : list string) initial e outs :
  List.length outs = List.length rest ->
  finalOf initial outs = finalOf initial (NotCreated e :: outs).
Proof. intros L. destruct rest, outs; try discriminate; reflexivity. Qed.

Lemma ensureLevels_run parts :
  forall i n cur initial (st : State World),
    i + List.length parts = n ->
    exists outcomes more w,
      ensureLevels c parts i n cur initial st
      = (finalOf initial outcomes,
         mkState w (sent st ++ levelsRequests (levelPaths cur parts) outcomes)
           (logs st ++ more))
      /\ List.length outcomes = List.length parts
      /\ Forall wellFormed outcomes
      /\ (logger c = true ->
          forall p e, In (p, NotCreated e) (combine (levelPaths cur parts) outcomes) ->
            In (failureEntry p e) more).
Proof.
  induction parts as [| part rest IH]; intros i n cur initial st Hn.
  - exists [], [], (remote st). cbn. rewrite !app_nil_r. destruct st.
    split; [reflexivity |]. split; [reflexivity |]. split; [constructor |].
    intros _ p e [].
  - cbn [ensureLevels levelPaths]. set (path := if String.eqb cur "" then part else _).
    unfold bind. rewrite log_eq. cbn [remote sent logs].
    match goal with |- context [GetPage c path ?s] =>
      destruct (GetPage_run path s) as [m1 ->] end.
    cbn [remote sent logs]. rewrite (last_index i n rest Hn).
    assert (Hn' : S i + List.length rest = n) by (cbn [List.length] in Hn; lia).
    destruct (pageResult _) as [[page |] [e |]].
    2:{ match goal with |- context [ensureLevels c rest (S i) n path ?f ?s] =>
          destruct (IH (S i) n path f s Hn') as (outs & m2 & w & -> & L & WF & Lg) end.
        exists (Found page :: outs). eexists. exists w. cbn [remote sent logs]. split; [| split; [| split]].
        - rewrite (finalOf_step rest initial (Found page) outs (Page.UUID page) L eq_refl).
          unfold levelsRequests. cbn [combine flat_map levelRequests fst snd].
          rewrite <- !app_assoc. reflexivity.
        - cbn. rewrite L. reflexivity.
        - constructor; [exact I | exact WF].
        - intros Hl p e [E | J]; [discriminate E |].
          rewrite !in_app_iff. right. right. apply (Lg Hl p e J). }
    all: rewrite log_eq; cbn [remote sent logs];
      match goal with |- context [CreatePageBare c ?p ?s] =>
        destruct (CreatePageBare_run p s) as (o & m2 & w1 & -> & WFo & NF) end;
      destruct o as [pg | pg | pg | e2]; [exfalso; exact (NF pg eq_refl) | | |];
      cbn [createResult remote sent logs].
    all: try (
      match goal with
      | |- context [ensureLevels c _ ?i' ?n' ?p (if _ then Page.UUID ?pg else _) ?s] =>
          match goal with |- context [tl (levelRequests _ ?o)] =>
            match goal with |- context [ensureLevels c _ i' n' p ?f s] =>
              destruct (IH i' n' p f s Hn') as (outs & m3 & w & -> & L & WF & Lg);
              exists (o :: outs); eexists; exists w; cbn [remote sent logs];
              split; [| split; [| split]];
              [ rewrite (finalOf_step rest initial o outs (Page.UUID pg) L eq_refl);
                unfold levelsRequests; cbn [combine flat_map levelRequests fst snd tl app];
                rewrite <- !app_assoc; reflexivity
              | cbn; rewrite L; reflexivity
              | constructor; [exact WFo | exact WF]
              | intros Hl p0 e0 [E | J]; [discriminate E |];
                rewrite !in_app_iff; right; right; right; right; apply (Lg Hl p0 e0 J) ]
            end
          end
      end).
    all: rewrite log_eq; cbn [remote sent logs];
      match goal with |- context [ensureLevels c _ ?i' ?n' ?p ?f ?s] =>
        destruct (IH i' n' p f s Hn') as (outs & m3 & w & -> & L & WF & Lg) end;
      exists (NotCreated e2 :: outs); eexists; exists w;
      cbn [remote sent logs]; split; [| split; [| split]];
      [ rewrite (finalOf_failed rest initial e2 outs L);
        unfold levelsRequests; cbn [combine flat_map levelRequests fst snd tl app];
        rewrite <- !app_assoc; reflexivity
      | cbn; rewrite L; reflexivity
      | constructor; [exact I | exact WF]
      | intros Hl p e0 [E | J];
        [ injection E as <- <-; rewrite Hl, !in_app_iff;
          right; right; right; right; left; left; reflexivity
        | rewrite !in_app_iff; right; right; right; right; right; apply (Lg Hl p e0 J) ] ].
Qed.

End Materializer.

Section Levels.

Context {World : Type}.
Variable c : Client World.

Lemma finalOf_leaf outcomes : finalOf "" outcomes = leafIdentifier outcomes.
Proof.
  unfold leafIdentifier. induction outcomes as [| o rest IH]; [reflexivity |].
  cbn [finalOf map]. destruct rest as [| o' rest'].
  - destruct o; reflexivity.
  - rewrite IH. reflexivity.
Qed.

End Levels.

Section Resolver.

Context {World : Type}.
Variable c : Client World.

Lemma isEmptyResult_iff body : isEmptyResult body = true <-> body = "null" \/ body = "[]".
Proof.
  unfold isEmptyResult. rewrite orb_true_iff, !String.eqb_eq. reflexivity.
Qed.

(** C6.  [GetPage] sends one request, the lookup of the name.  A failure of
    the transport, an error status and a business error come back as an
    error with no page; an accepted response [null] or [[]] comes back as
    no page and no error; any other accepted response comes back with no
    error and the page decoded from it. *)
Theorem GetPage_absent_is_not_an_error name (st : State World) :
  let req := getPageRequest name in
  let run := GetPage c name st in
  sent (snd run) = (sent st ++ [req])%list
  /\ match snd (client c (remote st) req) with
     | Failed msg =>
         fst run = (None, Some (Errorf "request failed: " (Some (NetError msg))))
     | Response status body =>
         if (399 <? status)%N then
           fst run = (None, Some (Errorf ("api error: " ++ TrimSpace body
                                          ++ " (status: " ++ decimal status ++ ")") None))
         else
           match unmarshalErrCheck body with
           | Some (String x e) =>
               fst run = (None, Some (Errorf ("api error: " ++ String x e) None))
           | _ =>
               fst run = (if isEmptyResult body then None else unmarshalPage body, None)
           end
     end
  /\ (forall body, isEmptyResult body = true <-> body = "null" \/ body = "[]").
Proof.
  cbn zeta. rewrite GetPage_sent, GetPage_result. split; [reflexivity |]. split.
  - destruct (snd (client c (remote st) (getPageRequest name))) as [msg | status body];
      cbn [outcome pageResult]; [reflexivity |].
    destruct (399 <? status)%N; cbn [pageResult]; [reflexivity |].
    destruct (unmarshalErrCheck body) as [[| x e] |]; reflexivity.
  - apply isEmptyResult_iff.
Qed.

(** C10.  An accepted response to the lookup that is neither [null] nor
    [[]] and does not decode as a page makes [GetPage] return no page and
    no error, as for a page that is not there. *)
Theorem GetPage_undecodable_response_is_absent name (st : State World) w status body :
  client c (remote st) (getPageRequest name) = (w, Response status body) ->
  accepted status body = true ->
  isEmptyResult body = false ->
  unmarshalPage body = None ->
  fst (GetPage c name st) = (None, None).
Proof.
  intros E A N D. rewrite GetPage_result, E. cbn [snd outcome].
  unfold accepted in A. apply andb_true_iff in A. destruct A as [A1 A2].
  apply negb_true_iff in A1. rewrite A1.
  destruct (unmarshalErrCheck body) as [[| x e] |]; try discriminate;
    cbn [pageResult]; rewrite N, D; reflexivity.
Qed.

End Resolver.


Section Facade.

Context {World : Type}.
Variable c : Client World.

Lemma accepted_outcome status body :
  accepted status body = true -> outcome (Response status body) = (body, None).
Proof.
  unfold accepted, outcome. intros A. apply andb_true_iff in A. destruct A as [A1 A2].
  apply negb_true_iff in A1. rewrite A1.
  destruct (unmarshalErrCheck body) as [[| x e] |]; try discriminate; reflexivity.
Qed.

Lemma GetBlock_sent uuid (st : State World) :
  sent (snd (GetBlock c uuid st)) = (sent st ++ [getBlockRequest uuid])%list.
Proof.
  unfold GetBlock, bind.
  destruct (Call_run c "logseq.Editor.getBlock" [Str uuid; Bool true] st) as [more ->].
  destruct (outcome _) as [resp [e |]]; [reflexivity |].
  destruct (String.eqb resp "null"); [rewrite log_eq; reflexivity |].
  destruct (unmarshalBlock resp); reflexivity.
Qed.

Lemma Call_failure method args (st : State World) e :
  failure c st (mkRequest method args) = Some e ->
  exists st', Call c method args st = (("", Some e), st').
Proof.
  unfold failure. intros F. destruct (Call_run c method args st) as [more ->].
  eexists. f_equal.
  destruct (snd (client c (remote st) (mkRequest method args))) as [msg | status body];
    cbn [outcome] in *.
  - cbn [snd] in F. congruence.
  - destruct (399 <? status)%N; [cbn [snd] in F; congruence |].
    destruct (unmarshalErrCheck body) as [[| x e'] |]; cbn [snd] in F; congruence.
Qed.

(** C5, as it holds.  A failure of the call an operation makes for itself
    comes back to the caller as [Call] made it: from [GetPage], [GetBlock]
    and [Query] (its first call), from [UpdateBlock], [InsertBlock] and
    [AppendBlockInPage] after the synchronisation, and from [CreatePage]
    for its create call; [UpdatePage] puts the property key before it.
    The synchronisation itself returns no error: whatever the store
    answers to it, [AppendBlockInPage] sends its call.  [GetPage] and
    [GetBlock] send one request, whatever comes back.  A failure of the
    second call of [Query], made after an empty answer to the first, is
    not returned: the empty answer is. *)
Theorem failures_of_the_own_call_propagate :
  (forall name (st : State World) e,
      failure c st (getPageRequest name) = Some e ->
      fst (GetPage c name st) = (None, Some e))
  /\ (forall uuid (st : State World) e,
        failure c st (getBlockRequest uuid) = Some e ->
        fst (GetBlock c uuid st) = (None, Some e))
  /\ (forall datalog (st : State World) e,
        failure c st (mkRequest "logseq.DB.q" [Str datalog]) = Some e ->
        fst (Query c datalog st) = (Null, Some e))
  /\ (forall uuid content properties (st : State World) e,
        let sync := EnsureLinkedPages c content properties st in
        let args := ([Str uuid; Str (fst (fst sync))] ++ optional (snd (fst sync)))%list in
        failure c (snd sync) (mkRequest "logseq.Editor.updateBlock" args) = Some e ->
        fst (UpdateBlock c uuid content properties st) = (None, Some e))
  /\ (forall parentUUID content properties options (st : State World) e,
        let sync := EnsureLinkedPages c content properties st in
        let args := ([Str parentUUID; Str (fst (fst sync))] ++ optional options)%list in
        failure c (snd sync) (mkRequest "logseq.Editor.insertBlock" args) = Some e ->
        fst (InsertBlock c parentUUID content properties options st) = (None, Some e))
  /\ (forall pageName content options (st : State World) e,
        let sync := EnsureLinkedPages c content None st in
        let args := ([Str pageName; Str (fst (fst sync))] ++ optional options)%list in
        failure c (snd sync) (mkRequest "logseq.Editor.appendBlockInPage" args) = Some e ->
        fst (AppendBlockInPage c pageName content options st) = (None, Some e))
  /\ (forall name properties options (st : State World) e,
        let look := GetPage c name st in
        let args := ([Str name; Object (entries properties)] ++ optional options)%list in
        (forall page, fst look <> (Some page, None)) ->
        failure c (snd look) (mkRequest "logseq.Editor.createPage" args) = Some e ->
        fst (CreatePage c name properties options st) = (None, Some e))
  /\ (forall uuid properties (st : State World) k v rest e,
        let sync := EnsureLinkedPages c "" properties st in
        entries (snd (fst sync)) = (k, v) :: rest ->
        failure c (snd sync) (mkRequest "logseq.Editor.upsertBlockProperty" [Str uuid; Str k; v])
        = Some e ->
        fst (UpdatePage c uuid properties st)
        = (None, Some (Errorf ("failed to update property " ++ k ++ ": ") (Some e))))
  /\ (forall pageName content options (st : State World),
        let sync := EnsureLinkedPages c content None st in
        sent (snd (AppendBlockInPage c pageName content options st))
        = (sent (snd sync)
           ++ [mkRequest "logseq.Editor.appendBlockInPage"
                 ([Str pageName; Str (fst (fst sync))] ++ optional options)])%list)
  /\ (forall name (st : State World),
        sent (snd (GetPage c name st)) = (sent st ++ [getPageRequest name])%list)
  /\ (forall uuid (st : State World),
        sent (snd (GetBlock c uuid st)) = (sent st ++ [getBlockRequest uuid])%list)
  /\ (forall datalog (st : State World) w status body e,
        let called := snd (Call c "logseq.DB.q" [Str datalog] st) in
        client c (remote st) (mkRequest "logseq.DB.q" [Str datalog])
        = (w, Response status body) ->
        accepted status body = true ->
        isEmptyResult body = true ->
        failure c called (mkRequest "logseq.DB.datascriptQuery" [Str datalog]) = Some e ->
        fst (Query c datalog st)
        = (if String.eqb body "[]" then Array [] else Null, None)).
Proof.
  repeat match goal with |- _ /\ _ => split end.
  - intros name st e F. rewrite GetPage_result. unfold failure in F.
    destruct (outcome _) as [resp [e' |]]; cbn [snd pageResult] in *; congruence.
  - intros uuid st e F. unfold GetBlock, bind.
    destruct (Call_failure _ _ _ _ F) as [st' ->]. reflexivity.
  - intros datalog st e F. unfold Query, bind.
    destruct (Call_failure _ _ _ _ F) as [st' ->]. reflexivity.
  - intros uuid content properties st e. cbn zeta. intros F. unfold UpdateBlock, bind.
    destruct (EnsureLinkedPages c content properties st) as [[content' properties'] st1].
    cbn [fst snd] in *. destruct (Call_failure _ _ _ _ F) as [st' ->]. reflexivity.
  - intros parentUUID content properties options st e. cbn zeta. intros F.
    unfold InsertBlock, bind.
    destruct (EnsureLinkedPages c content properties st) as [[content' properties'] st1].
    cbn [fst snd] in *. destruct (Call_failure _ _ _ _ F) as [st' ->]. reflexivity.
  - intros pageName content options st e. cbn zeta. intros F.
    unfold AppendBlockInPage, bind.
    destruct (EnsureLinkedPages c content None st) as [[content' properties'] st1].
    cbn [fst snd] in *. destruct (Call_failure _ _ _ _ F) as [st' ->]. reflexivity.
  - intros name properties options st e. cbn zeta. intros NF F.
    unfold CreatePage, CreatePageWith, bind.
    destruct (GetPage c name st) as [[existing err] st1]. cbn [fst snd] in *.
    assert (F' : failure c (snd (log c Debug "Attempting CreatePage" [("name", Str name)] st1))
                   (mkRequest "logseq.Editor.createPage"
                      ([Str name; Object (entries properties)] ++ optional options))
                 = Some e)
      by (rewrite log_eq; exact F).
    assert (EP : entries (match properties with Some _ => properties | None => Some [] end)
                 = entries properties) by (destruct properties; reflexivity).
    rewrite EP.
    destruct err as [e0 |]; [| destruct existing as [page |]; [exfalso; exact (NF page eq_refl) |]];
      destruct (log c Debug _ _ st1) as [u st2]; cbn [snd] in F';
      destruct (Call_failure _ _ _ _ F') as [st' ->];
      rewrite log_eq; reflexivity.
  - intros uuid properties st k v rest e. cbn zeta. intros E F. unfold UpdatePage, bind.
    destruct (EnsureLinkedPages c "" properties st) as [[content' properties'] st1].
    cbn [fst snd] in *. rewrite E. cbn [upsertAll]. unfold bind.
    destruct (Call_failure _ _ _ _ F) as [st' ->]. reflexivity.
  - intros pageName content options st. cbn zeta. unfold AppendBlockInPage, bind.
    destruct (EnsureLinkedPages c content None st) as [[content' properties'] st1].
    cbn [fst snd].
    match goal with |- context [Call c ?m ?a st1] =>
      destruct (Call_run c m a st1) as [more ->] end.
    destruct (outcome _) as [resp [e |]]; [reflexivity |].
    destruct (unmarshalBlock resp); reflexivity.
  - apply GetPage_sent.
  - apply GetBlock_sent.
  - intros datalog st w status body e. cbn zeta. intros E A N F.
    unfold Query, bind.
    pose proof (Call_result c "logseq.DB.q" [Str datalog] st) as R.
    destruct (Call c "logseq.DB.q" [Str datalog] st) as [[resp err] st1].
    rewrite E in R. cbn [fst snd] in R, F. rewrite (accepted_outcome _ _ A) in R.
    injection R as -> ->.
    unfold isEmptyResult in N.
    destruct (String.eqb body "[]") eqn:B1; cbn [orb].
    + destruct (Call_failure _ _ _ _ F) as [st' ->].
      apply String.eqb_eq in B1. subst body. reflexivity.
    + rewrite orb_false_r in N. rewrite N.
      destruct (Call_failure _ _ _ _ F) as [st' ->].
      apply String.eqb_eq in N. subst body. reflexivity.
Qed.

End Facade.

(** * The statements on concrete stores *)

Import Servers Examples.

Lemma GetPage_absent_is_not_an_error_witness :
  fst (GetPage (onScript (fun _ _ => ok "null")) "Missing" (start 0)) = (None, None)
  /\ fst (GetPage (onScript (fun _ _ => ok "[]")) "Missing" (start 0)) = (None, None)
  /\ fst (GetPage offline "Missing" (start tt))
     = (None, Some (Errorf "request failed: " (Some (NetError "connection refused")))).
Proof.
  split; [| split].
  - pose proof (GetPage_absent_is_not_an_error (onScript (fun _ _ => ok "null"))
                  "Missing" (start 0)) as [_ [H _]].
    exact H.
  - pose proof (GetPage_absent_is_not_an_error (onScript (fun _ _ => ok "[]"))
                  "Missing" (start 0)) as [_ [H _]].
    exact H.
  - pose proof (GetPage_absent_is_not_an_error offline "Missing" (start tt)) as [_ [H _]].
    exact H.
Defined.

Lemma GetPage_undecodable_response_is_absent_witness :
  unmarshalPage notAPage = None
  /\ fst (GetPage (onScript (fun _ _ => ok notAPage)) "P" (start 0)) = (None, None).
Proof.
  split; [reflexivity |].
  apply (GetPage_undecodable_response_is_absent (onScript (fun _ _ => ok notAPage))
           "P" (start 0) 1 200%N notAPage); reflexivity.
Defined.

Lemma EnsureLinkedPages_frames_non_string_values_witness :
  snd (fst (EnsureLinkedPages onStore "see [[A/B]]"
              (Some [("n", Number "1"); ("done", Bool true)]) (start [])))
  = Some [("n", Number "1"); ("done", Bool true)].
Proof.
  apply EnsureLinkedPages_frames_non_string_values.
  intros k v I s. vm_compute in I. destruct I as [E | [E | []]]; injection E as <- <-;
    discriminate.
Defined.

(** C1 does not hold for every content: the content [[[Inbox/[[C]]] with a
    property [[[C]]] has the links [Inbox/[[C] and [C]; the store creates
    [Inbox] and [Inbox/[[C], the first link is replaced by its reference,
    and the content returned, [((u-Inbox/[[C))], no longer contains the
    [[[C]]] that the content had. *)
Lemma rewriting_is_textual :
  ~ (forall (c : Client (list (string * string))) content properties st l u,
       let out := fst (fst (EnsureLinkedPages c content properties st)) in
       In (l, u) (fst (resolveAll c (linksOf content properties) st)) ->
       Contains content ("[[" ++ l ++ "]]") = true ->
       (Contains l "/" = true -> u <> "" ->
        Contains out ("((" ++ u ++ "))") = true
        /\ Contains out ("[[" ++ l ++ "]]") = false)
       /\ (Contains l "/" = false -> Contains out ("[[" ++ l ++ "]]") = true)).
Proof.
  intros H.
  specialize (H onStore "[[Inbox/[[C]]" (Some [("related", Str "[[C]]")]) (start [])
                "C" "u-C").
  cbn zeta in H. destruct H as [_ H]; [vm_compute; auto | reflexivity |].
  specialize (H eq_refl). vm_compute in H. discriminate H.
Qed.

(** C4 does not hold for [InsertBlock]: answered with the bare identifier
    ["b1"], it returns the decode error. *)
Lemma InsertBlock_rejects_a_bare_identifier :
  ~ (forall (c : Client nat) parentUUID content (st : State nat) w status body uuid,
       client c (remote st) (mkRequest "logseq.Editor.insertBlock"
                               [Str parentUUID; Str content])
       = (w, Response status body) ->
       accepted status body = true ->
       unmarshalString body = Some uuid -> uuid <> "" ->
       snd (fst (InsertBlock c parentUUID content None None st)) = None).
Proof.
  intros H.
  specialize (H (onScript (fun _ _ => ok (q "b1"))) "p1" "c1" (start 0) 1 200%N (q "b1") "b1"
                eq_refl eq_refl eq_refl).
  vm_compute in H. discriminate H. discriminate.
Qed.

Lemma failures_of_the_own_call_propagate_witness :
  fst (GetPage offline "P" (start tt))
  = (None, Some (Errorf "request failed: " (Some (NetError "connection refused"))))
  /\ fst (UpdatePage offline "u1" (Some [("k", Str "v")]) (start tt))
     = (None, Some (Errorf "failed to update property k: "
                      (Some (Errorf "request failed: "
                               (Some (NetError "connection refused")))))).
Proof.
  destruct (failures_of_the_own_call_propagate offline)
    as (G & _ & _ & _ & _ & _ & _ & U & _).
  split.
  - apply G. reflexivity.
  - apply (U "u1" (Some [("k", Str "v")]) (start tt) "k" (Str "v") []); reflexivity.
Defined.

(** C5 does not hold for the second call of [Query]: the first call is
    answered with an empty list, the second one with status 500, and
    [Query] returns the empty list and no error. *)
Lemma Query_drops_the_fallback_failure :
  ~ (forall (c : Client nat) datalog (st st1 : State nat) resp e,
       Call c "logseq.DB.q" [Str datalog] st = ((resp, None), st1) ->
       isEmptyResult resp = true ->
       failure c st1 (mkRequest "logseq.DB.datascriptQuery" [Str datalog]) = Some e ->
       snd (fst (Query c datalog st)) <> None).
Proof.
  intros H.
  destruct (Call (onScript fallbackFails) "logseq.DB.q" [Str "[:find ?x]"] (start 0))
    as [[resp [e |]] st1] eqn:C; [vm_compute in C; discriminate C |].
  assert (R : resp = "[]") by (vm_compute in C; congruence).
  assert (S : remote st1 = 1) by (vm_compute in C; injection C as _ <-; reflexivity).
  apply (H (onScript fallbackFails) "[:find ?x]" (start 0) st1 resp
           (Errorf "api error: boom (status: 500)" None) C).
  - rewrite R. reflexivity.
  - unfold failure. rewrite S. vm_compute. reflexivity.
  - vm_compute. reflexivity.
Qed.

(** [CreatePage] does not return the failure of [UpdatePage] either: the
    page is there, the property call is answered with status 500,
    [UpdatePage] returns the error, and [CreatePage] returns the page and
    no error. *)
Lemma CreatePage_drops_the_property_failure :
  ~ (forall (c : Client nat) name properties options (st st1 : State nat) page e,
       GetPage c name st = ((Some page, None), st1) ->
       entries properties <> [] ->
       fst (UpdatePage c (Page.UUID page) properties st1) = (None, Some e) ->
       snd (fst (CreatePage c name properties options st)) <> None).
Proof.
  intros H.
  destruct (GetPage (onScript propertyFails) "P" (start 0)) as [[[page |] [e |]] st1] eqn:G;
    try (vm_compute in G; discriminate G).
  destruct (UpdatePage (onScript propertyFails) (Page.UUID page) (Some [("k", Str "v")]) st1)
    as [[[p' |] [e |]] st2] eqn:U;
    try (vm_compute in G; injection G as <- <-; vm_compute in U; discriminate U).
  apply (H (onScript propertyFails) "P" (Some [("k", Str "v")]) None (start 0) st1 page e G).
  - discriminate.
  - rewrite U. reflexivity.
  - reflexivity.
Qed.




(** * Further properties *)

(** ** The extractors of utils.go *)

Lemma span_app c s : s = fst (span c s) ++ snd (span c s).
Proof.
  induction s as [| a s IH]; [reflexivity |].
  cbn [span]. destruct (Ascii.eqb a c); [reflexivity |].
  destruct (span c s) as [x r]. cbn [fst snd append] in *. f_equal. exact IH.
Qed.

Lemma span_exact c x r : hasChar c x = false -> span c (x ++ String c r) = (x, String c r).
Proof.
  induction x as [| a x IH]; intros H.
  - cbn. rewrite Ascii.eqb_refl. reflexivity.
  - cbn [hasChar] in H. apply orb_false_iff in H. destruct H as [H1 H2].
    cbn [append span]. rewrite H1, (IH H2). reflexivity.
Qed.

Lemma matchAt_prefix o c s inner :
  matchAt o c s = Some inner ->
  String.prefix (String o (String o (inner ++ String c (String c "")))) s = true.
Proof.
  unfold matchAt. destruct s as [| a0 [| a1 r]]; try discriminate.
  destruct (Ascii.eqb a0 o) eqn:E0; [| discriminate].
  destruct (Ascii.eqb a1 o) eqn:E1; [| discriminate]. cbn [andb].
  apply Ascii.eqb_eq in E0, E1. subst a0 a1.
  pose proof (span_app c r) as A.
  destruct (span c r) as [[| x inner'] [| c0 [| c1 rest]]]; try discriminate.
  destruct (Ascii.eqb c0 c) eqn:F0; [| discriminate].
  destruct (Ascii.eqb c1 c) eqn:F1; [| discriminate]. cbn [andb].
  apply Ascii.eqb_eq in F0, F1. subst c0 c1.
  intros E. injection E as <-. cbn [fst snd] in A. rewrite A.
  rewrite !prefix_cons_eq, !Ascii.eqb_refl. cbn [andb].
  replace (String x inner' ++ String c (String c rest))
    with ((String x inner' ++ String c (String c "")) ++ rest)
    by (rewrite append_assoc; reflexivity).
  apply prefix_app.
Qed.

Lemma findAll_Contains o c s :
  forall skip m, In m (findAll o c skip s) ->
    Contains s (String o (String o (m ++ String c (String c "")))) = true.
Proof.
  induction s as [| a s IH]; intros skip m I; [destruct I |].
  cbn [findAll] in I. destruct skip as [| k];
    [| apply Contains_cons; exact (IH _ _ I)].
  destruct (matchAt o c (String a s)) as [inner |] eqn:E;
    [| apply Contains_cons; exact (IH _ _ I)].
  destruct I as [<- | I]; [| apply Contains_cons; exact (IH _ _ I)].
  apply Contains_prefix. exact (matchAt_prefix _ _ _ _ E).
Qed.

Lemma findAll_none o c s :
  Contains s (String o (String o "")) = false -> forall skip, findAll o c skip s = [].
Proof.
  induction s as [| a s IH]; intros H skip; [reflexivity |].
  cbn [Contains] in H. apply orb_false_iff in H. destruct H as [H1 H2].
  cbn [findAll]. destruct skip as [| k]; [| exact (IH H2 k)].
  destruct (matchAt o c (String a s)) as [inner |] eqn:E; [| exact (IH H2 0)].
  apply matchAt_prefix in E. destruct s as [| a1 s];
    [rewrite prefix_cons_eq in E; cbn [String.prefix] in E; rewrite andb_false_r in E;
     discriminate E |].
  rewrite !prefix_cons_eq in E, H1. rewrite prefix_nil_l in H1.
  apply andb_true_iff in E. destruct E as [E0 E].
  apply andb_true_iff in E. destruct E as [E1 _].
  rewrite E0, E1 in H1. discriminate H1.
Qed.

Lemma findAll_passes o c pre rest :
  hasChar o pre = false -> findAll o c 0 (pre ++ rest) = findAll o c 0 rest.
Proof.
  induction pre as [| a pre IH]; intros H; [reflexivity |].
  cbn [hasChar] in H. apply orb_false_iff in H. destruct H as [H1 H2].
  cbn [append findAll].
  assert (N : matchAt o c (String a (pre ++ rest)) = None).
  { unfold matchAt. destruct (pre ++ rest); [reflexivity |]. rewrite H1. reflexivity. }
  rewrite N. exact (IH H2).
Qed.

Lemma findAll_first o c inner post :
  inner <> "" -> hasChar c inner = false ->
  exists more,
    findAll o c 0 (String o (String o (inner ++ String c (String c post)))) = inner :: more.
Proof.
  intros N H. cbn [findAll]. unfold matchAt. rewrite !Ascii.eqb_refl. cbn [andb].
  rewrite (span_exact c inner (String c post) H).
  destruct inner as [| x inner]; [congruence |].
  rewrite !Ascii.eqb_refl. cbn [andb]. eexists. reflexivity.
Qed.

Lemma uniqueNames_fold matches : uniqueNames matches = fold_left collect matches [].
Proof. reflexivity. Qed.

Lemma collect_NoDup matches :
  forall acc, NoDup acc -> NoDup (fold_left collect matches acc).
Proof.
  induction matches as [| m matches IH]; intros acc N; [exact N |].
  cbn [fold_left]. apply IH. unfold collect.
  destruct (negb (String.eqb (TrimSpace m) "")); cbn [andb]; [| exact N].
  destruct (member (TrimSpace m) acc) eqn:E; cbn [negb]; [exact N |].
  apply NoDup_snoc; [exact N |]. rewrite <- member_In, E. discriminate.
Qed.

Lemma collect_In matches :
  forall acc name, In name (fold_left collect matches acc) ->
    In name acc \/ (name <> "" /\ exists m, In m matches /\ TrimSpace m = name).
Proof.
  induction matches as [| m matches IH]; intros acc name I; [left; exact I |].
  cbn [fold_left] in I. apply IH in I. destruct I as [I | [N [m' [I E]]]].
  - unfold collect in I.
    destruct (String.eqb (TrimSpace m) "") eqn:Z; cbn [negb andb] in I; [left; exact I |].
    destruct (member (TrimSpace m) acc); cbn [negb] in I; [left; exact I |].
    apply in_app_or in I. destruct I as [I | [<- | []]]; [left; exact I |].
    right. split; [intros Q; rewrite Q in Z; discriminate Z |].
    exists m. split; [left; reflexivity | reflexivity].
  - right. split; [exact N |]. exists m'. split; [right; exact I | exact E].
Qed.

Lemma collect_head matches :
  forall a acc, exists more, fold_left collect matches (a :: acc) = a :: more.
Proof.
  induction matches as [| m matches IH]; intros a acc; [exists acc; reflexivity |].
  cbn [fold_left]. unfold collect at 2.
  destruct (negb (String.eqb (TrimSpace m) "") && negb (member (TrimSpace m) (a :: acc)));
    [apply (IH a (acc ++ [TrimSpace m])%list) | apply IH].
Qed.

(** X1.  What [extractLinks] returns: no name twice and no empty name; every
    name is without a closing bracket and is the trimmed text between [[[]
    and []]] somewhere in the content. *)
Theorem extractLinks_returns_trimmed_bracket_texts content :
  NoDup (extractLinks content)
  /\ forall name, In name (extractLinks content) ->
       name <> "" /\ hasChar "]" name = false
       /\ exists inner,
            TrimSpace inner = name /\ Contains content ("[[" ++ inner ++ "]]") = true.
Proof.
  split; [apply collect_NoDup; constructor |].
  intros name I. pose proof (extractLinks_lacks _ _ I) as L.
  unfold extractLinks in I. rewrite uniqueNames_fold in I.
  apply collect_In in I. destruct I as [[] | [N [m [I E]]]].
  split; [exact N |]. split; [exact L |].
  exists m. split; [exact E |]. exact (findAll_Contains _ _ _ _ _ I).
Qed.

(** X2.  What [extractBlockRefs] returns: no identifier twice and no empty
    one; every identifier is without a closing parenthesis and is the
    trimmed text between [((] and [))] somewhere in the content. *)
Theorem extractBlockRefs_returns_trimmed_reference_texts content :
  NoDup (extractBlockRefs content)
  /\ forall uuid, In uuid (extractBlockRefs content) ->
       uuid <> "" /\ hasChar ")" uuid = false
       /\ exists inner,
            TrimSpace inner = uuid /\ Contains content ("((" ++ inner ++ "))") = true.
Proof.
  split; [apply collect_NoDup; constructor |].
  intros uuid I.
  assert (L : hasChar ")" uuid = false).
  { revert I. unfold extractBlockRefs. apply uniqueNames_lacks.
    intros m J. exact (findAll_lacks _ _ _ _ _ J). }
  unfold extractBlockRefs in I. rewrite uniqueNames_fold in I.
  apply collect_In in I. destruct I as [[] | [N [m [I E]]]].
  split; [exact N |]. split; [exact L |].
  exists m. split; [exact E |]. exact (findAll_Contains _ _ _ _ _ I).
Qed.

Lemma extractLinks_none content : Contains content "[[" = false -> extractLinks content = [].
Proof. intros H. unfold extractLinks. rewrite (findAll_none _ _ _ H). reflexivity. Qed.

(** X3.  The first link of a content: when no opening bracket comes before
    it and the text between the brackets has no closing bracket and is not
    blank, its trimmed text is the first name [extractLinks] returns.  A
    content without [[[] has no link. *)
Theorem extractLinks_finds_the_first_link :
  (forall pre inner post,
      hasChar "[" pre = false -> hasChar "]" inner = false -> TrimSpace inner <> "" ->
      hd_error (extractLinks (pre ++ "[[" ++ inner ++ "]]" ++ post))
      = Some (TrimSpace inner))
  /\ (forall content, Contains content "[[" = false -> extractLinks content = []).
Proof.
  split.
  - intros pre inner post P B N. unfold extractLinks.
    rewrite (findAll_passes _ _ _ _ P).
    assert (NE : inner <> "") by (intros ->; apply N; reflexivity).
    replace ("[[" ++ inner ++ "]]" ++ post)
      with (String "[" (String "[" (inner ++ String "]" (String "]" post))))
      by reflexivity.
    destruct (findAll_first "[" "]" inner post NE B) as [more ->].
    rewrite uniqueNames_fold. cbn [fold_left]. unfold collect at 2.
    destruct (String.eqb (TrimSpace inner) "") eqn:Z;
      [apply String.eqb_eq in Z; contradiction |].
    cbn [negb andb member existsb app].
    destruct (collect_head more (TrimSpace inner) []) as [rest ->]. reflexivity.
  - exact extractLinks_none.
Qed.

Lemma isDate_inv sep name :
  isDate sep name = true ->
  exists y m d,
    name = y ++ String sep (m ++ String sep d)
    /\ String.length y = 4 /\ String.length m = 2 /\ String.length d = 2
    /\ allDigits (y ++ m ++ d) = true.
Proof.
  unfold isDate.
  destruct name as [| y1 [| y2 [| y3 [| y4 [| s1 [| m1 [| m2 [| s2 [| d1 [| d2 [| x r]]]]]]]]]]];
    cbn [list_ascii_of_string]; try discriminate.
  intros H. apply andb_true_iff in H. destruct H as [H E2].
  apply andb_true_iff in H. destruct H as [H E1].
  apply Ascii.eqb_eq in E1, E2. subst s1 s2.
  exists (String y1 (String y2 (String y3 (String y4 "")))),
    (String m1 (String m2 "")), (String d1 (String d2 "")).
  repeat split; try reflexivity. exact H.
Qed.

Lemma isDate_intro sep y m d :
  String.length y = 4 -> String.length m = 2 -> String.length d = 2 ->
  allDigits (y ++ m ++ d) = true ->
  isDate sep (y ++ String sep (m ++ String sep d)) = true.
Proof.
  intros Ly Lm Ld.
  destruct y as [| y1 [| y2 [| y3 [| y4 [| x r]]]]]; try discriminate Ly.
  destruct m as [| m1 [| m2 [| x r]]]; try discriminate Lm.
  destruct d as [| d1 [| d2 [| x r]]]; try discriminate Ld.
  unfold isDate, allDigits. cbn [append list_ascii_of_string]. intros H.
  rewrite H, !Ascii.eqb_refl. reflexivity.
Qed.

(** X4.  [IsJournalName] holds of exactly the names made of four, two and
    two ASCII digits with one and the same separator between them, a hyphen,
    an underscore or a slash; the digits are not checked to be a date. *)
Theorem IsJournalName_accepts_three_date_shapes name :
  IsJournalName name = true <->
  exists y m d sep,
    name = y ++ String sep (m ++ String sep d)
    /\ String.length y = 4 /\ String.length m = 2 /\ String.length d = 2
    /\ allDigits (y ++ m ++ d) = true
    /\ (sep = "-" \/ sep = "_" \/ sep = "/")%char.
Proof.
  unfold IsJournalName. split.
  - intros H.
    destruct (isDate "-" name) eqn:E1;
      [apply isDate_inv in E1; destruct E1 as (y & m & d & E);
       exists y, m, d, "-"%char; intuition |].
    destruct (isDate "_" name) eqn:E2;
      [apply isDate_inv in E2; destruct E2 as (y & m & d & E);
       exists y, m, d, "_"%char; intuition |].
    destruct (isDate "/" name) eqn:E3; [| discriminate H].
    apply isDate_inv in E3. destruct E3 as (y & m & d & E).
    exists y, m, d, "/"%char. intuition.
  - intros (y & m & d & sep & -> & Ly & Lm & Ld & D & S).
    pose proof (isDate_intro sep y m d Ly Lm Ld D) as I.
    destruct S as [-> | [-> | ->]]; rewrite I; [reflexivity | |].
    + destruct (isDate "-" _); reflexivity.
    + destruct (isDate "-" _); [reflexivity |]. destruct (isDate "_" _); reflexivity.
Qed.

(** ** The operations that make one call *)

Section SingleCalls.

Context {World : Type}.
Variable c : Client World.

Lemma Call_error method args (st : State World) :
  snd (fst (Call c method args st)) = failure c st (mkRequest method args).
Proof. unfold failure. rewrite Call_result. reflexivity. Qed.

Lemma Call_accepted method args (st : State World) w status body :
  client c (remote st) (mkRequest method args) = (w, Response status body) ->
  accepted status body = true ->
  fst (Call c method args st) = (body, None).
Proof.
  intros E A. rewrite Call_result, E. cbn [snd]. unfold accepted in A.
  apply andb_true_iff in A. destruct A as [A1 A2]. apply negb_true_iff in A1.
  cbn [outcome]. rewrite A1.
  destruct (unmarshalErrCheck body) as [[| x e] |]; try reflexivity. discriminate A2.
Qed.

(** X5.  [DeletePage], [UpsertProperty], [RemoveProperty], [DeleteBlock] and
    [RenamePage] send one request and nothing else, without looking the page
    or the block up first, and return the error of that call, if any;
    [RenamePage] puts its own words before it. *)
Theorem operations_of_one_call (st : State World) :
  (forall name,
      let req := mkRequest "logseq.Editor.deletePage" [Str name] in
      fst (DeletePage c name st) = failure c st req
      /\ sent (snd (DeletePage c name st)) = (sent st ++ [req])%list)
  /\ (forall uuid key v,
        let req := mkRequest "logseq.Editor.upsertBlockProperty" [Str uuid; Str key; v] in
        fst (UpsertProperty c uuid key v st) = failure c st req
        /\ sent (snd (UpsertProperty c uuid key v st)) = (sent st ++ [req])%list)
  /\ (forall uuid key,
        let req := mkRequest "logseq.Editor.removeBlockProperty" [Str uuid; Str key] in
        fst (RemoveProperty c uuid key st) = failure c st req
        /\ sent (snd (RemoveProperty c uuid key st)) = (sent st ++ [req])%list)
  /\ (forall uuid,
        let req := mkRequest "logseq.Editor.removeBlock" [Str uuid] in
        fst (DeleteBlock c uuid st) = failure c st req
        /\ sent (snd (DeleteBlock c uuid st)) = (sent st ++ [req])%list)
  /\ (forall uuid newName,
        let req := mkRequest "logseq.Editor.renamePage" [Str uuid; Str newName] in
        fst (RenamePage c uuid newName st)
        = option_map (fun e => Errorf "failed to rename page: " (Some e)) (failure c st req)
        /\ sent (snd (RenamePage c uuid newName st)) = (sent st ++ [req])%list).
Proof.
  repeat match goal with |- _ /\ _ => split end; intros; cbn zeta;
    unfold DeletePage, UpsertProperty, RemoveProperty, DeleteBlock, RenamePage, bind;
    match goal with |- context [Call c ?m ?a st] =>
      pose proof (Call_error m a st) as E; pose proof (Call_sent c m a st) as S;
      destruct (Call c m a st) as [[resp err] st1] end;
    cbn [fst snd] in E, S; subst err;
    (split; [| destruct (failure c st _); exact S]);
    destruct (failure c st _); reflexivity.
Qed.

(** X6.  [GetGraph] sends one request and returns a graph or an error, never
    neither; an accepted answer [null] decodes as the graph descriptor with
    an empty name and an empty path. *)
Theorem GetGraph_returns_a_graph_or_an_error (st : State World) :
  let req := mkRequest "logseq.App.getCurrentGraph" [] in
  sent (snd (GetGraph c st)) = (sent st ++ [req])%list
  /\ ((exists graph, fst (GetGraph c st) = (Some graph, None))
      \/ (exists e, fst (GetGraph c st) = (None, Some e)))
  /\ (forall w status,
        client c (remote st) req = (w, Response status "null") ->
        accepted status "null" = true ->
        fst (GetGraph c st) = (Some GraphInfo.zero, None)).
Proof.
  cbn zeta. unfold GetGraph, bind.
  pose proof (Call_sent c "logseq.App.getCurrentGraph" [] st) as S.
  pose proof (Call_result c "logseq.App.getCurrentGraph" [] st) as R.
  destruct (Call c "logseq.App.getCurrentGraph" [] st) as [[resp err] st1].
  cbn [fst snd] in S, R. split; [| split].
  - destruct err; [exact S |]. destruct (unmarshalGraph resp); exact S.
  - destruct err; [right; eexists; reflexivity |].
    destruct (unmarshalGraph resp); [left | right]; eexists; reflexivity.
  - intros w status E A. rewrite E in R. cbn [snd] in R.
    unfold accepted in A. apply andb_true_iff in A. destruct A as [A1 _].
    apply negb_true_iff in A1. cbn [outcome] in R. rewrite A1 in R.
    injection R as -> ->. reflexivity.
Qed.

(** X7.  [GetBlock] tells three answers apart: an accepted [null] is no
    block and no error; an accepted body that decodes as a block is that
    block; any other accepted body, the empty list among them, is a decoding
    error. *)
Theorem GetBlock_tells_absent_from_undecodable uuid (st : State World) w status body :
  client c (remote st) (getBlockRequest uuid) = (w, Response status body) ->
  accepted status body = true ->
  fst (GetBlock c uuid st)
  = (if String.eqb body "null" then (None, None)
     else match unmarshalBlock body with
          | Some block => (Some block, None)
          | None => (None, Some (Errorf "failed to parse block: " (Some JsonError)))
          end)
  /\ unmarshalBlock "[]" = None.
Proof.
  intros E A. split; [| reflexivity]. unfold GetBlock, bind.
  pose proof (Call_accepted "logseq.Editor.getBlock" [Str uuid; Bool true] st w status body E A)
    as R.
  destruct (Call c "logseq.Editor.getBlock" [Str uuid; Bool true] st) as [[resp err] st1].
  cbn [fst] in R. injection R as -> ->.
  destruct (String.eqb body "null"); [rewrite log_eq; reflexivity |].
  destruct (unmarshalBlock body); reflexivity.
Qed.

(** X8.  The requests of [Query]: the query to the first engine, and the
    same query to the second engine exactly when the first answer is
    accepted and is [[]] or [null].  When the second answer is accepted and
    is neither, the result is decoded from it. *)
Theorem Query_asks_the_second_engine_on_an_empty_answer datalog (st : State World) :
  let first := mkRequest "logseq.DB.q" [Str datalog] in
  let second := mkRequest "logseq.DB.datascriptQuery" [Str datalog] in
  let called := snd (Call c "logseq.DB.q" [Str datalog] st) in
  sent (snd (Query c datalog st))
  = (sent st ++ first ::
       match outcome (snd (client c (remote st) first)) with
       | (resp, None) => if isEmptyResult resp then [second] else []
       | _ => []
       end)%list
  /\ (forall w status body w' status' body',
        client c (remote st) first = (w, Response status body) ->
        accepted status body = true ->
        isEmptyResult body = true ->
        client c (remote called) second = (w', Response status' body') ->
        accepted status' body' = true ->
        isEmptyResult body' = false ->
        fst (Query c datalog st)
        = match unmarshalAny body' with
          | Some results => (flatten results, None)
          | None => (Null, Some (Errorf "failed to parse query results: " (Some JsonError)))
          end).
Proof.
  cbn zeta. unfold Query, bind.
  pose proof (Call_sent c "logseq.DB.q" [Str datalog] st) as S.
  pose proof (Call_result c "logseq.DB.q" [Str datalog] st) as R.
  destruct (Call c "logseq.DB.q" [Str datalog] st) as [[resp err] st1].
  cbn [fst snd] in S, R. split.
  - rewrite <- R. destruct err as [e |]; [exact S |].
    unfold isEmptyResult. rewrite (orb_comm (String.eqb resp "null")).
    destruct (String.eqb resp "[]" || String.eqb resp "null").
    + pose proof (Call_sent c "logseq.DB.datascriptQuery" [Str datalog] st1) as S2.
      destruct (Call c "logseq.DB.datascriptQuery" [Str datalog] st1) as [[respDS err2] st2].
      cbn [snd] in S2.
      assert (G : sent st2 = (sent st ++ [mkRequest "logseq.DB.q" [Str datalog];
                                         mkRequest "logseq.DB.datascriptQuery" [Str datalog]])%list)
        by (rewrite S2, S, <- app_assoc; reflexivity).
      destruct err2 as [e2 |].
      * cbn [ret]. destruct (unmarshalAny resp); exact G.
      * destruct (negb (String.eqb respDS "[]") && negb (String.eqb respDS "null"));
          cbn [ret]; [destruct (unmarshalAny respDS) | destruct (unmarshalAny resp)]; exact G.
    + cbn [ret]. destruct (unmarshalAny resp); exact S.
  - intros w status body w' status' body' E A N E' A' N'.
    rewrite E in R. cbn [snd] in R. rewrite (accepted_outcome _ _ A) in R.
    injection R as -> ->.
    unfold isEmptyResult in N. rewrite orb_comm in N. rewrite N.
    pose proof (Call_accepted "logseq.DB.datascriptQuery" [Str datalog] st1 w' status' body'
                  E' A') as R2.
    destruct (Call c "logseq.DB.datascriptQuery" [Str datalog] st1) as [[respDS err2] st2].
    cbn [fst] in R2. injection R2 as -> ->.
    unfold isEmptyResult in N'. apply orb_false_iff in N'. destruct N' as [N1 N2].
    rewrite N1, N2. cbn [negb andb ret]. destruct (unmarshalAny body'); reflexivity.
Qed.

End SingleCalls.

(** ** What the synchronisation sends *)

Section Requests.

Context {World : Type}.
Variable c : Client World.

Lemma extractBlockRefs_none content :
  Contains content "((" = false -> extractBlockRefs content = [].
Proof. intros H. unfold extractBlockRefs. rewrite (findAll_none _ _ _ H). reflexivity. Qed.

Lemma flat_map_nil {A B : Type} (f : A -> list B) l :
  (forall x, In x l -> f x = []) -> flat_map f l = [].
Proof.
  induction l as [| x l IH]; intros H; [reflexivity |].
  cbn [flat_map]. rewrite (H x (or_introl eq_refl)), IH; [reflexivity |].
  intros y I. apply H. right. exact I.
Qed.

Lemma linksOf_none content properties :
  (forall s, In s (content :: stringValues properties) -> Contains s "[[" = false) ->
  linksOf content properties = [].
Proof.
  intros H. unfold linksOf.
  pose proof extractLinks_none as E.
  rewrite (E content (H content (or_introl eq_refl))).
  rewrite flat_map_nil; [reflexivity |].
  intros s I. apply E, H. right. exact I.
Qed.

Lemma verifyRefs_sent refs :
  forall st : State World,
    sent (snd (verifyRefs c refs st)) = (sent st ++ map getBlockRequest refs)%list.
Proof.
  induction refs as [| uuid refs IH]; intros st; [cbn; rewrite app_nil_r; reflexivity |].
  cbn [verifyRefs map]. unfold bind.
  pose proof (GetBlock_sent c uuid st) as S.
  destruct (GetBlock c uuid st) as [[block err] st1]. cbn [snd] in S.
  assert (G : forall st2 : State World, sent st2 = sent st1 ->
              sent (snd (verifyRefs c refs st2))
              = (sent st ++ getBlockRequest uuid :: map getBlockRequest refs)%list).
  { intros st2 E. rewrite IH, E, S, <- app_assoc. reflexivity. }
  destruct err as [e |]; [| destruct block as [b |]].
  - rewrite log_eq. apply G. reflexivity.
  - apply G. reflexivity.
  - rewrite log_eq. apply G. reflexivity.
Qed.

(** X9.  A content and a property map in which no link starts: the
    synchronisation returns both as they are and sends one lookup for every
    block reference, in the order of the text, first those of the content,
    then those of the string values; whatever the store answers to them, the
    content stays.  When no reference starts either, it sends nothing and
    leaves the log alone. *)
Theorem EnsureLinkedPages_without_links_only_checks_references
    content properties (st : State World) :
  (forall s, In s (content :: stringValues properties) -> Contains s "[[" = false) ->
  let refs :=
    (extractBlockRefs content ++ flat_map extractBlockRefs (stringValues properties))%list in
  fst (EnsureLinkedPages c content properties st) = (content, properties)
  /\ sent (snd (EnsureLinkedPages c content properties st))
     = (sent st ++ map getBlockRequest refs)%list
  /\ ((forall s, In s (content :: stringValues properties) -> Contains s "((" = false) ->
      snd (EnsureLinkedPages c content properties st) = st).
Proof.
  intros H. cbn zeta. rewrite EnsureLinkedPages_eq, (linksOf_none _ _ H).
  cbn [resolveAll ret fst snd fold_left]. split; [reflexivity |]. split.
  - apply verifyRefs_sent.
  - intros R. rewrite (extractBlockRefs_none _ (R content (or_introl eq_refl))).
    rewrite flat_map_nil; [reflexivity |].
    intros s I. apply extractBlockRefs_none, R. right. exact I.
Qed.

Lemma levelRequests_of path o req :
  In req (levelRequests path o) -> req = getPageRequest path \/ req = createPageRequest path.
Proof.
  destruct o; cbn; intros I;
    repeat match goal with H : _ \/ _ |- _ => destruct H end;
    subst; auto; contradiction.
Qed.

Lemma materialize_requests link (st : State World) :
  exists new,
    sent (snd (materialize c link st)) = (sent st ++ new)%list
    /\ forall req, In req new -> levelRequestOf link req.
Proof.
  unfold materialize.
  destruct (ensureLevels_run c (Split link "/") 0 (List.length (Split link "/")) "" "" st
              eq_refl) as (outcomes & more & w & E & _).
  rewrite E. cbn [snd sent]. eexists. split; [reflexivity |].
  intros req I. unfold levelsRequests in I. apply in_flat_map in I.
  destruct I as [[p o] [I J]]. cbn [fst snd] in J.
  exists p. split; [exact (in_combine_l _ _ _ _ I) | exact (levelRequests_of _ _ _ J)].
Qed.

Lemma resolveAll_requests linkList :
  forall st : State World,
  exists new,
    sent (snd (resolveAll c linkList st)) = (sent st ++ new)%list
    /\ forall req, In req new -> exists link, In link linkList /\ levelRequestOf link req.
Proof.
  induction linkList as [| link rest IH]; intros st.
  - exists []. cbn. rewrite app_nil_r. split; [reflexivity | intros req []].
  - cbn [resolveAll]. unfold bind.
    destruct (materialize_requests link st) as (new1 & S1 & F1).
    destruct (materialize c link st) as [finalUUID st1]. cbn [snd] in S1.
    assert (G : forall st2 : State World, sent st2 = sent st1 ->
                exists new,
                  sent (snd (let (resolved, st3) := resolveAll c rest st2 in
                             ret ((link, finalUUID) :: resolved) st3))
                  = (sent st ++ new)%list
                  /\ forall req, In req new ->
                       exists l, In l (link :: rest) /\ levelRequestOf l req).
    { intros st2 E2. destruct (IH st2) as (new2 & S2 & F2).
      destruct (resolveAll c rest st2) as [resolved st3]. cbn [snd ret] in *.
      exists (new1 ++ new2)%list. split; [rewrite S2, E2, S1, app_assoc; reflexivity |].
      intros req I. apply in_app_or in I. destruct I as [I | I].
      - exists link. split; [left; reflexivity | exact (F1 req I)].
      - destruct (F2 req I) as [l [Il Ll]]. exists l. split; [right; exact Il | exact Ll]. }
    destruct (rewrites link finalUUID).
    + rewrite log_eq. apply G. reflexivity.
    + apply G. reflexivity.
Qed.

(** X10.  The synchronisation reads and creates, and does nothing else:
    every request it sends is the lookup of a level of one of the links of
    its input, the creation of such a level with no properties, or the
    lookup of a block.  It never updates or deletes a page or a block. *)
Theorem EnsureLinkedPages_only_looks_up_and_creates content properties (st : State World) :
  exists new,
    sent (snd (EnsureLinkedPages c content properties st)) = (sent st ++ new)%list
    /\ forall req, In req new ->
         (exists link, In link (linksOf content properties) /\ levelRequestOf link req)
         \/ (exists uuid, req = getBlockRequest uuid).
Proof.
  rewrite EnsureLinkedPages_eq. cbn zeta. cbn [snd].
  destruct (resolveAll_requests (linksOf content properties) st) as (new1 & S1 & F1).
  rewrite verifyRefs_sent, S1, <- app_assoc. eexists. split; [reflexivity |].
  intros req I. apply in_app_or in I. destruct I as [I | I]; [left; exact (F1 req I) |].
  right. apply in_map_iff in I. destruct I as [uuid [E _]]. exists uuid. symmetry. exact E.
Qed.

Lemma dedup_In_iff links l : In l (dedup links) <-> In l links.
Proof.
  split; [apply dedup_In |]. unfold dedup.
  assert (G : forall acc,
             In l acc \/ In l links ->
             In l (fold_left (fun linkList x =>
                                if member x linkList then linkList
                                else (linkList ++ [x])%list) links acc)).
  { induction links as [| x links IH]; intros acc [I | I]; try exact I; try destruct I.
    - cbn [fold_left]. apply IH. left. destruct (member x acc); [exact I |].
      apply in_or_app. left. exact I.
    - subst x. cbn [fold_left]. apply IH. left.
      destruct (member l acc) eqn:M; [apply member_In; exact M |].
      apply in_or_app. right. left. reflexivity.
    - cbn [fold_left]. apply IH. right. exact H. }
  intros I. apply G. right. exact I.
Qed.





End Requests.

(** ** Writing pages and blocks *)

Section Writes.

Context {World : Type}.
Variable c : Client World.

(** X13.  [CreatePage] with no properties returns a page or an error, never
    neither.  It sends the lookup of the name alone when that finds the
    page, which it returns; otherwise, a failed lookup included, it sends
    the lookup and one create call, and the page it then returns has an
    identifier that is not empty. *)
Theorem CreatePage_without_properties_returns_a_page_or_an_error
    name properties options (st : State World) :
  entries properties = [] ->
  let create :=
    mkRequest "logseq.Editor.createPage" ([Str name; Object []] ++ optional options) in
  let run := CreatePage c name properties options st in
  (exists page,
      fst (GetPage c name st) = (Some page, None)
      /\ fst run = (Some page, None)
      /\ sent (snd run) = (sent st ++ [getPageRequest name])%list)
  \/ ((forall page, fst (GetPage c name st) <> (Some page, None))
      /\ sent (snd run) = (sent st ++ [getPageRequest name; create])%list
      /\ ((exists page, fst run = (Some page, None) /\ Page.UUID page <> "")
          \/ (exists e, fst run = (None, Some e)))).
Proof.
  intros E. cbn zeta. unfold CreatePage, CreatePageWith, bind.
  assert (EP : entries (match properties with Some _ => properties | None => Some [] end) = [])
    by (destruct properties; [exact E | reflexivity]).
  rewrite EP. cbn [List.length Nat.ltb Nat.leb].
  pose proof (GetPage_sent c name st) as S.
  destruct (GetPage c name st) as [[existing err] st1]. cbn [fst snd] in S |- *.
  destruct err as [e |]; [| destruct existing as [page |]].
  2: { left. exists page. cbn [ret fst snd]. split; [reflexivity |].
       split; [reflexivity | exact S]. }
  all: right; split; [discriminate |]; rewrite log_eq;
    match goal with |- context [Call c ?m ?a ?s] =>
      pose proof (Call_sent c m a s) as S2; destruct (Call c m a s) as [[resp err2] st3] end;
    cbn [snd sent] in S2;
    assert (T : sent st3 = (sent st ++ [getPageRequest name;
                   mkRequest "logseq.Editor.createPage"
                     ([Str name; Object []] ++ optional options)])%list)
      by (rewrite S2, S, <- app_assoc; reflexivity);
    (destruct err2 as [e2 |];
     [ rewrite log_eq; cbn [ret fst snd sent]; split; [exact T |];
       right; eexists; reflexivity |]);
    (destruct (unmarshalPage resp) as [page |];
     [ destruct (String.eqb (Page.UUID page) "") eqn:U |]);
    [ rewrite log_eq; cbn [ret fst snd sent]; split; [exact T |];
      right; eexists; reflexivity
    | cbn [ret fst snd]; split; [exact T |]; left; exists page;
      split; [reflexivity |]; intros Q; rewrite Q in U; discriminate U
    | rewrite log_eq; cbn [ret fst snd sent]; split; [exact T |];
      right; eexists; reflexivity ].
Qed.

Lemma GetBlock_shape uuid (st : State World) block e :
  fst (GetBlock c uuid st) <> (Some block, Some e).
Proof.
  unfold GetBlock, bind.
  destruct (Call c "logseq.Editor.getBlock" [Str uuid; Bool true] st) as [[resp err] st1].
  destruct err as [e' |]; [discriminate |].
  destruct (String.eqb resp "null"); [rewrite log_eq; discriminate |].
  destruct (unmarshalBlock resp); discriminate.
Qed.

Lemma kept_length m m' : Forall2 kept m m' -> List.length m' = List.length m.
Proof. induction 1; cbn; congruence. Qed.

Lemma synchronised_length content properties (st : State World) :
  List.length (entries (snd (fst (EnsureLinkedPages c content properties st))))
  = List.length (entries properties).
Proof.
  rewrite EnsureLinkedPages_result. apply kept_length.
  exact (fold_rewritten_kept _ (content, properties)).
Qed.

(** X14.  [InsertBlock] returns a block together with an error in one case
    only: properties were given, the block was inserted, and applying the
    properties failed; the error then says so.  With no properties it sends
    the insert call alone after the synchronisation and returns the block
    decoded from the answer or an error, never neither. *)
Theorem InsertBlock_returns_block_and_error_when_properties_fail
    parentUUID content properties options (st : State World) :
  let sync := EnsureLinkedPages c content properties st in
  let insert :=
    mkRequest "logseq.Editor.insertBlock"
      ([Str parentUUID; Str (fst (fst sync))] ++ optional options) in
  let run := InsertBlock c parentUUID content properties options st in
  (forall block e,
      fst run = (Some block, Some e) ->
      entries properties <> []
      /\ failure c (snd sync) insert = None
      /\ exists cause, e = Errorf "block created but properties failed: " (Some cause))
  /\ (entries properties = [] ->
      sent (snd run) = (sent (snd sync) ++ [insert])%list
      /\ ((exists block, fst run = (Some block, None))
          \/ (exists e, fst run = (None, Some e)))).
Proof.
  cbn zeta. pose proof (synchronised_length content properties st) as L.
  unfold InsertBlock, bind.
  destruct (EnsureLinkedPages c content properties st) as [[content' properties'] st1].
  cbn [fst snd] in *.
  match goal with |- context [Call c ?m ?a st1] =>
    pose proof (Call_sent c m a st1) as S; pose proof (Call_error c m a st1) as F;
    destruct (Call c m a st1) as [[resp err] st2] end.
  cbn [fst snd] in S, F. rewrite <- F. split.
  - intros block e. destruct err as [e1 |]; [discriminate |].
    destruct (unmarshalBlock resp) as [b |]; [| discriminate].
    destruct (0 <? List.length (entries properties'))%nat eqn:P; [| discriminate].
    intros R. split; [| split; [reflexivity |]].
    + intros Q. rewrite L, Q in P. discriminate P.
    + destruct (UpdateBlock c (Block.UUID b) content' properties' st2) as [[u err2] st3].
      destruct err2 as [e2 |].
      * rewrite log_eq in R. cbn [ret fst] in R. injection R as _ <-. eexists. reflexivity.
      * exfalso. exact (GetBlock_shape _ _ _ _ R).
  - intros Q. rewrite Q in L. rewrite L. cbn [Nat.ltb Nat.leb].
    destruct err as [e1 |]; [split; [exact S | right; eexists; reflexivity] |].
    destruct (unmarshalBlock resp) as [b |]; cbn [ret fst snd]; (split; [exact S |]).
    + left. eexists. reflexivity.
    + right. eexists. reflexivity.
Qed.

Lemma BlockContent_induction (P : BlockContent -> Prop) :
  (forall content properties children,
      Forall P children -> P (mkBlockContent content properties children)) ->
  forall x, P x.
Proof.
  intros H. fix IH 1. intros [content properties children]. apply H.
  exact ((fix all (l : list BlockContent) : Forall P l :=
            match l with
            | [] => Forall_nil P
            | x :: r => Forall_cons x (IH x) (all r)
            end) children).
Qed.

Lemma scanBlock_eq content properties children (st : State World) :
  scanBlock c (mkBlockContent content properties children) st
  = (let (cp, st1) := EnsureLinkedPages c content properties st in
     let (children', st2) := scanBlocks c children st1 in
     (mkBlockContent (fst cp) (snd cp) children', st2)).
Proof.
  cbn [scanBlock]. unfold bind.
  destruct (EnsureLinkedPages c content properties st) as [[content' properties'] st1].
  cbn [fst snd].
  match goal with |- context [?f children st1] =>
    change (f children st1) with (scanBlocks c children st1) end.
  destruct (scanBlocks c children st1). reflexivity.
Qed.

Lemma kept_bare kv kv' : kept kv kv' -> bare kv' = bare kv.
Proof.
  destruct kv as [k v], kv' as [k' v']. unfold kept, bare. cbn [fst snd].
  intros [-> V]. f_equal. destruct v; try (subst v'; reflexivity).
  destruct V as [s' ->]. reflexivity.
Qed.

Lemma kept_map_bare m m' : Forall2 kept m m' -> map bare m' = map bare m.
Proof.
  induction 1 as [| kv kv' l l' K1 _ IH]; [reflexivity |].
  cbn [map]. rewrite (kept_bare _ _ K1), IH. reflexivity.
Qed.

Lemma synchronised_bare content properties (st : State World) :
  option_map (map bare) (snd (fst (EnsureLinkedPages c content properties st)))
  = option_map (map bare) properties.
Proof.
  rewrite EnsureLinkedPages_result.
  pose proof (fold_rewritten_kept
                (fst (resolveAll c (linksOf content properties) st)) (content, properties)) as K.
  pose proof (fold_rewritten_none
                (fst (resolveAll c (linksOf content properties) st)) (content, properties)) as N.
  cbn [snd] in K, N.
  destruct (snd (fold_left rewritten _ _)) as [m' |], properties as [m |]; cbn in *.
  - f_equal. exact (kept_map_bare _ _ K).
  - destruct N as [N _]. discriminate (N eq_refl).
  - destruct N as [_ N]. discriminate (N eq_refl).
  - reflexivity.
Qed.

Lemma scanBlocks_skeleton batch :
  Forall (fun x => forall st : State World, skeleton (fst (scanBlock c x st)) = skeleton x)
    batch ->
  forall st : State World, map skeleton (fst (scanBlocks c batch st)) = map skeleton batch.
Proof.
  induction 1 as [| x rest Hx _ IH]; intros st; [reflexivity |].
  cbn [scanBlocks]. unfold bind. specialize (Hx st).
  destruct (scanBlock c x st) as [x' st1]. specialize (IH st1).
  destruct (scanBlocks c rest st1) as [rest' st2]. cbn [ret fst map] in *.
  rewrite Hx, IH. reflexivity.
Qed.

Lemma scanBlock_skeleton x :
  forall st : State World, skeleton (fst (scanBlock c x st)) = skeleton x.
Proof.
  induction x as [content properties children IH] using BlockContent_induction.
  intros st. rewrite scanBlock_eq.
  pose proof (synchronised_bare content properties st) as B.
  destruct (EnsureLinkedPages c content properties st) as [[content' properties'] st1].
  pose proof (scanBlocks_skeleton children IH st1) as C.
  destruct (scanBlocks c children st1) as [children' st2]. cbn [fst snd skeleton] in *.
  rewrite B, C. reflexivity.
Qed.

(** X15.  [InsertBatchBlock] submits the tree it was given: the
    synchronisation of the blocks changes texts only, so the tree sent has
    the blocks, the children, the property keys and the values that are not
    strings of the tree given.  After the synchronisation it sends one batch
    call, with the synchronised tree; when that call fails or its answer
    does not decode, it returns no block. *)
Theorem InsertBatchBlock_submits_the_tree_it_was_given
    parentUUID batch options (st : State World) :
  let scan := scanBlocks c batch st in
  let run := InsertBatchBlock c parentUUID batch options st in
  map skeleton (fst scan) = map skeleton batch
  /\ sent (snd run)
     = (sent (snd scan)
        ++ [mkRequest "logseq.Editor.insertBatchBlock"
              ([Str parentUUID; Array (map marshalBlockContent (fst scan))]
               ++ optional options)])%list
  /\ (forall blocks e, fst run = (blocks, Some e) -> blocks = []).
Proof.
  cbn zeta. split; [| split].
  - apply scanBlocks_skeleton. apply Forall_forall. intros x _. apply scanBlock_skeleton.
  - unfold InsertBatchBlock, bind. destruct (scanBlocks c batch st) as [batch' st1].
    cbn [fst snd].
    match goal with |- context [Call c ?m ?a st1] =>
      pose proof (Call_sent c m a st1) as S; destruct (Call c m a st1) as [[resp err] st2] end.
    cbn [snd] in S. destruct err; [exact S |]. destruct (unmarshalBlocks resp); exact S.
  - intros blocks e. unfold InsertBatchBlock, bind.
    destruct (scanBlocks c batch st) as [batch' st1].
    match goal with |- context [Call c ?m ?a st1] =>
      destruct (Call c m a st1) as [[resp err] st2] end.
    destruct err; [intros R; injection R as <- _; reflexivity |].
    destruct (unmarshalBlocks resp); [discriminate |].
    intros R. injection R as <- _. reflexivity.
Qed.

End Writes.

(** ** Tags and namespaces *)

Section Tags.

Context {World : Type}.
Variable c : Client World.

Lemma AppendBlockInPage_shape pageName content options (st : State World) :
  (exists block, fst (AppendBlockInPage c pageName content options st) = (Some block, None))
  \/ (exists e, fst (AppendBlockInPage c pageName content options st) = (None, Some e)).
Proof.
  unfold AppendBlockInPage, bind.
  destruct (EnsureLinkedPages c content None st) as [[content' properties'] st1].
  match goal with |- context [Call c ?m ?a st1] =>
    destruct (Call c m a st1) as [[resp err] st2] end.
  destruct err; [right; eexists; reflexivity |].
  destruct (unmarshalBlock resp); [left | right]; eexists; reflexivity.
Qed.

Lemma getEntityBlock_shape uuid (st : State World) :
  (exists block, fst (getEntityBlock c uuid st) = (Some block, None))
  \/ (exists e, fst (getEntityBlock c uuid st) = (None, Some e)).
Proof.
  unfold getEntityBlock, bind.
  destruct (GetBlock c uuid st) as [[block err] st1].
  destruct err as [e |]; [right; eexists; reflexivity |].
  destruct block as [block |]; [left; eexists; reflexivity |].
  destruct (GetPage c uuid st1) as [[page err] st2].
  destruct err as [e |]; [right; eexists; reflexivity |].
  destruct page as [page |]; [| right; eexists; reflexivity].
  destruct (GetBlock c (Page.UUID page) st2) as [[block err] st3].
  destruct err as [e |]; [right; eexists; reflexivity |].
  destruct block as [block |]; [left; eexists; reflexivity |].
  destruct (Call c "logseq.Editor.getPageBlocksTree" [Str (Page.UUID page)] st3)
    as [[blocksRaw err] st4].
  destruct (firstBlock blocksRaw err); [left | right]; eexists; reflexivity.
Qed.

(** X16.  [getEntityBlock] returns a block or an error, never neither and
    never both.  It only reads: it sends the lookup of the block and at most
    three more lookups, of the page, of the block of the page and of the
    blocks of the page.  When the first lookup finds the block, that is all
    it sends.  When that finds nothing and the lookup of the page fails or
    finds nothing, the error is [entity not found], whatever the lookup of
    the page failed with. *)
Theorem getEntityBlock_returns_a_block_or_an_error uuid (st : State World) :
  let run := getEntityBlock c uuid st in
  ((exists block, fst run = (Some block, None)) \/ (exists e, fst run = (None, Some e)))
  /\ (exists more,
        sent (snd run) = (sent st ++ getBlockRequest uuid :: more)%list
        /\ List.length more <= 3
        /\ forallb isLookup (getBlockRequest uuid :: more) = true)
  /\ (forall block,
        fst (GetBlock c uuid st) = (Some block, None) ->
        fst run = (Some block, None)
        /\ sent (snd run) = (sent st ++ [getBlockRequest uuid])%list)
  /\ (fst (GetBlock c uuid st) = (None, None) ->
      (forall page, fst (GetPage c uuid (snd (GetBlock c uuid st))) <> (Some page, None)) ->
      fst run = (None, Some (Errorf ("entity not found: " ++ uuid) None))).
Proof.
  cbn zeta. split; [apply getEntityBlock_shape |].
  unfold getEntityBlock, bind.
  pose proof (GetBlock_sent c uuid st) as S1.
  destruct (GetBlock c uuid st) as [[block err] st1]. cbn [fst snd] in *.
  split; [| split].
  - destruct err as [e |]; [exists []; split; [exact S1 | split; [cbn; lia | reflexivity]] |].
    destruct block as [block |];
      [exists []; split; [exact S1 | split; [cbn; lia | reflexivity]] |].
    pose proof (GetPage_sent c uuid st1) as S2.
    destruct (GetPage c uuid st1) as [[page err] st2]. cbn [snd] in S2.
    assert (T2 : sent st2 = (sent st ++ [getBlockRequest uuid; getPageRequest uuid])%list)
      by (rewrite S2, S1, <- app_assoc; reflexivity).
    destruct err as [e |];
      [eexists; split; [exact T2 | split; [cbn; lia | reflexivity]] |].
    destruct page as [page |];
      [| eexists; split; [exact T2 | split; [cbn; lia | reflexivity]]].
    pose proof (GetBlock_sent c (Page.UUID page) st2) as S3.
    destruct (GetBlock c (Page.UUID page) st2) as [[block err] st3]. cbn [snd] in S3.
    assert (T3 : sent st3 = (sent st ++ [getBlockRequest uuid; getPageRequest uuid;
                                         getBlockRequest (Page.UUID page)])%list)
      by (rewrite S3, T2, <- app_assoc; reflexivity).
    destruct err as [e |];
      [eexists; split; [exact T3 | split; [cbn; lia | reflexivity]] |].
    destruct block as [block |];
      [eexists; split; [exact T3 | split; [cbn; lia | reflexivity]] |].
    pose proof (Call_sent c "logseq.Editor.getPageBlocksTree" [Str (Page.UUID page)] st3) as S4.
    destruct (Call c "logseq.Editor.getPageBlocksTree" [Str (Page.UUID page)] st3)
      as [[blocksRaw err] st4]. cbn [snd] in S4.
    assert (T4 : sent st4 = (sent st ++ [getBlockRequest uuid; getPageRequest uuid;
                                         getBlockRequest (Page.UUID page);
                                         mkRequest "logseq.Editor.getPageBlocksTree"
                                           [Str (Page.UUID page)]])%list)
      by (rewrite S4, T3, <- app_assoc; reflexivity).
    destruct (firstBlock blocksRaw err);
      (eexists; split; [exact T4 | split; [cbn; lia | reflexivity]]).
  - intros b E. injection E as -> ->. split; [reflexivity | exact S1].
  - intros E N. injection E as -> ->.
    destruct (GetPage c uuid st1) as [[page err] st2]. cbn [fst] in N.
    destruct err as [e |]; [reflexivity |].
    destruct page as [page |]; [exfalso; exact (N page eq_refl) | reflexivity].
Qed.

(** X17.  [AddTag] and [RemoveTag] read the content of the block they get
    without a test for nil.  That is safe, they never panic:
    [AppendBlockInPage], like [getEntityBlock], returns a block whenever
    it returns no error. *)
Theorem tag_operations_never_panic (st : State World) :
  (forall uuid tag,
      fst (AddTag c uuid tag st) <> Panicked /\ fst (RemoveTag c uuid tag st) <> Panicked)
  /\ (forall pageName content options,
        (exists block,
            fst (AppendBlockInPage c pageName content options st) = (Some block, None))
        \/ (exists e, fst (AppendBlockInPage c pageName content options st) = (None, Some e))).
Proof.
  split; [| intros; apply AppendBlockInPage_shape]. intros uuid tag. split.
  - unfold AddTag, bind. pose proof (getEntityBlock_shape uuid st) as G.
    destruct (getEntityBlock c uuid st) as [[block err] st1]. cbn [fst] in G.
    destruct G as [[b G] | [e G]]; injection G as -> ->.
    + cbn [ret]. destruct (Contains (Block.Content b) _); [discriminate |].
      destruct (UpdateBlock c _ _ _ st1) as [[u err] st2]. discriminate.
    + destruct (Contains (errorText e) "failed to find content block");
        [| discriminate].
      pose proof (AppendBlockInPage_shape uuid "" None st1) as A.
      destruct (AppendBlockInPage c uuid "" None st1) as [[block err] st2]. cbn [fst] in A.
      destruct A as [[b A] | [e' A]]; injection A as -> ->; [| discriminate].
      destruct (Contains (Block.Content b) _); [discriminate |].
      destruct (UpdateBlock c _ _ _ st2) as [[u err] st3]. discriminate.
  - unfold RemoveTag, bind. pose proof (getEntityBlock_shape uuid st) as G.
    destruct (getEntityBlock c uuid st) as [[block err] st1]. cbn [fst] in G.
    destruct G as [[b G] | [e G]]; injection G as -> ->; [| discriminate].
    destruct (negb (Contains (Block.Content b) _)); [discriminate |].
    destruct (UpdateBlock c _ _ _ st1) as [[u err] st2]. discriminate.
Qed.


(** X18.  A block that holds the text of the tag, be it as a part of a
    longer tag, is left alone by [AddTag]: nothing is sent after the block
    was fetched and no error is returned.  A block that does not hold it is
    left alone by [RemoveTag]. *)
Theorem AddTag_leaves_a_tagged_block_alone uuid tag (st : State World) block :
  fst (getEntityBlock c uuid st) = (Some block, None) ->
  let fetched := snd (getEntityBlock c uuid st) in
  (Contains (Block.Content block) (tagText tag) = true ->
   AddTag c uuid tag st = (Returned None, fetched))
  /\ (Contains (Block.Content block) (tagText tag) = false ->
      RemoveTag c uuid tag st = (Returned None, fetched)).
Proof.
  intros G. cbn zeta. unfold AddTag, RemoveTag, bind.
  destruct (getEntityBlock c uuid st) as [[b err] st1]. cbn [fst snd] in *.
  injection G as -> ->. cbn [ret]. fold (tagText tag).
  split; intros T; rewrite T; reflexivity.
Qed.

(** X19.  A tag may be given with or without its number sign: both mean the
    same to [AddTag] and to [RemoveTag]. *)
Theorem tag_operations_ignore_a_leading_number_sign uuid tag (st : State World) :
  HasPrefix tag "#" = false ->
  AddTag c uuid ("#" ++ tag) st = AddTag c uuid tag st
  /\ RemoveTag c uuid ("#" ++ tag) st = RemoveTag c uuid tag st.
Proof.
  intros H.
  assert (E1 : TrimPrefix ("#" ++ tag) "#" = tag).
  { unfold TrimPrefix, HasPrefix. cbn [append]. rewrite prefix_cons_eq, prefix_nil_l.
    reflexivity. }
  assert (E2 : TrimPrefix tag "#" = tag) by (unfold TrimPrefix; rewrite H; reflexivity).
  unfold AddTag, RemoveTag. rewrite E1, E2. split; reflexivity.
Qed.

Lemma Query_result_of_remote datalog (st st' : State World) :
  remote st = remote st' -> fst (Query c datalog st) = fst (Query c datalog st').
Proof.
  intros E. unfold Query, bind.
  destruct (Call_run c "logseq.DB.q" [Str datalog] st) as [m1 ->].
  destruct (Call_run c "logseq.DB.q" [Str datalog] st') as [m1' ->].
  rewrite <- E. destruct (outcome _) as [resp [e |]]; [reflexivity |].
  destruct (String.eqb resp "[]" || String.eqb resp "null").
  - match goal with |- context [Call c ?m ?a ?s] =>
      destruct (Call_run c m a s) as [m2 ->] end.
    match goal with |- context [Call c ?m ?a ?s] =>
      destruct (Call_run c m a s) as [m2' ->] end.
    cbn [remote]. destruct (outcome _) as [respDS [e |]].
    + cbn [ret]. destruct (unmarshalAny resp); reflexivity.
    + destruct (negb (String.eqb respDS "[]") && negb (String.eqb respDS "null"));
        cbn [ret]; [destruct (unmarshalAny respDS) | destruct (unmarshalAny resp)];
        reflexivity.
  - cbn [ret]. destruct (unmarshalAny resp); reflexivity.
Qed.

Lemma putName_NoDup rows :
  forall acc, NoDup acc -> NoDup (fold_left putName rows acc).
Proof.
  induction rows as [| res rows IH]; intros acc N; [exact N |].
  cbn [fold_left]. apply IH. unfold putName.
  destruct (negb (String.eqb (rowName res) "")); cbn [andb]; [| exact N].
  destruct (member (rowName res) acc) eqn:E; cbn [negb]; [exact N |].
  apply NoDup_snoc; [exact N |]. rewrite <- member_In, E. discriminate.
Qed.

Lemma putName_In rows :
  forall acc name,
    In name (fold_left putName rows acc)
    <-> In name acc \/ (name <> "" /\ exists res, In res rows /\ rowName res = name).
Proof.
  induction rows as [| res rows IH]; intros acc name.
  - cbn. split; [auto |]. intros [I | [_ [res [[] _]]]]. exact I.
  - cbn [fold_left]. rewrite IH. unfold putName.
    destruct (String.eqb (rowName res) "") eqn:Z; cbn [negb andb].
    + apply String.eqb_eq in Z. split.
      * intros [I | [N [r [I E]]]]; [left; exact I |].
        right. split; [exact N |]. exists r. split; [right; exact I | exact E].
      * intros [I | [N [r [[<- | I] E]]]]; [left; exact I | congruence |].
        right. split; [exact N |]. exists r. split; [exact I | exact E].
    + assert (NZ : rowName res <> "") by (intros Q; rewrite Q in Z; discriminate Z).
      destruct (member (rowName res) acc) eqn:M; cbn [negb].
      * apply member_In in M. split.
        -- intros [I | [N [r [I E]]]]; [left; exact I |].
           right. split; [exact N |]. exists r. split; [right; exact I | exact E].
        -- intros [I | [N [r [[<- | I] E]]]]; [left; exact I | left; subst; exact M |].
           right. split; [exact N |]. exists r. split; [exact I | exact E].
      * rewrite in_app_iff. cbn [In]. split.
        -- intros [[I | [<- | []]] | [N [r [I E]]]].
           ++ left; exact I.
           ++ right. split; [exact NZ |]. exists res. split; [left; reflexivity | reflexivity].
           ++ right. split; [exact N |]. exists r. split; [right; exact I | exact E].
        -- intros [I | [N [r [[<- | I] E]]]].
           ++ left. left. exact I.
           ++ left. right. left. exact E.
           ++ right. split; [exact N |]. exists r. split; [exact I | exact E].
Qed.

(** X20.  [ListNamespaces] never returns an error: when its query fails, or
    answers with something that is not a list, it returns no name.
    Otherwise it returns, once each, the names of the rows of the answer
    that are not empty, a row being a string or a list that starts with a
    string. *)
Theorem ListNamespaces_never_fails (st : State World) :
  let run := fst (ListNamespaces c st) in
  let answer := fst (Query c namespacesQuery st) in
  snd run = None
  /\ NoDup (fst run)
  /\ (forall rows,
        answer = (Array rows, None) ->
        forall name,
          In name (fst run)
          <-> name <> "" /\ exists res, In res rows /\ rowName res = name)
  /\ ((forall rows, answer <> (Array rows, None)) -> fst run = []).
Proof.
  cbn zeta. unfold ListNamespaces, bind.
  rewrite (Query_result_of_remote namespacesQuery st
             (snd (log c Debug "ListNamespaces Query" [("query", Str namespacesQuery)] st)))
    by (rewrite log_eq; reflexivity).
  destruct (log c Debug _ _ st) as [u st1]. cbn [snd].
  destruct (Query c namespacesQuery st1) as [[results err] st2]. cbn [ret fst snd].
  split; [reflexivity |]. split; [| split].
  - destruct err; [constructor |].
    destruct results; try constructor. apply putName_NoDup. constructor.
  - intros rows E name. injection E as -> ->. rewrite putName_In. cbn [In].
    split; [intros [[] | H]; exact H | intros H; right; exact H].
  - intros N. destruct err; [reflexivity |].
    destruct results; try reflexivity. exfalso. exact (N _ eq_refl).
Qed.

End Tags.

(** ** Decoding a reference *)

(** X21.  [EntityRef.UnmarshalJSON] reads an identifier that is a bare
    integer and one inside an object alike, leaving the other field as it
    was; a number that is not a 64-bit integer is an error in both
    encodings, and so is a string.  A [null] sets the identifier to zero. *)
Theorem EntityRef_UnmarshalJSON_reads_both_encodings e lit :
  EntityRef.UnmarshalJSON e (Number lit)
  = option_map (fun id => EntityRef.mk id (EntityRef.UUID e)) (parseInt lit)
  /\ EntityRef.UnmarshalJSON e (Object [("id", Number lit)])
     = EntityRef.UnmarshalJSON e (Number lit)
  /\ (forall uuid,
        EntityRef.UnmarshalJSON e (Object [("id", Number lit); ("uuid", Str uuid)])
        = option_map (fun id => EntityRef.mk id uuid) (parseInt lit))
  /\ EntityRef.UnmarshalJSON e Null = Some (EntityRef.mk 0 (EntityRef.UUID e))
  /\ (forall s, EntityRef.UnmarshalJSON e (Str s) = None).
Proof.
  assert (Sid : forall x,
             EntityRef.setField x "id" (Number lit)
             = option_map (fun id => EntityRef.mk id (EntityRef.UUID x)) (parseInt lit)).
  { intros x. unfold EntityRef.setField.
    replace (isField "id" "id") with true by reflexivity. reflexivity. }
  assert (Suuid : forall x uuid,
             EntityRef.setField x "uuid" (Str uuid) = Some (EntityRef.mk (EntityRef.ID x) uuid)).
  { intros x uuid. unfold EntityRef.setField.
    replace (isField "id" "uuid") with false by reflexivity.
    replace (isField "uuid" "uuid") with true by reflexivity. reflexivity. }
  unfold EntityRef.UnmarshalJSON. cbn [intField decodeStruct fold_left fst snd].
  rewrite !Sid.
  split; [| split; [| split; [| split]]].
  - destruct (parseInt lit); reflexivity.
  - destruct (parseInt lit); reflexivity.
  - intros uuid. destruct (parseInt lit) as [id |]; cbn [option_map]; [| reflexivity].
    rewrite Suuid. reflexivity.
  - reflexivity.
  - reflexivity.
Qed.

(** ** Decoding a page *)

Lemma mapGet_mapSet k k' v m :
  mapGet k (mapSet k' v m) = if String.eqb k k' then Some v else mapGet k m.
Proof.
  induction m as [| [k1 v1] m IH]; cbn [mapSet mapGet]; [reflexivity |].
  destruct (String.eqb k' k1) eqn:E1; cbn [mapGet].
  - apply String.eqb_eq in E1. subst k1. destruct (String.eqb k k'); reflexivity.
  - rewrite IH. destruct (String.eqb k k1) eqn:E2; [| reflexivity].
    apply String.eqb_eq in E2. subst k1. rewrite String.eqb_sym, E1. reflexivity.
Qed.

Lemma mapSet_keys k v m k' :
  In k' (map fst (mapSet k v m)) <-> k' = k \/ In k' (map fst m).
Proof.
  induction m as [| [k1 v1] m IH]; cbn [mapSet map fst In].
  - intuition.
  - destruct (String.eqb k k1) eqn:E; cbn [map fst In].
    + apply String.eqb_eq in E. subst k1. intuition.
    + rewrite IH. intuition.
Qed.

Lemma mapSet_NoDup k v m : NoDup (map fst m) -> NoDup (map fst (mapSet k v m)).
Proof.
  induction m as [| [k1 v1] m IH]; cbn [mapSet map fst]; intros N.
  - constructor; [intros [] | constructor].
  - inversion N as [| ? ? N1 N2]; subst.
    destruct (String.eqb k k1) eqn:E; cbn [map fst].
    + apply String.eqb_eq in E. subst k1. constructor; assumption.
    + constructor; [| exact (IH N2)].
      rewrite mapSet_keys. intros [Q | I]; [| contradiction].
      subst k1. rewrite String.eqb_refl in E. discriminate E.
Qed.

Lemma fold_mapSet_NoDup {A : Type} (key : A -> string) (val : A -> value) l :
  forall acc, NoDup (map fst acc) ->
    NoDup (map fst (fold_left (fun m x => mapSet (key x) (val x) m) l acc)).
Proof.
  induction l as [| x l IH]; intros acc N; [exact N |].
  cbn [fold_left]. apply IH, mapSet_NoDup, N.
Qed.

Lemma mapGet_None k m : ~ In k (map fst m) -> mapGet k m = None.
Proof.
  induction m as [| [k1 v1] m IH]; intros N; [reflexivity |].
  cbn [mapGet]. destruct (String.eqb k k1) eqn:E.
  - apply String.eqb_eq in E. subst k1. exfalso. apply N. left. reflexivity.
  - apply IH. intros I. apply N. right. exact I.
Qed.

Lemma mapGet_app k (m1 m2 : Props) :
  mapGet k (m1 ++ m2)%list
  = match mapGet k m1 with Some v => Some v | None => mapGet k m2 end.
Proof.
  induction m1 as [| [k1 v1] m1 IH]; [reflexivity |].
  cbn [app mapGet]. destruct (String.eqb k k1); [reflexivity | exact IH].
Qed.

(** Merging a map over another: the keys of the first win. *)
Lemma merge_get k m :
  NoDup (map fst m) ->
  forall acc,
    mapGet k (fold_left (fun a kv => mapSet (fst kv) (snd kv) a) m acc)
    = match mapGet k m with Some v => Some v | None => mapGet k acc end.
Proof.
  induction m as [| [k1 v1] m IH]; intros N acc; [reflexivity |].
  inversion N as [| ? ? N1 N2]; subst. cbn [fold_left fst snd mapGet].
  rewrite (IH N2), mapGet_mapSet. destruct (String.eqb k k1) eqn:E; [| reflexivity].
  apply String.eqb_eq in E. subst k1. rewrite (mapGet_None _ _ N1). reflexivity.
Qed.

(** Of two members with one key the later one stays. *)
Lemma mapOf_get k l :
  forall acc,
    mapGet k (fold_left (fun m kv => mapSet (fst kv) (snd kv) m) l acc)
    = match mapGet k (List.rev l) with Some v => Some v | None => mapGet k acc end.
Proof.
  induction l as [| [k1 v1] l IH]; intros acc; [reflexivity |].
  cbn [fold_left fst snd List.rev]. rewrite IH, mapGet_app, mapGet_mapSet. cbn [mapGet].
  destruct (mapGet k (List.rev l)); [reflexivity |]. destruct (String.eqb k k1); reflexivity.
Qed.

Lemma mapGet_filter (f : string -> bool) k m :
  mapGet k (filter (fun kv => f (fst kv)) m) = if f k then mapGet k m else None.
Proof.
  induction m as [| [k1 v1] m IH]; cbn [filter fst mapGet]; [destruct (f k); reflexivity |].
  destruct (f k1) eqn:F; cbn [mapGet]; destruct (String.eqb k k1) eqn:E.
  - apply String.eqb_eq in E. subst k1. rewrite F. reflexivity.
  - exact IH.
  - apply String.eqb_eq in E. subst k1. rewrite IH, F. reflexivity.
  - exact IH.
Qed.

Lemma filter_keys_NoDup (f : string * value -> bool) m :
  NoDup (map fst m) -> NoDup (map fst (filter f m)).
Proof.
  induction m as [| kv m IH]; intros N; [constructor |].
  inversion N as [| ? ? N1 N2]; subst. cbn [filter].
  destruct (f kv); cbn [map]; [| exact (IH N2)].
  constructor; [| exact (IH N2)]. intros I. apply N1.
  apply in_map_iff in I. destruct I as [x [E I]]. apply filter_In in I.
  apply in_map_iff. exists x. split; [exact E | apply I].
Qed.

Lemma mapGet_values (g : value -> value) k l :
  mapGet k (map (fun kv => (fst kv, g (snd kv))) l) = option_map g (mapGet k l).
Proof.
  induction l as [| [k1 v1] l IH]; [reflexivity |].
  cbn [map fst snd mapGet]. destruct (String.eqb k k1); [reflexivity | exact IH].
Qed.

Lemma Page_setField_keys p k v p' :
  NoDup (map fst (entries (Page.Properties p))) ->
  Page.setField p k v = Some p' ->
  NoDup (map fst (entries (Page.Properties p'))).
Proof.
  intros N. unfold Page.setField.
  repeat match goal with
         | |- context [if isField ?t k then _ else _] => destruct (isField t k)
         end;
    try (match goal with |- option_map _ ?x = _ -> _ => destruct x end;
         cbn [option_map]; intros E; [injection E as <-; exact N | discriminate E]).
  - unfold mapField. destruct v; try discriminate.
    + cbn [option_map]. intros E. injection E as <-. constructor.
    + destruct (anyOk (Object members)); [| discriminate]. cbn [option_map].
      intros E. injection E as <-. cbn [Page.Properties entries].
      apply (fold_mapSet_NoDup fst (fun kv => toAny (snd kv))).
      destruct (Page.Properties p); [exact N | constructor].
  - intros E. injection E as <-. exact N.
Qed.

Lemma Page_decode_keys members :
  forall acc p1,
    match acc with
    | Some p => NoDup (map fst (entries (Page.Properties p)))
    | None => True
    end ->
    fold_left
      (fun acc kv =>
         match acc with
         | Some t => Page.setField t (fst kv) (snd kv)
         | None => None
         end) members acc = Some p1 ->
    NoDup (map fst (entries (Page.Properties p1))).
Proof.
  induction members as [| kv members IH]; intros acc p1 N E.
  - cbn in E. subst acc. exact N.
  - cbn [fold_left] in E. refine (IH _ p1 _ E).
    destruct acc as [p |]; [| exact I].
    destruct (Page.setField p (fst kv) (snd kv)) as [p' |] eqn:S; [| exact I].
    exact (Page_setField_keys _ _ _ _ N S).
Qed.

(** X22.  What [Page.UnmarshalJSON] makes of an object: the fields are those
    of the plain decoding, and [Properties] is a map, never nil, in which a
    key has the value of the explicit [properties] if it is one of them;
    otherwise, if it is not the name of a known field, the value of the last
    member of the object with that key; otherwise none. *)
Theorem Page_UnmarshalJSON_collects_the_other_members members p1 :
  decodeStruct Page.setField Page.zero (Object members) = Some p1 ->
  anyOk (Object members) = true ->
  exists merged,
    Page.UnmarshalJSON Page.zero (Object members)
    = Some (Page.mk (Page.ID p1) (Page.UUID p1) (Page.Name p1) (Page.OriginalName p1)
              (Some merged) (Page.Journal p1))
    /\ NoDup (map fst merged)
    /\ forall k,
         mapGet k merged
         = match mapGet k (entries (Page.Properties p1)) with
           | Some v => Some v
           | None =>
               if Page.known k then None else option_map toAny (mapGet k (List.rev members))
           end.
Proof.
  intros D A. unfold Page.UnmarshalJSON. rewrite D, A.
  assert (N1 : NoDup (map fst (entries (Page.Properties p1)))).
  { unfold decodeStruct in D. refine (Page_decode_keys members (Some Page.zero) p1 _ D).
    constructor. }
  set (raw := mapOf (map (fun kv => (fst kv, toAny (snd kv))) members)).
  set (extra := filter (fun kv => negb (Page.known (fst kv))) raw).
  assert (NR : NoDup (map fst raw)).
  { unfold raw, mapOf. apply (fold_mapSet_NoDup fst snd). constructor. }
  assert (NE : NoDup (map fst extra)) by (apply filter_keys_NoDup, NR).
  assert (GE : forall k, mapGet k extra
                         = if Page.known k then None
                           else option_map toAny (mapGet k (List.rev members))).
  { intros k. unfold extra.
    rewrite (mapGet_filter (fun k => negb (Page.known k))).
    destruct (Page.known k); [reflexivity |]. cbn [negb].
    unfold raw, mapOf. rewrite mapOf_get, <- map_rev, mapGet_values.
    destruct (mapGet k (List.rev members)); reflexivity. }
  eexists. split; [reflexivity |].
  destruct (Page.Properties p1) as [m |]; cbn [entries] in *.
  - split; [apply (fold_mapSet_NoDup fst snd), NE |].
    intros k. rewrite (merge_get k m N1), GE. reflexivity.
  - split; [exact NE |]. intros k. rewrite GE. reflexivity.
Qed.

(** ** Adding a tag and removing it again *)

Section TrimFacts.

Variable pats : list string.




End TrimFacts.
















Lemma replace_absent old new s :
  Contains s old = false -> replaceFrom old new 0 s = s.
Proof.
  induction s as [| a s IH]; intros H; [reflexivity |].
  cbn [Contains] in H. apply orb_false_iff in H. destruct H as [H1 H2].
  cbn [replaceFrom]. rewrite H1, (IH H2). reflexivity.
Qed.

Section TagRoundTrip.

Context {World : Type}.
Variable c : Client World.


End TagRoundTrip.


(** ** Walking the levels of a store that remembers *)

Section Remembering.

Context {World : Type}.
Variable c : Client World.

Lemma outcome_accepted r resp :
  outcome r = (resp, None) ->
  exists status, r = Response status resp /\ accepted status resp = true.
Proof.
  destruct r as [msg | status body]; cbn [outcome]; [discriminate |].
  unfold accepted. destruct (399 <? status)%N eqn:S; [discriminate |].
  destruct (unmarshalErrCheck body) as [[| x e] |] eqn:B; try discriminate;
    intros E; injection E as <-; exists status; rewrite S, B; split; reflexivity.
Qed.

Lemma ensureLevels_lookups parts :
  lookupsKeep c ->
  forall i n cur initial (st : State World),
    Forall (found c (remote st)) (levelPaths cur parts) ->
    let run := ensureLevels c parts i n cur initial st in
    sent (snd run) = (sent st ++ map getPageRequest (levelPaths cur parts))%list
    /\ forall q, found c (remote st) q -> found c (remote (snd run)) q.
Proof.
  intros K. induction parts as [| part rest IH]; intros i n cur initial st F; cbn zeta.
  - cbn. rewrite app_nil_r. split; [reflexivity | auto].
  - cbn [ensureLevels levelPaths] in *.
    set (path := if String.eqb cur "" then part else _) in *.
    inversion F as [| ? ? [page Fp] Fr]; subst.
    unfold bind. rewrite log_eq.
    match goal with |- context [GetPage c path ?s] =>
      destruct (GetPage_run c path s) as [m1 ->] end.
    cbn [remote sent logs]. rewrite Fp.
    match goal with |- context [ensureLevels c rest ?i' n path ?f ?s] =>
      specialize (IH i' n path f s) end.
    cbn [remote sent] in IH.
    assert (Fr' : Forall (found c (fst (client c (remote st) (getPageRequest path))))
                    (levelPaths path rest)).
    { rewrite Forall_forall in *. intros q I. apply K, Fr, I. }
    destruct (IH Fr') as [S M]. split.
    + rewrite S, <- app_assoc. reflexivity.
    + intros q Q. apply M, K, Q.
Qed.

Lemma existing_levels_are_only_looked_up link (st : State World) :
  lookupsKeep c ->
  Forall (found c (remote st)) (levelPaths "" (Split link "/")) ->
  sent (snd (materialize c link st))
  = (sent st ++ map getPageRequest (levelPaths "" (Split link "/")))%list.
Proof.
  intros K F. unfold materialize.
  exact (proj1 (ensureLevels_lookups (Split link "/") K 0 (List.length (Split link "/"))
                  "" "" st F)).
Qed.

(** X24.  When the store has every level of a link and lookups do not make
    it lose a page, the walk over the levels sends one lookup per level
    and nothing else: it creates nothing, and the store still has every
    page it had. *)
Theorem materialize_of_existing_levels_only_looks_up link (st : State World) :
  lookupsKeep c ->
  let paths := levelPaths "" (Split link "/") in
  Forall (found c (remote st)) paths ->
  sent (snd (materialize c link st)) = (sent st ++ map getPageRequest paths)%list
  /\ forall q, found c (remote st) q -> found c (remote (snd (materialize c link st))) q.
Proof.
  intros K paths F. split; [exact (existing_levels_are_only_looked_up link st K F) |].
  unfold materialize.
  exact (proj2 (ensureLevels_lookups (Split link "/") K 0 (List.length (Split link "/"))
                  "" "" st F)).
Qed.

End Remembering.

(** * The further statements on concrete inputs *)

Import Cases.

Lemma extractLinks_returns_trimmed_bracket_texts_witness :
  NoDup (extractLinks "[[ A/B ]] and [[A/B]] and [[C]]")
  /\ ("A/B" <> "" /\ hasChar "]" "A/B" = false
      /\ exists inner,
           TrimSpace inner = "A/B"
           /\ Contains "[[ A/B ]] and [[A/B]] and [[C]]" ("[[" ++ inner ++ "]]") = true).
Proof.
  destruct (extractLinks_returns_trimmed_bracket_texts "[[ A/B ]] and [[A/B]] and [[C]]")
    as [N H].
  split; [exact N |]. apply H. vm_compute. left. reflexivity.
Defined.

Lemma extractBlockRefs_returns_trimmed_reference_texts_witness :
  NoDup (extractBlockRefs "see ((b1)) and (( b1 ))")
  /\ ("b1" <> "" /\ hasChar ")" "b1" = false
      /\ exists inner,
           TrimSpace inner = "b1"
           /\ Contains "see ((b1)) and (( b1 ))" ("((" ++ inner ++ "))") = true).
Proof.
  destruct (extractBlockRefs_returns_trimmed_reference_texts "see ((b1)) and (( b1 ))")
    as [N H].
  split; [exact N |]. apply H. vm_compute. left. reflexivity.
Defined.

Lemma extractLinks_finds_the_first_link_witness :
  hd_error (extractLinks "see [[ Projects/Alpha ]] and [[B]]") = Some "Projects/Alpha"
  /\ extractLinks "no [link] here" = [].
Proof.
  destruct extractLinks_finds_the_first_link as [F E]. split.
  - apply (F "see " " Projects/Alpha " " and [[B]]"); [reflexivity | reflexivity |].
    vm_compute. discriminate.
  - apply E. reflexivity.
Defined.

Lemma IsJournalName_accepts_three_date_shapes_witness :
  IsJournalName "2026_01_18" = true /\ IsJournalName "9999/99/99" = true.
Proof.
  split.
  - apply (proj2 (IsJournalName_accepts_three_date_shapes "2026_01_18")).
    exists "2026", "01", "18", "_"%char. repeat split; auto.
  - apply (proj2 (IsJournalName_accepts_three_date_shapes "9999/99/99")).
    exists "9999", "99", "99", "/"%char. repeat split; auto.
Defined.

Lemma GetGraph_returns_a_graph_or_an_error_witness :
  fst (GetGraph (onScript knowsNothing) (start 0)) = (Some GraphInfo.zero, None).
Proof.
  destruct (GetGraph_returns_a_graph_or_an_error (onScript knowsNothing) (start 0))
    as [_ [_ H]].
  apply (H 1 200%N); reflexivity.
Defined.

Lemma GetBlock_tells_absent_from_undecodable_witness :
  fst (GetBlock (onScript (fun _ _ => ok "[]")) "b1" (start 0))
  = (None, Some (Errorf "failed to parse block: " (Some JsonError)))
  /\ fst (GetBlock (onScript knowsNothing) "b1" (start 0)) = (None, None).
Proof.
  split.
  - apply (GetBlock_tells_absent_from_undecodable (onScript (fun _ _ => ok "[]")) "b1"
             (start 0) 1 200%N "[]"); reflexivity.
  - apply (GetBlock_tells_absent_from_undecodable (onScript knowsNothing) "b1"
             (start 0) 1 200%N "null"); reflexivity.
Defined.

Lemma Query_asks_the_second_engine_on_an_empty_answer_witness :
  fst (Query (onScript secondEngineAnswers) "[:find ?x]" (start 0))
  = (Array [Number "1"], None).
Proof.
  destruct (Query_asks_the_second_engine_on_an_empty_answer
              (onScript secondEngineAnswers) "[:find ?x]" (start 0)) as [_ H].
  apply (H 1 200%N "[]" 2 200%N "[[1]]"); reflexivity.
Defined.

Lemma EnsureLinkedPages_without_links_only_checks_references_witness :
  fst (EnsureLinkedPages (onScript knowsNothing) "see ((b1)) and ((b2))" None (start 0))
  = ("see ((b1)) and ((b2))", None)
  /\ sent (snd (EnsureLinkedPages (onScript knowsNothing) "see ((b1)) and ((b2))" None
                  (start 0)))
     = [getBlockRequest "b1"; getBlockRequest "b2"]
  /\ snd (EnsureLinkedPages (onScript knowsNothing) "plain text" None (start 0)) = start 0.
Proof.
  split; [| split].
  - apply (EnsureLinkedPages_without_links_only_checks_references (onScript knowsNothing)
             "see ((b1)) and ((b2))" None (start 0)).
    intros s [<- | []]. reflexivity.
  - apply (EnsureLinkedPages_without_links_only_checks_references (onScript knowsNothing)
             "see ((b1)) and ((b2))" None (start 0)).
    intros s [<- | []]. reflexivity.
  - apply (EnsureLinkedPages_without_links_only_checks_references (onScript knowsNothing)
             "plain text" None (start 0)).
    + intros s [<- | []]. reflexivity.
    + intros s [<- | []]. reflexivity.
Defined.

Lemma CreatePage_without_properties_returns_a_page_or_an_error_witness :
  sent (snd (CreatePage onStore "P" None None (start [])))
  = [getPageRequest "P"; createPageRequest "P"]
  /\ exists page,
       fst (CreatePage onStore "P" None None (start [])) = (Some page, None)
       /\ Page.UUID page <> "".
Proof.
  destruct (CreatePage_without_properties_returns_a_page_or_an_error
              onStore "P" None None (start []) eq_refl)
    as [(page & G & _) | (_ & S & [R | (e & R)])].
  - vm_compute in G. discriminate G.
  - split; [exact S | exact R].
  - vm_compute in R. discriminate R.
Defined.

Lemma InsertBlock_returns_block_and_error_when_properties_fail_witness :
  exists block cause,
    fst (InsertBlock (onScript insertThenFail) "p1" "text" (Some [("k", Str "v")]) None
           (start 0))
    = (Some block, Some (Errorf "block created but properties failed: " (Some cause))).
Proof.
  destruct (fst (InsertBlock (onScript insertThenFail) "p1" "text" (Some [("k", Str "v")])
                   None (start 0))) as [[block |] [e |]] eqn:R;
    try (vm_compute in R; discriminate R).
  destruct (InsertBlock_returns_block_and_error_when_properties_fail
              (onScript insertThenFail) "p1" "text" (Some [("k", Str "v")]) None (start 0))
    as [H _].
  destruct (H block e R) as (_ & _ & cause & ->).
  exists block, cause. reflexivity.
Defined.

Lemma InsertBatchBlock_submits_the_tree_it_was_given_witness :
  fst (fst (InsertBatchBlock offline "p1" [mkBlockContent "a" None []] None (start tt))) = [].
Proof.
  destruct (InsertBatchBlock_submits_the_tree_it_was_given
              offline "p1" [mkBlockContent "a" None []] None (start tt)) as [_ [_ H]].
  destruct (fst (InsertBatchBlock offline "p1" [mkBlockContent "a" None []] None (start tt)))
    as [blocks [e |]] eqn:R; [| vm_compute in R; discriminate R].
  exact (H blocks e eq_refl).
Defined.

Lemma getEntityBlock_returns_a_block_or_an_error_witness :
  fst (getEntityBlock (onScript knowsNothing) "x" (start 0))
  = (None, Some (Errorf "entity not found: x" None))
  /\ sent (snd (getEntityBlock (onScript taggedBlock) "b1" (start 0)))
     = [getBlockRequest "b1"].
Proof.
  split.
  - destruct (getEntityBlock_returns_a_block_or_an_error (onScript knowsNothing) "x"
                (start 0)) as (_ & _ & _ & H).
    apply H; [reflexivity |]. intros page. vm_compute. discriminate.
  - destruct (getEntityBlock_returns_a_block_or_an_error (onScript taggedBlock) "b1"
                (start 0)) as (_ & _ & H & _).
    destruct (fst (GetBlock (onScript taggedBlock) "b1" (start 0)))
      as [[block |] [e |]] eqn:G; try (vm_compute in G; discriminate G).
    exact (proj2 (H block eq_refl)).
Defined.

Lemma AddTag_leaves_a_tagged_block_alone_witness :
  fst (AddTag (onScript taggedBlock) "b1" "imp" (start 0)) = Returned None
  /\ sent (snd (AddTag (onScript taggedBlock) "b1" "imp" (start 0)))
     = [getBlockRequest "b1"].
Proof.
  destruct (fst (getEntityBlock (onScript taggedBlock) "b1" (start 0)))
    as [[block |] [e |]] eqn:G; try (vm_compute in G; discriminate G).
  destruct (AddTag_leaves_a_tagged_block_alone (onScript taggedBlock) "b1" "imp" (start 0)
              block G) as [H _].
  rewrite H; [split; reflexivity |].
  vm_compute in G. injection G as <-. reflexivity.
Defined.

Lemma tag_operations_ignore_a_leading_number_sign_witness :
  AddTag (onScript taggedBlock) "b1" "#todo" (start 0)
  = AddTag (onScript taggedBlock) "b1" "todo" (start 0).
Proof.
  exact (proj1 (tag_operations_ignore_a_leading_number_sign (onScript taggedBlock) "b1" "todo"
                  (start 0) eq_refl)).
Defined.

Lemma ListNamespaces_never_fails_witness :
  In "areas" (fst (fst (ListNamespaces (onScript namespaceRows) (start 0))))
  /\ fst (fst (ListNamespaces offline (start tt))) = [].
Proof.
  split.
  - destruct (ListNamespaces_never_fails (onScript namespaceRows) (start 0))
      as (_ & _ & H & _).
    apply (H [Str "projects"; Array [Str "areas"]; Str ""; Str "projects"; Number "7"]
             eq_refl "areas").
    split; [discriminate |]. exists (Array [Str "areas"]).
    split; [right; left; reflexivity | reflexivity].
  - destruct (ListNamespaces_never_fails offline (start tt)) as (_ & _ & _ & H).
    apply H. intros rows. vm_compute. discriminate.
Defined.

Lemma Page_UnmarshalJSON_collects_the_other_members_witness :
  exists merged,
    Page.UnmarshalJSON Page.zero (Object pageMembers)
    = Some (Page.mk 0 "u1" "P" "" (Some merged) false)
    /\ mapGet "status" merged = Some (Str "done")
    /\ mapGet "file" merged = None.
Proof.
  destruct (Page_UnmarshalJSON_collects_the_other_members pageMembers
              (Page.mk 0 "u1" "P" "" (Some [("status", Str "done")]) false)
              eq_refl eq_refl) as (merged & E & _ & G).
  exists merged. split; [exact E |]. split; rewrite G; reflexivity.
Defined.


Lemma EnsureLinkedPages_only_looks_up_and_creates_witness :
  (exists link,
      In link (linksOf "see [[A/B]]" None) /\ levelRequestOf link (createPageRequest "A"))
  \/ (exists uuid, createPageRequest "A" = getBlockRequest uuid).
Proof.
  destruct (EnsureLinkedPages_only_looks_up_and_creates onStore "see [[A/B]]" None (start []))
    as (new & S & H).
  apply H. vm_compute in S. rewrite <- S. right. right. left. reflexivity.
Defined.


Lemma onNames_found names p : found onNames names p <-> member p names = true.
Proof.
  unfold found. cbn [onNames NewClient client getPageRequest keepsNames Args Method].
  replace (String.eqb "logseq.Editor.getPage" "logseq.Editor.getPage") with true
    by reflexivity.
  cbn [snd]. destruct (member p names).
  - split; [reflexivity |]. intros _. eexists. vm_compute. reflexivity.
  - split; [| discriminate]. intros [page E]. vm_compute in E. discriminate E.
Qed.

Lemma onNames_remembers : remembers onNames.
Proof.
  assert (L : forall names name, fst (client onNames names (getPageRequest name)) = names).
  { intros names name. cbn [onNames NewClient client getPageRequest keepsNames Args Method].
    replace (String.eqb "logseq.Editor.getPage" "logseq.Editor.getPage") with true
      by reflexivity.
    reflexivity. }
  assert (C : forall names name,
             client onNames names (createPageRequest name)
             = ((names ++ [name])%list, ok (pageJson "u" "p"))) by reflexivity.
  split; [| split].
  - intros names name p F. rewrite L. exact F.
  - intros names name p F. rewrite C. cbn [fst]. apply onNames_found.
    apply onNames_found in F. unfold member in *. rewrite existsb_app, F. reflexivity.
  - intros names name status body page _ _ _ _. rewrite C. cbn [fst]. apply onNames_found.
    unfold member. rewrite existsb_app. cbn [existsb]. rewrite String.eqb_refl.
    rewrite orb_true_r. reflexivity.
Qed.

Lemma materialize_of_existing_levels_only_looks_up_witness :
  sent (snd (materialize onNames "A/B" (start ["A"; "A/B"])))
  = [getPageRequest "A"; getPageRequest "A/B"].
Proof.
  apply (materialize_of_existing_levels_only_looks_up onNames "A/B" (start ["A"; "A/B"])
           (proj1 onNames_remembers)).
  repeat constructor; apply onNames_found; reflexivity.
Defined.

(** * The walk over the levels, from what the store answers *)

Section Answers.

Context {World : Type}.
Variable c : Client World.

Lemma CreatePageBare_exact name (st : State World) :
  let o := createOutcome c (remote st) name in
  exists more,
    CreatePageBare c name st
    = (createResult (fst o),
       mkState (snd o) (sent st ++ tl (levelRequests name (fst o))) (logs st ++ more)).
Proof.
  cbn zeta. unfold CreatePageBare, CreatePageWith, createOutcome, bind.
  cbn [entries List.length Nat.ltb Nat.leb].
  destruct (GetPage_run c name st) as [m1 ->].
  destruct (pageResult _) as [[existing |] [e |]] eqn:G.
  2: { exists m1. reflexivity. }
  all: rewrite log_eq; cbn [remote sent logs optional app];
    match goal with |- context [Call c ?m ?a ?s] =>
      destruct (Call_run c m a s) as [m2 ->] end;
    cbn [remote sent logs]; fold (createPageRequest name);
    match goal with |- context [outcome ?r] =>
      destruct (outcome r) as [resp [e' |]] eqn:O end; cbv beta;
    [ rewrite log_eq; cbn [ret fst snd sent remote logs createResult levelRequests tl];
      eexists; rewrite <- !app_assoc; reflexivity
    | ];
    (destruct (unmarshalPage resp) as [page |] eqn:D;
     [ destruct (String.eqb (Page.UUID page) "") eqn:U | ]); cbv beta;
    [ rewrite log_eq; cbn [ret fst snd sent remote logs createResult levelRequests tl];
      eexists; rewrite <- !app_assoc; reflexivity
    | cbn [ret fst snd sent remote logs createResult levelRequests tl];
      eexists; rewrite <- !app_assoc; reflexivity
    | rewrite log_eq; cbn [ret fst snd sent remote logs createResult levelRequests tl];
      eexists; rewrite <- !app_assoc; reflexivity ].
Qed.

Lemma createOutcome_not_found w name page : fst (createOutcome c w name) <> Found page.
Proof.
  unfold createOutcome.
  destruct (pageResult _) as [[existing |] [e |]]; try discriminate;
    destruct (outcome _) as [resp [e' |]]; try discriminate;
    destruct (unmarshalPage resp) as [pg |]; try discriminate;
    destruct (String.eqb (Page.UUID pg) ""); discriminate.
Qed.

Lemma levelOutcomes_length w paths :
  List.length (fst (levelOutcomes c w paths)) = List.length paths.
Proof.
  revert w. induction paths as [| p rest IH]; intros w; [reflexivity |].
  cbn [levelOutcomes fst List.length]. rewrite IH. reflexivity.
Qed.

Lemma levelPaths_size cur parts : List.length (levelPaths cur parts) = List.length parts.
Proof.
  revert cur. induction parts as [| p rest IH]; intros cur; [reflexivity |].
  cbn [levelPaths List.length]. rewrite IH. reflexivity.
Qed.

Lemma skipn_exact {A : Type} (l x : list A) : skipn (List.length l) (l ++ x) = x.
Proof. induction l as [| a l IH]; [reflexivity | exact IH]. Qed.

Lemma ensureLevels_exact parts :
  forall i n cur initial (st : State World),
    i + List.length parts = n ->
    let paths := levelPaths cur parts in
    let os := levelOutcomes c (remote st) paths in
    exists more,
      ensureLevels c parts i n cur initial st
      = (finalOf initial (fst os),
         mkState (snd os) (sent st ++ levelsRequests paths (fst os)) (logs st ++ more))
      /\ (logger c = true ->
          forall p e, In (p, NotCreated e) (combine paths (fst os)) ->
            In (failureEntry p e) more).
Proof.
  induction parts as [| part rest IH]; intros i n cur initial st Hn; cbn zeta.
  - exists []. cbn. rewrite !app_nil_r. destruct st. split; [reflexivity |].
    intros _ p e [].
  - cbn [ensureLevels levelPaths levelOutcomes].
    set (path := if String.eqb cur "" then part else _).
    assert (Hn' : S i + List.length rest = n) by (cbn [List.length] in Hn; lia).
    assert (Step : forall o (st2 : State World) m,
               sent st2 = (sent st ++ levelRequests path o)%list ->
               logs st2 = (logs st ++ m)%list ->
               (logger c = true -> forall e, o = NotCreated e -> In (failureEntry path e) m) ->
               let os := levelOutcomes c (remote st2) (levelPaths path rest) in
               exists more,
                 ensureLevels c rest (S i) n path
                   (if match rest with [] => true | _ => false end
                    then pick initial o else initial) st2
                 = (finalOf initial (o :: fst os),
                    mkState (snd os)
                      (sent st ++ levelsRequests (path :: levelPaths path rest) (o :: fst os))
                      (logs st ++ more))
                 /\ (logger c = true ->
                     forall p e,
                       In (p, NotCreated e) (combine (path :: levelPaths path rest) (o :: fst os)) ->
                       In (failureEntry p e) more)).
    { intros o st2 m S2 L2 Lg2. cbn zeta.
      destruct (IH (S i) n path
                  (if match rest with [] => true | _ => false end
                   then pick initial o else initial) st2 Hn') as (more & -> & Lg).
      exists (m ++ more)%list. split.
      - rewrite (finalOf_step rest initial o _ (pick initial o));
          [| rewrite levelOutcomes_length, levelPaths_size; reflexivity | reflexivity].
        rewrite S2, L2. unfold levelsRequests. cbn [combine flat_map fst snd].
        rewrite <- !app_assoc. reflexivity.
      - intros Hl p e [E | J].
        + injection E as <- ->. apply in_or_app. left. exact (Lg2 Hl e eq_refl).
        + apply in_or_app. right. exact (Lg Hl p e J). }
    unfold bind. rewrite log_eq.
    match goal with |- context [GetPage c path ?s] =>
      destruct (GetPage_run c path s) as [m1 ->] end.
    cbn [remote sent logs]. rewrite (last_index i n rest Hn).
    unfold levelOutcome.
    destruct (pageResult _) as [[page |] [e |]] eqn:G.
    2: { cbn [fst snd].
         match goal with |- context [ensureLevels c rest (S i) n path _ ?s] =>
           destruct (Step (Found page) s
                       ((if logger c
                         then [mkLog Debug "Checking linked page existence" [("page", Str path)]]
                         else []) ++ m1)%list) as (more & E & Lg) end.
         - reflexivity.
         - cbn [logs]. rewrite <- app_assoc. reflexivity.
         - intros _ e0 E0. discriminate E0.
         - exists more. cbn [remote pick levelIdentifier] in E. split; [exact E | exact Lg]. }
    all: rewrite log_eq; cbn [remote sent logs];
      match goal with |- context [CreatePageBare c ?p ?s] =>
        destruct (CreatePageBare_exact p s) as [m2 ->];
        cbn [remote sent logs];
        pose proof (createOutcome_not_found (remote s) p) as NF;
        cbn [remote] in NF
      end;
      match goal with |- context [createOutcome c ?w ?p] =>
        destruct (createOutcome c w p) as [o w2] end;
      cbn [fst snd] in NF |- *;
      (destruct o as [pg | pg | pg | e2]; [exfalso; exact (NF pg eq_refl) | | |]);
      cbn [createResult]; cbv beta iota; try rewrite log_eq; cbn [remote sent logs].
    all: match goal with |- context [ensureLevels c _ (S _) _ _ _ ?s] =>
           match goal with
           | |- context [finalOf _ (?o :: _)] =>
               destruct (Step o s (List.skipn (List.length (logs st)) (logs s))) as (more & E & Lg)
           end end.
    all: try (match goal with |- sent _ = _ =>
                cbn [sent levelRequests tl app]; rewrite <- ?app_assoc; reflexivity end).
    all: try (match goal with |- logs _ = _ =>
                cbn [logs]; rewrite <- ?app_assoc; rewrite skipn_exact; reflexivity end).
    all: try (match goal with |- logger c = true -> _ =>
                intros Hl e0 E0; first
                  [ discriminate E0
                  | injection E0 as <-; cbn [logs]; rewrite <- ?app_assoc; rewrite skipn_exact;
                    rewrite Hl; rewrite !in_app_iff; right; right; right; right; left;
                    reflexivity ] end).
    all: exists more; cbn [remote pick levelIdentifier] in E;
      try replace (if match rest with [] => true | _ => false end then initial else initial)
        with initial in E by (destruct rest; reflexivity);
      split; [exact E | exact Lg].
Qed.


Lemma levelOutcomes_wellFormed w paths : Forall wellFormed (fst (levelOutcomes c w paths)).
Proof.
  revert w. induction paths as [| p rest IH]; intros w; cbn [levelOutcomes fst];
    constructor; [| apply IH].
  unfold levelOutcome, createOutcome.
  destruct (pageResult _) as [[page |] [e |]]; cbn [fst wellFormed]; try exact I.
  all: destruct (pageResult _) as [[page' |] [e' |]]; cbn [fst wellFormed]; try exact I.
  all: destruct (outcome _) as [resp [e2 |]]; cbn [fst wellFormed]; try exact I.
  all: destruct (unmarshalPage resp) as [pg |]; cbn [fst wellFormed]; try exact I.
  all: destruct (String.eqb (Page.UUID pg) "") eqn:U; cbn [fst wellFormed]; try exact I.
  all: apply String.eqb_neq; exact U.
Qed.

Lemma createOutcome_settles w path :
  remembers c ->
  settled c (snd (createOutcome c w path)) path (fst (createOutcome c w path))
  /\ forall q, found c w q -> found c (snd (createOutcome c w path)) q.
Proof.
  intros (K & KC & CR). unfold createOutcome.
  destruct (pageResult _) as [[page |] [e |]] eqn:G.
  2: { cbn [fst snd]. split.
       - right. apply K. exists page. exact G.
       - intros q Q. apply K, Q. }
  all: match goal with |- context [outcome (snd (client c ?w1 (createPageRequest ?p)))] =>
         destruct (outcome (snd (client c w1 (createPageRequest p)))) as [resp [e2 |]] eqn:O end;
    cbn [fst snd];
    [ split; [left; eexists; reflexivity | intros q Q; apply KC, K, Q] | ].
  all: destruct (unmarshalPage resp) as [pg |] eqn:D;
    [ destruct (String.eqb (Page.UUID pg) "") eqn:U | ]; cbn [fst snd].
  all: try (split; [left; eexists; reflexivity | intros q Q; apply KC, K, Q]).
  all: split; [| intros q Q; apply KC, K, Q].
  all: right; destruct (outcome_accepted _ _ O) as [status [R A]];
    apply (CR _ _ _ _ _ R A D); apply String.eqb_neq; exact U.
Qed.

Lemma levelOutcome_settles w path :
  remembers c ->
  settled c (snd (levelOutcome c w path)) path (fst (levelOutcome c w path))
  /\ forall q, found c w q -> found c (snd (levelOutcome c w path)) q.
Proof.
  intros R. pose proof R as (K & _). unfold levelOutcome.
  destruct (pageResult _) as [[page |] [e |]] eqn:G.
  2: { cbn [fst snd]. split.
       - right. apply K. exists page. exact G.
       - intros q Q. apply K, Q. }
  all: destruct (createOutcome_settles (fst (client c w (getPageRequest path))) path R)
         as [S M];
    split; [exact S | intros q Q; apply M, K, Q].
Qed.

Lemma levelOutcomes_settles paths :
  remembers c ->
  forall w,
    Forall2 (settled c (snd (levelOutcomes c w paths))) paths (fst (levelOutcomes c w paths))
    /\ forall q, found c w q -> found c (snd (levelOutcomes c w paths)) q.
Proof.
  intros R. induction paths as [| p rest IH]; intros w; cbn [levelOutcomes fst snd].
  - split; [constructor | auto].
  - destruct (levelOutcome_settles w p R) as [S M].
    destruct (IH (snd (levelOutcome c w p))) as [F M2]. split.
    + constructor; [| exact F].
      destruct S as [E | Fd]; [left; exact E | right; apply M2, Fd].
    + intros q Q. apply M2, M, Q.
Qed.

Lemma settled_found w paths outcomes :
  Forall2 (settled c w) paths outcomes ->
  (forall e, ~ In (NotCreated e) outcomes) ->
  Forall (found c w) paths.
Proof.
  intros F. induction F as [| p o paths outcomes S F IH]; intros N; constructor.
  - destruct S as [[e ->] | Fd]; [| exact Fd]. exfalso. apply (N e). left. reflexivity.
  - apply IH. intros e I. apply (N e). right. exact I.
Qed.

Lemma materialize_exact link (st : State World) :
  let paths := levelPaths "" (Split link "/") in
  let os := levelOutcomes c (remote st) paths in
  exists more,
    materialize c link st
    = (leafIdentifier (fst os),
       mkState (snd os) (sent st ++ levelsRequests paths (fst os)) (logs st ++ more))
    /\ (logger c = true ->
        forall p e, In (p, NotCreated e) (combine paths (fst os)) ->
          In (failureEntry p e) more).
Proof.
  cbn zeta. unfold materialize.
  destruct (ensureLevels_exact (Split link "/") 0 (List.length (Split link "/")) "" "" st
              eq_refl) as (more & E & Lg).
  exists more. rewrite E, finalOf_leaf. split; [reflexivity | exact Lg].
Qed.

(** C2.  The materializer splits the link on ["/"] and walks the
    accumulated paths of the segments in order, one level per segment.
    The outcome of each level is what the store answers: the page the
    lookup finds; else the page the lookup of [CreatePage] finds; else the
    page (with a non-empty identifier) the create call with empty
    properties answers with; else the failure of that call.  The requests
    sent are those of the levels in ascending depth, the store afterwards
    is the store after the last level, and the result is the identifier of
    the deepest level (empty if that level failed).  A level that could not
    be created does not end the walk: the deeper levels are still worked
    on, and with a logger its error is in the log.  The deepest path of a
    link that does not start with ["/"] is the link.  On a store that
    remembers, every level is found in the store afterwards unless its
    creation failed, so all levels are there when no creation failed. *)
Theorem materialize_walks_the_levels link (st : State World) :
  let paths := levelPaths "" (Split link "/") in
  let answers := levelOutcomes c (remote st) paths in
  let outcomes := fst answers in
  let run := materialize c link st in
  List.length paths = List.length (Split link "/")
  /\ List.length outcomes = List.length paths
  /\ Forall wellFormed outcomes
  /\ fst run = leafIdentifier outcomes
  /\ sent (snd run) = (sent st ++ levelsRequests paths outcomes)%list
  /\ remote (snd run) = snd answers
  /\ (logger c = true ->
      forall path e, In (path, NotCreated e) (combine paths outcomes) ->
        In (failureEntry path e) (logs (snd run)))
  /\ (HasPrefix link "/" = false -> last paths "" = link)
  /\ (remembers c ->
      Forall2 (settled c (remote (snd run))) paths outcomes
      /\ ((forall e, ~ In (NotCreated e) outcomes) ->
          Forall (found c (remote (snd run))) paths)).
Proof.
  cbn zeta. destruct (materialize_exact link st) as (more & -> & Lg).
  cbn [fst snd sent remote logs].
  split; [apply levelPaths_size |].
  split; [apply levelOutcomes_length |].
  split; [apply levelOutcomes_wellFormed |].
  split; [reflexivity |]. split; [reflexivity |]. split; [reflexivity |].
  split; [intros Hl path e I; apply in_or_app; right; exact (Lg Hl path e I) |].
  split; [apply levelPaths_last |].
  intros R.
  destruct (levelOutcomes_settles (levelPaths "" (Split link "/")) R (remote st)) as [F _].
  split; [exact F | apply settled_found; exact F].
Qed.

(** X25.  On a store that remembers, the walk over the levels of a link
    leaves every level behind found in the store, unless the store's
    answers made its creation fail, and the store keeps every page it had.
    When no creation failed, a second walk sends one lookup per level and
    creates nothing. *)
Theorem materialize_twice_creates_nothing_new link (st : State World) :
  remembers c ->
  let paths := levelPaths "" (Split link "/") in
  let outcomes := fst (levelOutcomes c (remote st) paths) in
  let once := snd (materialize c link st) in
  sent once = (sent st ++ levelsRequests paths outcomes)%list
  /\ Forall2 (settled c (remote once)) paths outcomes
  /\ (forall q, found c (remote st) q -> found c (remote once) q)
  /\ ((forall e, ~ In (NotCreated e) outcomes) ->
      sent (snd (materialize c link once))
      = (sent once ++ map getPageRequest paths)%list).
Proof.
  intros R. cbn zeta.
  destruct (levelOutcomes_settles (levelPaths "" (Split link "/")) R (remote st)) as [F M].
  assert (A : (forall e, ~ In (NotCreated e)
                           (fst (levelOutcomes c (remote st) (levelPaths "" (Split link "/"))))) ->
              sent (snd (materialize c link (snd (materialize c link st))))
              = (sent (snd (materialize c link st))
                 ++ map getPageRequest (levelPaths "" (Split link "/")))%list).
  { intros N. apply existing_levels_are_only_looked_up; [apply R |].
    destruct (materialize_exact link st) as (more & -> & _). cbn [snd remote].
    exact (settled_found _ _ _ F N). }
  destruct (materialize_exact link st) as (more & E & _).
  rewrite E in A |- *. cbn [snd sent remote] in A |- *.
  split; [reflexivity |]. split; [exact F |]. split; [exact M | exact A].
Qed.

End Answers.



Lemma materialize_walks_the_levels_witness :
  fst (materialize onStore "A/B/C" (start [])) = "u-A/B/C"
  /\ remote (snd (materialize onStore "A/B/C" (start [])))
     = [("A", "u-A"); ("A/B", "u-A/B"); ("A/B/C", "u-A/B/C")]
  /\ Forall (found onNames (remote (snd (materialize onNames "A/B/C" (start [])))))
       ["A"; "A/B"; "A/B/C"].
Proof.
  pose proof (materialize_walks_the_levels onStore "A/B/C" (start []))
    as (_ & _ & _ & F & _ & W & _).
  pose proof (materialize_walks_the_levels onNames "A/B/C" (start []))
    as (_ & _ & _ & _ & _ & _ & _ & _ & H).
  split; [rewrite F; reflexivity |]. split; [rewrite W; reflexivity |].
  apply (H onNames_remembers). intros e I. vm_compute in I.
  destruct I as [I | [I | [I | []]]]; discriminate I.
Defined.

Lemma materialize_twice_creates_nothing_new_witness :
  sent (snd (materialize onNames "A/B" (snd (materialize onNames "A/B" (start [])))))
  = (sent (snd (materialize onNames "A/B" (start [])))
     ++ [getPageRequest "A"; getPageRequest "A/B"])%list.
Proof.
  apply (materialize_twice_creates_nothing_new onNames "A/B" (start []) onNames_remembers).
  intros e I. vm_compute in I. destruct I as [I | [I | []]]; discriminate I.
Defined.

(** * Creating a page twice *)

Section Twice.

Context {World : Type}.
Variable c : Client World.




End Twice.



(** * The responses the write operations take *)

Section Encodings.

Context {World : Type}.
Variable c : Client World.

(** C4, as it holds.  [UpdateBlock] takes an accepted response in three
    encodings: a block object with a non-empty identifier is returned as it
    is; for a bare non-empty string the block of that identifier is
    fetched; for anything else the block of the identifier the call was
    made with is fetched ([GetBlock] sends one lookup).  The other write
    operations take one encoding only and send nothing more: for an
    accepted response that does not decode as a block, [InsertBlock] and
    [AppendBlockInPage] return a decode error; for one that does not decode
    as a list of blocks, [InsertBatchBlock] returns a decode error; and for
    one that does not decode as a page, or decodes as a page without an
    identifier, the create call of [CreatePage] ends in the error that the
    page could not be created. *)
Theorem UpdateBlock_alone_tolerates_three_encodings :
  (forall uuid content properties (st : State World) w status body,
      let sync := EnsureLinkedPages c content properties st in
      let args := ([Str uuid; Str (fst (fst sync))] ++ optional (snd (fst sync)))%list in
      let called := snd (Call c "logseq.Editor.updateBlock" args (snd sync)) in
      client c (remote (snd sync)) (mkRequest "logseq.Editor.updateBlock" args)
      = (w, Response status body) ->
      accepted status body = true ->
      UpdateBlock c uuid content properties st
      = match unmarshalBlock body with
        | Some block =>
            if String.eqb (Block.UUID block) ""
            then reresolve c uuid body called
            else ((Some block, None), called)
        | None => reresolve c uuid body called
        end)
  /\ (forall uuid (st : State World),
        sent (snd (GetBlock c uuid st)) = (sent st ++ [getBlockRequest uuid])%list)
  /\ (forall parentUUID content properties options (st : State World) w status body,
        let sync := EnsureLinkedPages c content properties st in
        let args := ([Str parentUUID; Str (fst (fst sync))] ++ optional options)%list in
        client c (remote (snd sync)) (mkRequest "logseq.Editor.insertBlock" args)
        = (w, Response status body) ->
        accepted status body = true ->
        unmarshalBlock body = None ->
        InsertBlock c parentUUID content properties options st
        = ((None, Some (Errorf "failed to parse inserted block: " (Some JsonError))),
           snd (Call c "logseq.Editor.insertBlock" args (snd sync))))
  /\ (forall pageName content options (st : State World) w status body,
        let sync := EnsureLinkedPages c content None st in
        let args := ([Str pageName; Str (fst (fst sync))] ++ optional options)%list in
        client c (remote (snd sync)) (mkRequest "logseq.Editor.appendBlockInPage" args)
        = (w, Response status body) ->
        accepted status body = true ->
        unmarshalBlock body = None ->
        AppendBlockInPage c pageName content options st
        = ((None, Some (Errorf "failed to parse appended block: " (Some JsonError))),
           snd (Call c "logseq.Editor.appendBlockInPage" args (snd sync))))
  /\ (forall parentUUID batch options (st : State World) w status body,
        let scan := scanBlocks c batch st in
        let args := ([Str parentUUID; Array (map marshalBlockContent (fst scan))]
                     ++ optional options)%list in
        client c (remote (snd scan)) (mkRequest "logseq.Editor.insertBatchBlock" args)
        = (w, Response status body) ->
        accepted status body = true ->
        unmarshalBlocks body = None ->
        InsertBatchBlock c parentUUID batch options st
        = (([], Some (Errorf "failed to parse batch blocks: " (Some JsonError))),
           snd (Call c "logseq.Editor.insertBatchBlock" args (snd scan))))
  /\ (forall name properties options (st : State World) w status body,
        let looked := GetPage c name st in
        let args := ([Str name; Object (entries properties)] ++ optional options)%list in
        (forall page, fst looked <> (Some page, None)) ->
        client c (remote (snd looked)) (mkRequest "logseq.Editor.createPage" args)
        = (w, Response status body) ->
        accepted status body = true ->
        unmarshalPage body = None
        \/ (exists page, unmarshalPage body = Some page /\ Page.UUID page = "") ->
        fst (CreatePage c name properties options st)
        = (None, Some (Errorf ("failed to create page '" ++ name ++ "'") None))
        /\ sent (snd (CreatePage c name properties options st))
           = (sent st ++ [getPageRequest name; mkRequest "logseq.Editor.createPage" args])%list).
Proof.
  split; [| split; [| split; [| split; [| split]]]].
  - intros uuid content properties st w status body. cbn zeta. intros E A.
    unfold UpdateBlock, bind, reresolve.
    destruct (EnsureLinkedPages c content properties st) as [[content' properties'] st1].
    cbn [fst snd] in *.
    match goal with |- context [Call c ?m ?a st1] =>
      destruct (Call_run c m a st1) as [more ->] end.
    rewrite E. cbn [snd]. rewrite (accepted_outcome _ _ A).
    destruct (unmarshalBlock body) as [block |]; [| reflexivity].
    destruct (String.eqb (Block.UUID block) ""); reflexivity.
  - apply GetBlock_sent.
  - intros parentUUID content properties options st w status body. cbn zeta. intros E A D.
    unfold InsertBlock, bind.
    destruct (EnsureLinkedPages c content properties st) as [[content' properties'] st1].
    cbn [fst snd] in *.
    match goal with |- context [Call c ?m ?a st1] =>
      destruct (Call_run c m a st1) as [more ->] end.
    rewrite E. cbn [snd]. rewrite (accepted_outcome _ _ A), D. reflexivity.
  - intros pageName content options st w status body. cbn zeta. intros E A D.
    unfold AppendBlockInPage, bind.
    destruct (EnsureLinkedPages c content None st) as [[content' properties'] st1].
    cbn [fst snd] in *.
    match goal with |- context [Call c ?m ?a st1] =>
      destruct (Call_run c m a st1) as [more ->] end.
    rewrite E. cbn [snd]. rewrite (accepted_outcome _ _ A), D. reflexivity.
  - intros parentUUID batch options st w status body. cbn zeta. intros E A D.
    unfold InsertBatchBlock, bind.
    destruct (scanBlocks c batch st) as [batch' st1]. cbn [fst snd] in *.
    match goal with |- context [Call c ?m ?a st1] =>
      destruct (Call_run c m a st1) as [more ->] end.
    rewrite E. cbn [snd]. rewrite (accepted_outcome _ _ A), D. reflexivity.
  - intros name properties options st w status body. cbn zeta. intros NF E A D.
    unfold CreatePage, CreatePageWith, bind.
    assert (P : entries (match properties with None => Some [] | p => p end)
                = entries properties) by (destruct properties; reflexivity).
    rewrite P.
    destruct (GetPage c name st) as [[existing err] st1] eqn:G. cbn [fst snd] in *.
    pose proof (GetPage_sent c name st) as S1. rewrite G in S1. cbn [snd] in S1.
    destruct err as [e |], existing as [page0 |];
      try (exfalso; exact (NF page0 eq_refl)).
    all: rewrite log_eq;
      match goal with |- context [Call c ?m ?a ?s] =>
        destruct (Call_run c m a s) as [m2 ->] end;
      cbn [remote sent logs]; rewrite E; cbn [snd]; rewrite (accepted_outcome _ _ A);
      cbv beta;
      (destruct D as [D | (page & D & U)]; rewrite D;
       [| rewrite U; cbn [String.eqb]]); rewrite log_eq; cbn [ret fst snd sent];
      (split; [reflexivity | rewrite S1, <- app_assoc; reflexivity]).
Qed.

End Encodings.

Lemma UpdateBlock_alone_tolerates_three_encodings_witness :
  option_map Block.UUID (fst (fst (UpdateBlock (onScript answersBlock) "b1" "updated" None (start 0))))
  = Some "b1"
  /\ UpdateBlock (onScript answersIdentifier) "b1" "moved" None (start 0)
     = GetBlock (onScript answersIdentifier) "b2"
         (mkState 1 [mkRequest "logseq.Editor.updateBlock" [Str "b1"; Str "moved"]] [])
  /\ UpdateBlock (onScript answersNull) "b1" "updated" None (start 0)
     = GetBlock (onScript answersNull) "b1"
         (mkState 1 [mkRequest "logseq.Editor.updateBlock" [Str "b1"; Str "updated"]] [])
  /\ fst (InsertBatchBlock (onScript answersIdentifier) "p1" [] None (start 0))
     = ([], Some (Errorf "failed to parse batch blocks: " (Some JsonError)))
  /\ fst (CreatePage (onScript (fun _ _ => ok (q "b1"))) "P" None None (start 0))
     = (None, Some (Errorf "failed to create page 'P'" None)).
Proof.
  split; [| split; [| split; [| split]]].
  - destruct (UpdateBlock_alone_tolerates_three_encodings (onScript answersBlock)) as [U _].
    rewrite (U "b1" "updated" None (start 0) 1 200%N (blockJson "b1" "updated")
               eq_refl eq_refl).
    reflexivity.
  - destruct (UpdateBlock_alone_tolerates_three_encodings (onScript answersIdentifier))
      as [U _].
    rewrite (U "b1" "moved" None (start 0) 1 200%N (q "b2") eq_refl eq_refl).
    reflexivity.
  - destruct (UpdateBlock_alone_tolerates_three_encodings (onScript answersNull)) as [U _].
    rewrite (U "b1" "updated" None (start 0) 1 200%N "null" eq_refl eq_refl).
    reflexivity.
  - destruct (UpdateBlock_alone_tolerates_three_encodings (onScript answersIdentifier))
      as (_ & _ & _ & _ & U & _).
    rewrite (U "p1" [] None (start 0) 1 200%N (q "b2") eq_refl eq_refl eq_refl).
    reflexivity.
  - destruct (UpdateBlock_alone_tolerates_three_encodings (onScript (fun _ _ => ok (q "b1"))))
      as (_ & _ & _ & _ & _ & U).
    apply (U "P" None None (start 0) 2 200%N (q "b1")).
    + intros page H. vm_compute in H. discriminate H.
    + reflexivity.
    + reflexivity.
    + left. reflexivity.
Defined.

(** * Applying the properties of a page *)

Section Upserts.

Context {World : Type}.
Variable c : Client World.
Variable uuid : string.

(** What the call for the entry [kv] fails with, if it does, on the store
    that the calls for the entries [done] have left of [w]. *)
#[local] Abbreviation failsAfter w done kv :=
  (snd (outcome (snd (client c (storeAfter c w (map (upsertRequest uuid) done))
                        (upsertRequest uuid kv))))).

Lemma upsertAll_first_failure done :
  forall kv rest e (st : State World),
    (forall before x after,
        done = (before ++ x :: after)%list -> failsAfter (remote st) before x = None) ->
    failsAfter (remote st) done kv = Some e ->
    fst (upsertAll c uuid (done ++ kv :: rest)%list st)
    = Some (Errorf ("failed to update property " ++ fst kv ++ ": ") (Some e))
    /\ sent (snd (upsertAll c uuid (done ++ kv :: rest)%list st))
       = (sent st ++ map (upsertRequest uuid) (done ++ [kv]))%list.
Proof.
  induction done as [| x d IH]; intros kv rest e st NF F.
  - destruct kv as [k v]. cbn [app upsertAll map]. unfold bind.
    destruct (Call_run c "logseq.Editor.upsertBlockProperty" [Str uuid; Str k; v] st)
      as [more ->].
    cbn [storeAfter map fold_left] in F. unfold upsertRequest in F. cbn [fst snd] in F.
    destruct (outcome _) as [resp [e' |]]; cbn [snd] in F; [| discriminate F].
    injection F as ->. cbn [ret fst snd sent]. split; reflexivity.
  - destruct x as [k v]. cbn [app upsertAll]. unfold bind.
    destruct (Call_run c "logseq.Editor.upsertBlockProperty" [Str uuid; Str k; v] st)
      as [more ->].
    pose proof (NF [] (k, v) d eq_refl) as N0.
    cbn [storeAfter map fold_left] in N0. unfold upsertRequest in N0. cbn [fst snd] in N0.
    destruct (outcome (snd (client c (remote st)
                              (mkRequest "logseq.Editor.upsertBlockProperty"
                                 [Str uuid; Str k; v]))))
      as [resp [e' |]]; cbn [snd] in N0; [discriminate N0 |].
    match goal with |- context [upsertAll c uuid _ ?s] =>
      destruct (IH kv rest e s) as [R S] end.
    + intros before y after E. cbn [remote].
      exact (NF ((k, v) :: before) y after (f_equal (cons (k, v)) E)).
    + exact F.
    + split; [exact R |]. rewrite S. cbn [sent map app]. rewrite <- app_assoc. reflexivity.
Qed.

Lemma upsertAll_no_failure properties :
  forall st : State World,
    (forall before x after,
        properties = (before ++ x :: after)%list -> failsAfter (remote st) before x = None) ->
    exists more,
      upsertAll c uuid properties st
      = (None,
         mkState (storeAfter c (remote st) (map (upsertRequest uuid) properties))
           (sent st ++ map (upsertRequest uuid) properties) (logs st ++ more)).
Proof.
  induction properties as [| [k v] d IH]; intros st NF.
  - exists []. cbn. rewrite !app_nil_r. destruct st. reflexivity.
  - cbn [upsertAll]. unfold bind.
    destruct (Call_run c "logseq.Editor.upsertBlockProperty" [Str uuid; Str k; v] st)
      as [more ->].
    pose proof (NF [] (k, v) d eq_refl) as N0.
    cbn [storeAfter map fold_left] in N0. unfold upsertRequest in N0. cbn [fst snd] in N0.
    destruct (outcome (snd (client c (remote st)
                              (mkRequest "logseq.Editor.upsertBlockProperty"
                                 [Str uuid; Str k; v]))))
      as [resp [e' |]]; cbn [snd] in N0; [discriminate N0 |].
    match goal with |- context [upsertAll c uuid _ ?s] => destruct (IH s) as [m2 ->] end.
    + intros before y after E. cbn [remote].
      exact (NF ((k, v) :: before) y after (f_equal (cons (k, v)) E)).
    + exists (more ++ m2)%list. cbn [remote sent logs map storeAfter fold_left].
      rewrite <- !app_assoc. reflexivity.
Qed.

Lemma first_failure_or_none properties :
  forall w,
    (exists done kv rest e,
        properties = (done ++ kv :: rest)%list
        /\ (forall before x after,
              done = (before ++ x :: after)%list -> failsAfter w before x = None)
        /\ failsAfter w done kv = Some e)
    \/ (forall before x after,
          properties = (before ++ x :: after)%list -> failsAfter w before x = None).
Proof.
  induction properties as [| x d IH]; intros w.
  - right. intros [| b before] y after E; discriminate E.
  - destruct (failsAfter w [] x) as [e |] eqn:F0.
    + left. exists [], x, d, e. split; [reflexivity |]. split; [| exact F0].
      intros [| b before] y after E; discriminate E.
    + destruct (IH (fst (client c w (upsertRequest uuid x))))
        as [(done & kv & rest & e & E & NF & F) | NF].
      * left. exists (x :: done), kv, rest, e. split; [rewrite E; reflexivity |].
        split; [| exact F].
        intros [| b before] y after E'; injection E' as <- E'; [exact F0 |].
        exact (NF before y after E').
      * right. intros [| b before] y after E'; injection E' as <- E'; [exact F0 |].
        exact (NF before y after E').
Qed.

(** X12.  [UpdatePage] applies the properties one call at a time, after the
    synchronisation of their links, each call on the store the calls before
    it have left.  At the first call that the store fails it stops: the
    error it returns wraps that failure and names the key, the entries up
    to that one have been sent, those after it are not sent and the page is
    not looked up.  When the store fails none of the calls, every entry is
    sent and the result is that of the lookup of the page on the store
    after them.  One of the two is the case, and the keys sent are the keys
    given. *)
Theorem UpdatePage_stops_at_the_first_failure properties (st : State World) :
  let sync := EnsureLinkedPages c "" properties st in
  let applied := entries (snd (fst sync)) in
  let run := UpdatePage c uuid properties st in
  let store := remote (snd sync) in
  let first done kv e :=
    (forall before x after,
        done = (before ++ x :: after)%list -> failsAfter store before x = None)
    /\ failsAfter store done kv = Some e in
  let none :=
    forall before x after,
      applied = (before ++ x :: after)%list -> failsAfter store before x = None in
  map fst applied = map fst (entries properties)
  /\ (forall done kv rest e,
        applied = (done ++ kv :: rest)%list ->
        first done kv e ->
        fst run
        = (None, Some (Errorf ("failed to update property " ++ fst kv ++ ": ") (Some e)))
        /\ sent (snd run)
           = (sent (snd sync) ++ map (upsertRequest uuid) (done ++ [kv]))%list)
  /\ (none ->
      fst run
      = pageResult
          (outcome
             (snd (client c (storeAfter c store (map (upsertRequest uuid) applied))
                     (getPageRequest uuid))))
      /\ sent (snd run)
         = (sent (snd sync) ++ map (upsertRequest uuid) applied ++ [getPageRequest uuid])%list)
  /\ ((exists done kv rest e, applied = (done ++ kv :: rest)%list /\ first done kv e)
      \/ none).
Proof.
  cbn zeta. split; [| split; [| split]].
  - rewrite EnsureLinkedPages_result.
    pose proof (fold_rewritten_kept
                  (fst (resolveAll c (linksOf "" properties) st)) ("", properties)) as K.
    cbn [snd] in K. induction K as [| kv kv' m m' [K1 _] _ IH]; [reflexivity |].
    cbn [map]. rewrite K1, IH. reflexivity.
  - intros done kv rest e E [NF F]. unfold UpdatePage, bind.
    destruct (EnsureLinkedPages c "" properties st) as [[content' properties'] st1].
    cbn [fst snd] in *. rewrite E.
    destruct (upsertAll_first_failure done kv rest e st1 NF F) as [R S].
    destruct (upsertAll c uuid (done ++ kv :: rest)%list st1) as [err st2].
    cbn [fst snd] in R, S. subst err. cbn [ret fst snd]. split; [reflexivity | exact S].
  - intros NF. unfold UpdatePage, bind.
    destruct (EnsureLinkedPages c "" properties st) as [[content' properties'] st1].
    cbn [fst snd] in *.
    destruct (upsertAll_no_failure (entries properties') st1 NF) as [more ->].
    rewrite GetPage_result, GetPage_sent. cbn [remote sent].
    split; [reflexivity | rewrite <- app_assoc; reflexivity].
  - destruct (first_failure_or_none
                (entries (snd (fst (EnsureLinkedPages c "" properties st))))
                (remote (snd (EnsureLinkedPages c "" properties st))))
      as [(done & kv & rest & e & E & NF & F) | NF].
    + left. exists done, kv, rest, e. split; [exact E |]. split; [exact NF | exact F].
    + right. exact NF.
Qed.

End Upserts.

Lemma UpdatePage_stops_at_the_first_failure_witness :
  fst (UpdatePage (onScript propertyFails) "u1"
         (Some [("a", Str "1"); ("b", Str "2"); ("c", Str "3")]) (start 0))
  = (None,
     Some (Errorf "failed to update property b: "
             (Some (Errorf "api error: boom (status: 500)" None))))
  /\ sent (snd (UpdatePage (onScript propertyFails) "u1"
                  (Some [("a", Str "1"); ("b", Str "2"); ("c", Str "3")]) (start 0)))
     = [upsertRequest "u1" ("a", Str "1"); upsertRequest "u1" ("b", Str "2")].
Proof.
  destruct (UpdatePage_stops_at_the_first_failure (onScript propertyFails) "u1"
              (Some [("a", Str "1"); ("b", Str "2"); ("c", Str "3")]) (start 0))
    as (_ & H & _).
  apply (H [("a", Str "1")] ("b", Str "2") [("c", Str "3")]
           (Errorf "api error: boom (status: 500)" None)).
  - reflexivity.
  - split; [| reflexivity].
    intros [| b before] x after E; injection E as <- E.
    + reflexivity.
    + destruct before; discriminate E.
Defined.

(** * The links of a text, and what the rewriting makes of them *)

(** ** Every bracket pair of a text is extracted *)

Lemma length_app (x y : string) :
  String.length (x ++ y) = String.length x + String.length y.
Proof. induction x as [| a x IH]; [reflexivity | cbn; rewrite IH; reflexivity]. Qed.

Lemma Contains_split s x :
  Contains s x = true -> exists pre post, s = pre ++ x ++ post.
Proof.
  induction s as [| a s IH]; intros H.
  - cbn in H. rewrite orb_false_r in H. apply prefix_nil_r in H. subst x.
    exists "", "". reflexivity.
  - apply Contains_cons_inv in H. destruct H as [H | H].
    + exists "", (drop (String.length x) (String a s)). exact (prefix_split _ _ H).
    + destruct (IH H) as (pre & post & ->). exists (String a pre), post. reflexivity.
Qed.

Lemma Contains_middle pre x post : Contains (pre ++ x ++ post) x = true.
Proof. apply Contains_app_l, Contains_prefix, prefix_app. Qed.

Lemma span_lacks_app c x y :
  hasChar c x = false -> span c (x ++ y) = (x ++ fst (span c y), snd (span c y)).
Proof.
  induction x as [| a x IH]; cbn [append hasChar]; intros H.
  - destruct (span c y); reflexivity.
  - apply orb_false_iff in H. destruct H as [Ha Hx]. cbn [span]. rewrite Ha.
    rewrite (IH Hx). reflexivity.
Qed.

Lemma span_has_app c x y :
  hasChar c x = true ->
  span c (x ++ y) = (fst (span c x), snd (span c x) ++ y)
  /\ exists z, snd (span c x) = String c z.
Proof.
  induction x as [| a x IH]; cbn [append hasChar]; intros H; [discriminate |].
  cbn [span]. destruct (Ascii.eqb a c) eqn:E.
  - apply Ascii.eqb_eq in E. subst a. cbn [fst snd append]. split; [reflexivity |].
    exists x. reflexivity.
  - cbn [orb] in H. destruct (IH H) as [S [z Z]]. rewrite S.
    destruct (span c x) as [f r]. cbn [fst snd] in *. split; [reflexivity |].
    exists z. exact Z.
Qed.

Lemma matchAt_inv o c s inner :
  matchAt o c s = Some inner ->
  exists r tail,
    s = String o (String o r) /\ span c r = (inner, String c (String c tail)).
Proof.
  unfold matchAt. destruct s as [| a0 [| a1 r]]; try discriminate.
  destruct (Ascii.eqb a0 o) eqn:E0; [| discriminate].
  destruct (Ascii.eqb a1 o) eqn:E1; [| discriminate]. cbn [andb].
  apply Ascii.eqb_eq in E0, E1. subst a0 a1.
  destruct (span c r) as [[| x inner'] [| c0 [| c1 tail]]] eqn:S; try discriminate.
  destruct (Ascii.eqb c0 c) eqn:F0; [| discriminate].
  destruct (Ascii.eqb c1 c) eqn:F1; [| discriminate]. cbn [andb].
  apply Ascii.eqb_eq in F0, F1. subst c0 c1. intros H. injection H as <-.
  exists r, tail. split; [reflexivity | exact S].
Qed.

(** A pair [oo] .. [cc] around a name without [c] is found by the scan,
    when no name the scan finds holds [o]. *)
Lemma findAll_finds o c l post :
  Ascii.eqb o c = false -> l <> "" -> hasChar c l = false ->
  forall pre skip,
    skip <= String.length pre ->
    (forall m,
        In m (findAll o c skip (pre ++ String o (String o (l ++ String c (String c post))))) ->
        hasChar o m = false) ->
    In l (findAll o c skip (pre ++ String o (String o (l ++ String c (String c post))))).
Proof.
  intros OC NE Hl.
  set (T := String o (String o (l ++ String c (String c post)))).
  induction pre as [| a p IH]; intros skip Hs H.
  - destruct skip; [| cbn in Hs; lia]. cbn [append]. unfold T.
    destruct (findAll_first o c l post NE Hl) as [more ->]. left. reflexivity.
  - cbn [append findAll] in H |- *. destruct skip as [| k].
    2: { apply IH; [cbn in Hs; lia | exact H]. }
    destruct (matchAt o c (String a (p ++ T))) as [inner |] eqn:M.
    2: { apply IH; [lia | exact H]. }
    right. apply IH; [| intros m I; apply H; right; exact I].
    pose proof (H inner (or_introl eq_refl)) as Hi.
    destruct (matchAt_inv _ _ _ _ M) as (r & tail & E & S).
    injection E as -> E.
    destruct p as [| b p2].
    + exfalso. cbn [append] in E. unfold T in E. injection E as <-.
      assert (S' : span c (String o l ++ String c (String c post))
                   = (String o l, String c (String c post))).
      { apply span_exact. cbn [hasChar]. rewrite OC, Hl. reflexivity. }
      cbn [append] in S'. rewrite S' in S. injection S as <- _.
      cbn [hasChar] in Hi. rewrite Ascii.eqb_refl in Hi. discriminate Hi.
    + cbn [append] in E. injection E as -> <-.
      destruct (hasChar c p2) eqn:Hp.
      * destruct (span_has_app c p2 T Hp) as [S' [z Z]].
        rewrite S' in S. injection S as S1 S2.
        rewrite Z in S2. cbn [append] in S2. injection S2 as S2.
        destruct z as [| z0 z'].
        { exfalso. cbn [append] in S2. unfold T in S2. injection S2 as S2 _.
          subst o. rewrite Ascii.eqb_refl in OC. discriminate OC. }
        pose proof (span_app c p2) as A. rewrite S1, Z in A.
        rewrite A. cbn [String.length]. rewrite length_app. cbn [String.length]. lia.
      * exfalso.
        assert (S' : span c ((p2 ++ String o (String o l)) ++ String c (String c post))
                     = (p2 ++ String o (String o l), String c (String c post))).
        { apply span_exact. rewrite hasChar_app, Hp. cbn [hasChar]. rewrite OC, Hl.
          reflexivity. }
        rewrite append_assoc in S'. cbn [append] in S'. unfold T in S.
        rewrite S' in S. injection S as <- _.
        rewrite hasChar_app in Hi. cbn [hasChar] in Hi. rewrite Ascii.eqb_refl in Hi.
        rewrite orb_true_r in Hi. discriminate Hi.
Qed.

(** White space holds no bracket: trimming keeps an opening bracket. *)
Section Trimmed.

Variable ch : ascii.
Variable pats : list string.
Hypothesis pats_ok : forall p, In p pats -> p <> "" /\ hasChar ch p = false.

Lemma trimLeftFrom_keeps s :
  forall d r,
    s = d ++ r -> hasChar ch d = false -> hasChar ch r = true ->
    hasChar ch (trimLeftFrom pats (String.length d) s) = true.
Proof.
  induction s as [| a s IH]; intros d r E Hd Hr.
  - destruct d; [| discriminate E]. cbn [append] in E. subst r. discriminate Hr.
  - destruct d as [| d0 d'].
    + cbn [append] in E. subst r. cbn [String.length trimLeftFrom].
      unfold spaceWidth.
      destruct (find (fun p => String.prefix p (String a s)) pats) as [p |] eqn:F;
        cbn [option_map]; [| exact Hr].
      apply find_some in F. destruct F as [I P].
      destruct (pats_ok p I) as [NE Hp].
      destruct p as [| p0 p']; [contradiction |].
      apply prefix_split in P. cbn [String.length append] in P. injection P as <- P.
      replace (String.length (String a p') - 1) with (String.length p')
        by (cbn [String.length]; lia).
      cbn [hasChar] in Hp. apply orb_false_iff in Hp. destruct Hp as [H0 Hp'].
      apply (IH p' _ P Hp').
      cbn [hasChar] in Hr. rewrite H0 in Hr. cbn [orb] in Hr.
      rewrite P, hasChar_app, Hp' in Hr. exact Hr.
    + cbn [append] in E. injection E as <- E. cbn [String.length trimLeftFrom].
      cbn [hasChar] in Hd. apply orb_false_iff in Hd. destruct Hd as [_ Hd].
      exact (IH d' r E Hd Hr).
Qed.

End Trimmed.

Lemma spaces_hold_no_bracket p :
  In p spaces \/ In p (map Strings.rev spaces) -> p <> "" /\ hasChar "[" p = false.
Proof.
  assert (A : forallb (fun p => negb (String.eqb p "") && negb (hasChar "[" p))
                (spaces ++ map Strings.rev spaces) = true) by (vm_compute; reflexivity).
  rewrite forallb_forall in A. intros I.
  specialize (A p (proj2 (in_app_iff _ _ _) I)).
  apply andb_true_iff in A. destruct A as [A1 A2].
  apply negb_true_iff in A1, A2. split; [| exact A2].
  apply String.eqb_neq. exact A1.
Qed.

Lemma TrimSpace_keeps_bracket s :
  hasChar "[" s = true -> hasChar "[" (TrimSpace s) = true.
Proof.
  intros H. unfold TrimSpace, TrimRightSpace, TrimLeftSpace.
  rewrite hasChar_rev.
  apply (trimLeftFrom_keeps "[" (map Strings.rev spaces)
           (fun p I => spaces_hold_no_bracket p (or_intror I)) _ "" _ eq_refl eq_refl).
  rewrite hasChar_rev.
  exact (trimLeftFrom_keeps "[" spaces
           (fun p I => spaces_hold_no_bracket p (or_introl I)) _ "" _ eq_refl eq_refl H).
Qed.

Lemma collect_keeps matches :
  forall acc name, In name acc -> In name (fold_left collect matches acc).
Proof.
  induction matches as [| m matches IH]; intros acc name I; [exact I |].
  cbn [fold_left]. apply IH. unfold collect.
  destruct (negb (String.eqb (TrimSpace m) "") && negb (member (TrimSpace m) acc));
    [apply in_or_app; left | ]; exact I.
Qed.

Lemma collect_finds matches :
  forall acc m,
    In m matches -> TrimSpace m <> "" -> In (TrimSpace m) (fold_left collect matches acc).
Proof.
  induction matches as [| m0 matches IH]; intros acc m I NE; [destruct I |].
  cbn [fold_left]. destruct I as [-> | I]; [| apply IH; assumption].
  apply collect_keeps. unfold collect.
  apply String.eqb_neq in NE. rewrite NE. cbn [negb andb].
  destruct (member (TrimSpace m) acc) eqn:E; cbn [negb].
  - apply member_In. exact E.
  - apply in_or_app. right. left. reflexivity.
Qed.

(** The matches of the scan of a text whose links hold no opening bracket
    hold none. *)
Lemma matches_without_bracket content :
  (forall l, In l (extractLinks content) -> hasChar "[" l = false) ->
  forall m, In m (findAll "[" "]" 0 content) -> hasChar "[" m = false.
Proof.
  intros H m I. destruct (hasChar "[" m) eqn:E; [| reflexivity].
  pose proof (TrimSpace_keeps_bracket m E) as K.
  assert (NE : TrimSpace m <> "") by (intros Z; rewrite Z in K; discriminate K).
  rewrite <- K. apply H. unfold extractLinks. rewrite uniqueNames_fold.
  apply collect_finds; assumption.
Qed.

(** Every bracket pair around a name is extracted: a literal [[[l]]] of a
    text whose links hold no opening bracket is one of its links, when [l]
    is not empty, holds no closing bracket and is written without
    surrounding white space. *)
Lemma extractLinks_complete content l :
  (forall l', In l' (extractLinks content) -> hasChar "[" l' = false) ->
  l <> "" -> hasChar "]" l = false -> TrimSpace l = l ->
  Contains content ("[[" ++ l ++ "]]") = true ->
  In l (extractLinks content).
Proof.
  intros H NE Hl Tl C.
  destruct (Contains_split _ _ C) as (pre & post & ->).
  assert (F : In l (findAll "[" "]" 0 (pre ++ ("[[" ++ l ++ "]]") ++ post))).
  { replace (("[[" ++ l ++ "]]") ++ post)
      with (String "[" (String "[" (l ++ String "]" (String "]" post))))
      by (cbn [append]; rewrite append_assoc; reflexivity).
    apply findAll_finds; try assumption; [reflexivity | lia |].
    replace (String "[" (String "[" (l ++ String "]" (String "]" post))))
      with (("[[" ++ l ++ "]]") ++ post)
      by (cbn [append]; rewrite append_assoc; reflexivity).
    apply matches_without_bracket. exact H. }
  unfold extractLinks. rewrite uniqueNames_fold.
  pose proof (collect_finds _ [] l F) as G. rewrite Tl in G. exact (G NE).
Qed.

Lemma tidy_of_links content :
  (forall l, In l (extractLinks content) -> hasChar "[" l = false) -> tidy content.
Proof.
  intros H x Hx C. destruct (hasChar "[" x) eqn:E; [| reflexivity].
  assert (NE : x <> "") by (intros Z; subst x; discriminate E).
  destruct (Contains_split _ _ C) as (pre & post & ->).
  assert (F : In x (findAll "[" "]" 0 (pre ++ ("[[" ++ x ++ "]]") ++ post))).
  { replace (("[[" ++ x ++ "]]") ++ post)
      with (String "[" (String "[" (x ++ String "]" (String "]" post))))
      by (cbn [append]; rewrite append_assoc; reflexivity).
    apply findAll_finds; try assumption; [reflexivity | lia |].
    replace (String "[" (String "[" (x ++ String "]" (String "]" post))))
      with (("[[" ++ x ++ "]]") ++ post)
      by (cbn [append]; rewrite append_assoc; reflexivity).
    apply matches_without_bracket. exact H. }
  rewrite <- E. exact (matches_without_bracket _ H x F).
Qed.

(** ** What one replacement does to the bracket pairs of a text *)

Section Replacing.

Variables l u old new : string.
Hypothesis old_eq : old = "[[" ++ l ++ "]]".
Hypothesis new_eq : new = "((" ++ u ++ "))".
Hypothesis l_closed : hasChar "]" l = false.
Hypothesis u_plain : hasChar "[" u = false.

#[local] Abbreviation Rp := (replaceFrom old new 0).

Lemma old_nonempty : old <> "".
Proof. rewrite old_eq. discriminate. Qed.

Lemma new_plain : hasChar "[" new = false.
Proof. rewrite new_eq, hasChar_reference, u_plain. reflexivity. Qed.

Lemma replaced_head s : String.prefix old s = true -> exists r, Rp s = String "(" r.
Proof.
  intros H. rewrite (replace_match old new old_nonempty s H), new_eq.
  eexists. reflexivity.
Qed.

(** A closing of a pair in the result is a closing of a pair in the text:
    of the same name, or of a name that holds an opening bracket. *)
Lemma lift_closing x :
  forall t,
    hasChar "]" x = false ->
    String.prefix (x ++ "]]") (Rp t) = true ->
    exists x',
      hasChar "]" x' = false
      /\ String.prefix (x' ++ "]]") t = true
      /\ (x' = x \/ hasChar "[" x' = true).
Proof.
  induction x as [| ch x IH]; intros t Hx P.
  - cbn [append] in P. exists "". cbn [append]. split; [reflexivity |]. split; [| left; reflexivity].
    destruct t as [| a t]; [discriminate P |].
    destruct (String.prefix old (String a t)) eqn:Em.
    { destruct (replaced_head _ Em) as [r E]. rewrite E in P.
      apply prefix_cons in P. destruct P as [P _]. discriminate P. }
    rewrite (replace_nomatch _ _ _ _ Em) in P.
    apply prefix_cons in P. destruct P as [<- P]. apply prefix_cons. split; [reflexivity |].
    destruct t as [| b t]; [discriminate P |].
    destruct (String.prefix old (String b t)) eqn:Em2.
    { destruct (replaced_head _ Em2) as [r E]. rewrite E in P.
      apply prefix_cons in P. destruct P as [P _]. discriminate P. }
    rewrite (replace_nomatch _ _ _ _ Em2) in P.
    apply prefix_cons in P. destruct P as [<- _]. apply prefix_cons. split; [reflexivity |].
    apply prefix_nil_l.
  - cbn [hasChar] in Hx. apply orb_false_iff in Hx. destruct Hx as [Hc Hx].
    cbn [append] in P.
    destruct t as [| a t]; [discriminate P |].
    destruct (String.prefix old (String a t)) eqn:Em.
    + exists ("[[" ++ l). split; [| split].
      * cbn [append hasChar]. rewrite l_closed. reflexivity.
      * rewrite append_assoc, <- old_eq. exact Em.
      * right. reflexivity.
    + rewrite (replace_nomatch _ _ _ _ Em) in P.
      apply prefix_cons in P. destruct P as [<- P].
      destruct (IH t Hx P) as (x' & Hx' & P' & D).
      exists (String ch x'). split; [| split].
      * cbn [hasChar]. rewrite Hc, Hx'. reflexivity.
      * cbn [append]. apply prefix_cons. split; [reflexivity | exact P'].
      * destruct D as [-> | D]; [left; reflexivity |].
        right. cbn [hasChar]. rewrite D. apply orb_true_r.
Qed.

(** A pair of the result is a pair of the text: of the same name, which is
    then not the replaced one, or of a name that holds an opening
    bracket. *)
Lemma lift_pair x s :
  hasChar "]" x = false ->
  Contains (Rp s) ("[[" ++ x ++ "]]") = true ->
  exists x',
    hasChar "]" x' = false
    /\ Contains s ("[[" ++ x' ++ "]]") = true
    /\ ((x' = x /\ x <> l) \/ hasChar "[" x' = true).
Proof.
  intros Hx. induction s as [s IH] using string_len_ind. intros C.
  destruct s as [| a s]; [discriminate C |].
  destruct (String.prefix old (String a s)) eqn:Em.
  - rewrite (replace_match old new old_nonempty _ Em) in C.
    eapply Contains_skip in C; [| reflexivity | exact new_plain].
    destruct (IH _ (drop_old_shorter old old_nonempty a s) C) as (x' & Hx' & C' & D).
    exists x'. split; [exact Hx' |]. split; [| exact D].
    exact (Contains_drop _ _ _ C').
  - rewrite (replace_nomatch _ _ _ _ Em) in C.
    apply Contains_cons_inv in C. destruct C as [P | C].
    + cbn [append] in P. apply prefix_cons in P. destruct P as [<- P].
      destruct s as [| b s]; [discriminate P |].
      destruct (String.prefix old (String b s)) eqn:Em2.
      { destruct (replaced_head _ Em2) as [r E]. rewrite E in P.
        apply prefix_cons in P. destruct P as [P _]. discriminate P. }
      rewrite (replace_nomatch _ _ _ _ Em2) in P.
      apply prefix_cons in P. destruct P as [<- P].
      destruct (lift_closing x s Hx P) as (x' & Hx' & P' & D).
      assert (Q : String.prefix ("[[" ++ x' ++ "]]") (String "[" (String "[" s)) = true).
      { cbn [append]. apply prefix_cons. split; [reflexivity |].
        apply prefix_cons. split; [reflexivity | exact P']. }
      exists x'. split; [exact Hx' |]. split; [exact (Contains_prefix _ _ Q) |].
      destruct D as [-> | D]; [left; split; [reflexivity |] | right; exact D].
      intros ->. rewrite <- old_eq, Em in Q. discriminate Q.
    + assert (L : String.length s < String.length (String a s)) by (cbn; lia).
      destruct (IH s L C) as (x' & Hx' & C' & D).
      exists x'. split; [exact Hx' |]. split; [exact (Contains_cons _ _ _ C') | exact D].
Qed.

Lemma tidy_kept s : tidy s -> tidy (Rp s).
Proof.
  intros T x Hx C. destruct (lift_pair x s Hx C) as (x' & Hx' & C' & [[-> _] | D]).
  - exact (T x Hx C').
  - rewrite (T x' Hx' C') in D. discriminate D.
Qed.

Lemma replaced_is_gone s : tidy s -> Contains (Rp s) old = false.
Proof.
  intros T. destruct (Contains (Rp s) old) eqn:C; [exfalso | reflexivity].
  rewrite old_eq in C at 2.
  destruct (lift_pair l s l_closed C) as (x' & Hx' & C' & [[_ N] | D]).
  - exact (N eq_refl).
  - rewrite (T x' Hx' C') in D. discriminate D.
Qed.

Lemma no_pair_appears x s :
  tidy s -> hasChar "]" x = false ->
  Contains s ("[[" ++ x ++ "]]") = false -> Contains (Rp s) ("[[" ++ x ++ "]]") = false.
Proof.
  intros T Hx N. destruct (Contains (Rp s) ("[[" ++ x ++ "]]")) eqn:C; [exfalso | reflexivity].
  destruct (lift_pair x s Hx C) as (x' & Hx' & C' & [[-> _] | D]).
  - rewrite C' in N. discriminate N.
  - rewrite (T x' Hx' C') in D. discriminate D.
Qed.

(** The first occurrence of the link is where the reference is put. *)
Lemma first_occurrence s :
  Contains s old = true ->
  exists pre post, s = pre ++ old ++ post /\ Rp s = pre ++ new ++ Rp post.
Proof.
  induction s as [| a s IH]; intros C.
  { cbn in C. rewrite orb_false_r in C. apply prefix_nil_r in C.
    destruct (old_nonempty C). }
  destruct (String.prefix old (String a s)) eqn:Em.
  - exists "", (drop (String.length old) (String a s)). split.
    + exact (prefix_split _ _ Em).
    + exact (replace_match old new old_nonempty _ Em).
  - apply Contains_cons_inv in C. destruct C as [C | C]; [congruence |].
    destruct (IH C) as (pre & post & E & Rs).
    exists (String a pre), post. split.
    + rewrite E. reflexivity.
    + rewrite (replace_nomatch _ _ _ _ Em), Rs. reflexivity.
Qed.

Lemma reference_put s : tidy s -> Contains s old = true -> holds u (Rp s).
Proof.
  intros T C. destruct (first_occurrence s C) as (pre & post & E & Rs).
  exists pre, (Rp post). split; [rewrite <- new_eq; exact Rs |].
  intros z y Hy Z.
  assert (B : Contains s ("[[" ++ (y ++ "[[" ++ l) ++ "]]") = true).
  { rewrite E, Z, old_eq.
    replace ((z ++ "[[" ++ y) ++ ("[[" ++ l ++ "]]") ++ post)
      with (z ++ ("[[" ++ (y ++ "[[" ++ l) ++ "]]") ++ post).
    - apply Contains_middle.
    - repeat (progress (cbn [append]; rewrite ?append_assoc)). reflexivity. }
  apply T in B.
  - rewrite hasChar_app in B. cbn [append hasChar] in B. rewrite orb_true_r in B.
    discriminate B.
  - rewrite hasChar_app, Hy. cbn [append hasChar]. exact l_closed.
Qed.

End Replacing.

(** ** A reference that was put stays *)

Lemma prefix_app_r x p r : String.prefix x p = true -> String.prefix x (p ++ r) = true.
Proof.
  revert p. induction x as [| a x IH]; intros p H; [apply prefix_nil_l |].
  destruct p as [| b p]; [discriminate H |].
  apply prefix_cons in H. destruct H as [-> H]. cbn [append].
  apply prefix_cons. split; [reflexivity | exact (IH p H)].
Qed.

Lemma Contains_app_r p r x : Contains p x = true -> Contains (p ++ r) x = true.
Proof.
  induction p as [| a p IH]; intros H.
  - cbn in H. rewrite orb_false_r in H. apply prefix_nil_r in H. subst x.
    apply Contains_prefix, prefix_nil_l.
  - apply Contains_cons_inv in H. destruct H as [H | H].
    + apply Contains_prefix, prefix_app_r, H.
    + cbn [append]. apply Contains_cons, IH, H.
Qed.

Lemma prefix_app_cases x :
  forall d r,
    String.prefix x (d ++ r) = true ->
    String.prefix x d = true
    \/ exists x2, x = d ++ x2 /\ x2 <> "" /\ String.prefix x2 r = true.
Proof.
  induction x as [| a x IH]; intros d r H; [left; apply prefix_nil_l |].
  destruct d as [| b d].
  - right. exists (String a x). split; [reflexivity |]. split; [discriminate | exact H].
  - cbn [append] in H. apply prefix_cons in H. destruct H as [-> H].
    destruct (IH d r H) as [P | (x2 & E & N & P)].
    + left. apply prefix_cons. split; [reflexivity | exact P].
    + right. exists x2. split; [rewrite E; reflexivity |]. split; assumption.
Qed.

Lemma app_eq_lacks ch n :
  forall z r w,
    n ++ r = z ++ String ch w -> hasChar ch n = false ->
    exists z2, z = n ++ z2 /\ r = z2 ++ String ch w.
Proof.
  induction n as [| a n IH]; intros z r w E H.
  - exists z. split; [reflexivity | exact E].
  - cbn [hasChar] in H. apply orb_false_iff in H. destruct H as [Ha Hn].
    destruct z as [| b z]; cbn [append] in E; injection E as -> E.
    + rewrite Ascii.eqb_refl in Ha. discriminate Ha.
    + destruct (IH z r w E Hn) as (z2 & -> & Er). exists z2. split; [reflexivity | exact Er].
Qed.

(** The start of a name without a closing bracket, cut at a parenthesis. *)
Lemma cut_is_closed d :
  forall name x3,
    d ++ String "(" x3 = name ++ "]]" -> hasChar "]" name = false -> hasChar "]" d = false.
Proof.
  induction d as [| e d IH]; intros name x3 E H; [reflexivity |].
  destruct name as [| f name].
  - cbn [append] in E. injection E as -> E.
    destruct d as [| e2 d]; cbn [append] in E; [discriminate E |].
    injection E as _ E. destruct d; discriminate E.
  - cbn [append] in E. injection E as -> E.
    cbn [hasChar] in H |- *. apply orb_false_iff in H. destruct H as [Hf Hn].
    rewrite Hf. exact (IH name x3 E Hn).
Qed.

Section Persisting.

Variables l u old new : string.
Hypothesis old_eq : old = "[[" ++ l ++ "]]".
Hypothesis new_eq : new = "((" ++ u ++ "))".
Hypothesis l_closed : hasChar "]" l = false.
Hypothesis u_plain : hasChar "[" u = false.

#[local] Abbreviation Rq := (replaceFrom old new 0).

Lemma replace_split pre :
  forall rest,
    (forall z d, pre = z ++ d -> d <> "" ->
       String.prefix old (d ++ rest) = true -> String.prefix old d = true) ->
    Rq (pre ++ rest) = Rq pre ++ Rq rest.
Proof.
  pose proof (old_nonempty l old old_eq) as NE.
  induction pre as [pre IH] using string_len_ind. intros rest NS.
  destruct pre as [| a p]; [reflexivity |].
  destruct (String.prefix old (String a p ++ rest)) eqn:Em.
  - pose proof (NS "" (String a p) eq_refl ltac:(discriminate) Em) as Ep.
    pose proof (prefix_split _ _ Ep) as E.
    set (d := drop (String.length old) (String a p)) in *.
    rewrite E, append_assoc, !(replace_app old new NE), append_assoc.
    f_equal. apply IH.
    + exact (drop_old_shorter old NE a p).
    + intros z d' Z Nd P. apply (NS (old ++ z) d'); [| exact Nd | exact P].
      rewrite E, Z, append_assoc. reflexivity.
  - assert (Ep : String.prefix old (String a p) = false).
    { destruct (String.prefix old (String a p)) eqn:Q; [| reflexivity].
      rewrite (prefix_app_r _ _ rest Q) in Em. discriminate Em. }
    cbn [append] in Em |- *.
    rewrite (replace_nomatch _ _ _ _ Em), (replace_nomatch _ _ _ _ Ep). cbn [append].
    f_equal. apply IH; [cbn; lia |].
    intros z d' Z Nd P. apply (NS (String a z) d'); [rewrite Z; reflexivity | exact Nd | exact P].
Qed.

(** No occurrence of the link reaches from a closed text into a reference
    that follows it. *)
Lemma no_straddle pre v post :
  closed pre ->
  forall z d, pre = z ++ d -> d <> "" ->
    String.prefix old (d ++ ("((" ++ v ++ "))") ++ post) = true ->
    String.prefix old d = true.
Proof.
  intros Cl z d Z Nd P.
  destruct (prefix_app_cases _ _ _ P) as [Q | (x2 & E & N2 & P2)]; [exact Q | exfalso].
  destruct x2 as [| c2 x3]; [contradiction |].
  cbn [append] in P2. apply prefix_cons in P2. destruct P2 as [-> _].
  rewrite old_eq in E. cbn [append] in E.
  destruct d as [| d0 d1]; [contradiction |].
  cbn [append] in E. injection E as <- E.
  destruct d1 as [| d2 d3]; cbn [append] in E; [discriminate E |].
  injection E as <- E.
  apply (Cl z d3 (cut_is_closed d3 l x3 (eq_sym E) l_closed)).
  rewrite Z. reflexivity.
Qed.

(** A text whose replacement holds no closing bracket is that text, or
    held the link after a start without closing bracket. *)
Lemma unreplaced t :
  forall y,
    Rq t = y -> hasChar "]" y = false ->
    t = y \/ exists y0 rest, t = y0 ++ old ++ rest /\ hasChar "]" y0 = false.
Proof.
  induction t as [| a t IH]; intros y E Hy; [left; exact E |].
  destruct (String.prefix old (String a t)) eqn:Em.
  - right. exists "", (drop (String.length old) (String a t)).
    split; [exact (prefix_split _ _ Em) | reflexivity].
  - rewrite (replace_nomatch _ _ _ _ Em) in E. subst y.
    cbn [hasChar] in Hy. apply orb_false_iff in Hy. destruct Hy as [Ha Hy].
    destruct (IH _ eq_refl Hy) as [E | (y0 & rest & E & H0)].
    + left. rewrite E at 1. reflexivity.
    + right. exists (String a y0), rest. split; [rewrite E at 1; reflexivity |].
      cbn [hasChar]. rewrite Ha, H0. reflexivity.
Qed.

(** A pair left open at the end of the result was left open at the end of
    the text, or the text holds a pair around a name with an opening
    bracket. *)
Lemma lift_open pre :
  forall z y,
    Rq pre = z ++ "[[" ++ y -> hasChar "]" y = false ->
    (exists z' y', hasChar "]" y' = false /\ pre = z' ++ "[[" ++ y')
    \/ (exists x', hasChar "]" x' = false /\ hasChar "[" x' = true
                   /\ Contains pre ("[[" ++ x' ++ "]]") = true).
Proof.
  pose proof (old_nonempty l old old_eq) as NE.
  pose proof (new_plain u new new_eq u_plain) as Np.
  induction pre as [pre IH] using string_len_ind. intros z y E Hy.
  destruct pre as [| a p].
  { cbn [replaceFrom] in E. destruct z; discriminate E. }
  destruct (String.prefix old (String a p)) eqn:Em.
  - rewrite (replace_match old new NE _ Em) in E.
    destruct (app_eq_lacks "[" new z _ _ E Np) as (z2 & -> & E2).
    destruct (IH _ (drop_old_shorter old NE a p) z2 y E2 Hy)
      as [(z' & y' & Hy' & Ed) | (x' & H1 & H2 & C)].
    + left. exists (old ++ z'), y'. split; [exact Hy' |].
      rewrite (prefix_split _ _ Em) at 1. rewrite Ed, append_assoc. reflexivity.
    + right. exists x'. split; [exact H1 |]. split; [exact H2 |].
      exact (Contains_drop _ _ _ C).
  - rewrite (replace_nomatch _ _ _ _ Em) in E.
    destruct z as [| b z2]; cbn [append] in E; injection E as E0 E; subst a.
    + destruct p as [| b p2]; [discriminate E |].
      destruct (String.prefix old (String b p2)) eqn:Em2.
      { destruct (replaced_head l u old new old_eq new_eq _ Em2) as [r Er].
        rewrite Er in E. discriminate E. }
      rewrite (replace_nomatch _ _ _ _ Em2) in E. injection E as E0 E. subst b.
      destruct (unreplaced p2 y E Hy) as [-> | (y0 & rest & -> & H0)].
      * left. exists "", y. split; [exact Hy | reflexivity].
      * right. exists (y0 ++ "[[" ++ l). split; [| split].
        -- rewrite hasChar_app, H0. cbn [append hasChar]. exact l_closed.
        -- rewrite hasChar_app. cbn [append hasChar]. apply orb_true_r.
        -- rewrite old_eq.
           replace (String "[" (String "[" (y0 ++ ("[[" ++ l ++ "]]") ++ rest)))
             with ("" ++ ("[[" ++ (y0 ++ "[[" ++ l) ++ "]]") ++ rest).
           ++ apply Contains_middle.
           ++ repeat (progress (cbn [append]; rewrite ?append_assoc)). reflexivity.
    + assert (L : String.length p < String.length (String b p)) by (cbn; lia).
      destruct (IH p L z2 y E Hy) as [(z' & y' & Hy' & Ed) | (x' & H1 & H2 & C)].
      * left. exists (String b z'), y'. split; [exact Hy' | rewrite Ed; reflexivity].
      * right. exists x'. split; [exact H1 |]. split; [exact H2 |].
        exact (Contains_cons _ _ _ C).
Qed.

(** The reference [((v))] that a text holds is held after the replacement
    of a link. *)
Lemma reference_kept v s :
  hasChar "[" v = false -> tidy s -> holds v s -> holds v (Rq s).
Proof.
  intros Hv T (pre & post & E & Cl).
  exists (Rq pre), (Rq post). split.
  - rewrite E. rewrite replace_split by (apply no_straddle; exact Cl).
    f_equal. apply (replace_copy old new "[" (String "[" (l ++ "]]"))).
    + rewrite old_eq. reflexivity.
    + rewrite hasChar_reference, Hv. reflexivity.
  - intros z y Hy Z.
    destruct (lift_open pre z y Z Hy) as [(z' & y' & Hy' & Ed) | (x' & H1 & H2 & C)].
    + exact (Cl z' y' Hy' Ed).
    + assert (C' : Contains s ("[[" ++ x' ++ "]]") = true)
        by (rewrite E; apply Contains_app_r; exact C).
      rewrite (T x' H1 C') in H2. discriminate H2.
Qed.

End Persisting.

Lemma holds_Contains v s : holds v s -> Contains s ("((" ++ v ++ "))") = true.
Proof. intros (pre & post & -> & _). apply Contains_middle. Qed.

(** ** The rewriting of the links of a text *)

Lemma NoDup_fst_unique (resolved : list (string * string)) l u u' :
  NoDup (map fst resolved) -> In (l, u) resolved -> In (l, u') resolved -> u = u'.
Proof.
  induction resolved as [| [l0 u0] r IH]; intros ND I I'; [destruct I |].
  cbn [map fst] in ND. inversion ND as [| ? ? NI ND']; subst.
  destruct I as [E | I], I' as [E' | I'].
  - congruence.
  - injection E as -> ->. exfalso. apply NI. exact (in_map fst _ _ I').
  - injection E' as -> ->. exfalso. apply NI. exact (in_map fst _ _ I).
  - exact (IH ND' I I').
Qed.

(** A step leaves the occurrences of another link, both names being free
    of brackets. *)
Lemma step_keeps_pair C l u s :
  hasChar "[" C = false -> hasChar "]" C = false ->
  hasChar "[" l = false -> hasChar "]" l = false ->
  (rewrites l u = true -> C <> l) ->
  Contains s ("[[" ++ C ++ "]]") = true ->
  Contains (contentStep s (l, u)) ("[[" ++ C ++ "]]") = true.
Proof.
  intros C1 C2 L1 L2 NE H. unfold contentStep. cbn [fst snd].
  destruct (rewrites l u); [| exact H].
  rewrite ReplaceAll_eq by apply target_nonempty.
  apply replace_keeps_link with (L := l); auto using target_nonempty.
Qed.

(** The literal of a link that is not rewritten stays in a text through
    the rewriting of the others. *)
Lemma fold_keeps_pair (resolved : list (string * string)) l u :
  NoDup (map fst resolved) ->
  (forall l' u', In (l', u') resolved -> hasChar "[" l' = false /\ hasChar "]" l' = false) ->
  In (l, u) resolved -> rewrites l u = false ->
  forall s,
    Contains s ("[[" ++ l ++ "]]") = true ->
    Contains (fold_left contentStep resolved s) ("[[" ++ l ++ "]]") = true.
Proof.
  intros ND Ok I N s H. destruct (Ok l u I) as [L1 L2].
  apply fold_invariant; [| exact H].
  intros s' [l' u'] I' Hs. destruct (Ok l' u' I') as [L1' L2'].
  apply step_keeps_pair; auto.
  intros Rw E. subst l'. rewrite (NoDup_fst_unique resolved l u u' ND I I') in N.
  rewrite N in Rw. discriminate Rw.
Qed.

Lemma step_tidy l u s :
  hasChar "]" l = false -> hasChar "[" u = false -> tidy s -> tidy (contentStep s (l, u)).
Proof.
  intros L U T. unfold contentStep. cbn [fst snd].
  destruct (rewrites l u); [| exact T].
  rewrite ReplaceAll_eq by apply target_nonempty.
  exact (tidy_kept l u _ _ eq_refl eq_refl L U s T).
Qed.

(** The rewriting of a list of resolved links in a tidy text: no name with
    a bracket, no identifier with an opening bracket, no name twice. *)
Lemma fold_rewrites_pairs (resolved : list (string * string)) content :
  NoDup (map fst resolved) ->
  (forall l u, In (l, u) resolved ->
     hasChar "[" l = false /\ hasChar "]" l = false /\ hasChar "[" u = false) ->
  tidy content ->
  forall l u, In (l, u) resolved ->
    Contains content ("[[" ++ l ++ "]]") = true ->
    rewrites l u = true ->
    Contains (fold_left contentStep resolved content) ("((" ++ u ++ "))") = true
    /\ Contains (fold_left contentStep resolved content) ("[[" ++ l ++ "]]") = false.
Proof.
  intros ND Ok T l u I H Rw. destruct (Ok l u I) as (L1 & L2 & U).
  apply in_split in I. destruct I as [pre [post ->]].
  rewrite fold_left_app. cbn [fold_left].
  set (s1 := fold_left contentStep pre content).
  assert (H1 : Contains s1 ("[[" ++ l ++ "]]") = true /\ tidy s1).
  { unfold s1.
    apply (fold_invariant (fun s => Contains s ("[[" ++ l ++ "]]") = true /\ tidy s));
      [| split; assumption].
    intros s [l' u'] I' [Hs Ts].
    assert (I2 : In (l', u') (pre ++ (l, u) :: post)) by (apply in_or_app; left; exact I').
    destruct (Ok l' u' I2) as (L1' & L2' & U'). split.
    - apply step_keeps_pair; auto.
      intros _ E. subst l'. rewrite map_app in ND. cbn in ND.
      apply NoDup_remove_2 in ND. apply ND, in_or_app. left.
      exact (in_map fst _ _ I').
    - apply step_tidy; assumption. }
  destruct H1 as [H1 T1].
  assert (H2 : tidy (contentStep s1 (l, u)) /\ holds u (contentStep s1 (l, u))
               /\ Contains (contentStep s1 (l, u)) ("[[" ++ l ++ "]]") = false).
  { split; [apply step_tidy; assumption |].
    unfold contentStep. cbn [fst snd]. rewrite Rw.
    rewrite ReplaceAll_eq by apply target_nonempty. split.
    - exact (reference_put l u _ _ eq_refl eq_refl L2 s1 T1 H1).
    - exact (replaced_is_gone l u _ _ eq_refl eq_refl L2 U s1 T1). }
  assert (H3 : tidy (fold_left contentStep post (contentStep s1 (l, u)))
               /\ holds u (fold_left contentStep post (contentStep s1 (l, u)))
               /\ Contains (fold_left contentStep post (contentStep s1 (l, u)))
                    ("[[" ++ l ++ "]]") = false).
  { apply (fold_invariant
             (fun s => tidy s /\ holds u s /\ Contains s ("[[" ++ l ++ "]]") = false));
      [| exact H2].
    intros s [l' u'] I' (Ts & Hs & Ns).
    assert (I2 : In (l', u') (pre ++ (l, u) :: post))
      by (apply in_or_app; right; right; exact I').
    destruct (Ok l' u' I2) as (L1' & L2' & U').
    split; [apply step_tidy; assumption |].
    unfold contentStep. cbn [fst snd]. destruct (rewrites l' u'); [| split; assumption].
    rewrite ReplaceAll_eq by apply target_nonempty. split.
    - exact (reference_kept l' u' _ _ eq_refl eq_refl L2' U' u s U Ts Hs).
    - exact (no_pair_appears l' u' _ _ eq_refl eq_refl L2' U' l s Ts L2 Ns). }
  destruct H3 as (_ & Hh & Hn). split; [exact (holds_Contains u _ Hh) | exact Hn].
Qed.

Lemma rewritten_value cp lu k s :
  In (k, Str s) (entries (snd cp)) ->
  In (k, Str (contentStep s lu)) (entries (snd (rewritten cp lu))).
Proof.
  unfold rewritten, contentStep, replaceLink. destruct (rewrites (fst lu) (snd lu));
    [| auto].
  cbn [snd]. destruct (snd cp) as [m |]; cbn [entries option_map]; [| intros []].
  intros I. unfold replaceInProps.
  apply in_map_iff. exists (k, Str s). split; [| exact I]. cbn [fst snd].
  destruct (Contains s ("[[" ++ fst lu ++ "]]")) eqn:E; [reflexivity |].
  rewrite ReplaceAll_eq by apply target_nonempty.
  rewrite (replace_absent _ _ _ E). reflexivity.
Qed.

Lemma fold_rewritten_value resolved :
  forall cp k s,
    In (k, Str s) (entries (snd cp)) ->
    In (k, Str (fold_left contentStep resolved s))
      (entries (snd (fold_left rewritten resolved cp))).
Proof.
  induction resolved as [| lu resolved IH]; intros cp k s I; [exact I |].
  cbn [fold_left]. apply IH. apply rewritten_value. exact I.
Qed.

Section Literals.

Context {World : Type}.
Variable c : Client World.

Lemma resolved_names content properties (st : State World) l u :
  In (l, u) (fst (resolveAll c (linksOf content properties) st)) ->
  In l (linksOf content properties).
Proof.
  intros I. rewrite <- (resolveAll_links c (linksOf content properties) st).
  exact (in_map fst _ _ I).
Qed.

(** C1, as it holds.  Let no name of a link of the input hold an opening
    bracket, and no identifier obtained for a link either.  Then every
    literal [[[l]]] of the content around a name that is not empty, holds
    no closing bracket and is written without surrounding white space is
    one of the links that are materialized; if [l] holds a ["/"] and its
    materialization gave the non-empty identifier [u], the content returned
    contains [((u))] and no [[[l]]]; if [l] holds no ["/"], the content
    returned still contains [[[l]]]. *)
Theorem EnsureLinkedPages_rewrites_hierarchical_links content properties
    (st : State World) :
  let links := linksOf content properties in
  let resolved := fst (resolveAll c links st) in
  let out := fst (fst (EnsureLinkedPages c content properties st)) in
  (forall l, In l links -> hasChar "[" l = false) ->
  (forall l u, In (l, u) resolved -> hasChar "[" u = false) ->
  forall l,
    l <> "" -> hasChar "]" l = false -> TrimSpace l = l ->
    Contains content ("[[" ++ l ++ "]]") = true ->
    exists u,
      In (l, u) resolved
      /\ (Contains l "/" = true -> u <> "" ->
          Contains out ("((" ++ u ++ "))") = true
          /\ Contains out ("[[" ++ l ++ "]]") = false)
      /\ (Contains l "/" = false -> Contains out ("[[" ++ l ++ "]]") = true).
Proof.
  cbn zeta. intros Names Ids l NE Hl Tl H.
  assert (Lc : forall l', In l' (extractLinks content) -> hasChar "[" l' = false).
  { intros l' I. apply Names. unfold linksOf. apply dedup_In_iff, in_or_app. left. exact I. }
  assert (I : In l (linksOf content properties)).
  { unfold linksOf. apply dedup_In_iff, in_or_app. left.
    exact (extractLinks_complete content l Lc NE Hl Tl H). }
  pose proof (resolveAll_links c (linksOf content properties) st) as Eq.
  rewrite <- Eq in I. apply in_map_iff in I. destruct I as ([l0 u] & E & I).
  cbn [fst] in E. subst l0. exists u. split; [exact I |].
  rewrite EnsureLinkedPages_result, fold_rewritten_content.
  assert (ND : NoDup (map fst (fst (resolveAll c (linksOf content properties) st))))
    by (rewrite Eq; apply dedup_NoDup).
  assert (Ok : forall l' u',
             In (l', u') (fst (resolveAll c (linksOf content properties) st)) ->
             hasChar "[" l' = false /\ hasChar "]" l' = false /\ hasChar "[" u' = false).
  { intros l' u' I'. pose proof (resolved_names _ _ _ _ _ I') as I2.
    split; [exact (Names l' I2) |]. split; [exact (linksOf_lacks _ _ _ I2) |].
    exact (Ids l' u' I'). }
  split.
  - intros Hier Nu.
    apply (fold_rewrites_pairs _ content ND Ok (tidy_of_links content Lc) l u I H).
    unfold rewrites. rewrite Hier. destruct u; [contradiction | reflexivity].
  - intros Flat.
    apply (fold_keeps_pair _ l u ND); auto.
    + intros l' u' I'. destruct (Ok l' u' I') as (A & B & _). split; assumption.
    + unfold rewrites. rewrite Flat. reflexivity.
Qed.

(** C9, as it holds.  The content and the property map that
    [EnsureLinkedPages] returns are the input with [[[link]]] replaced by
    [((identifier))] for exactly the links that hold a ["/"] and whose
    materialization gave a non-empty identifier, in the order of the links;
    when no hierarchical link got an identifier, the content and the map are
    returned unchanged.  When no name of a link of the input holds an
    opening bracket, the literal [[[l]]] of a link whose materialization
    gave no identifier is still in the content returned, if the content held
    it, and in the value returned for every key whose string value held
    it. *)
Theorem rewrite_needs_leaf_identifier content properties (st : State World) :
  let links := linksOf content properties in
  let resolved := fst (resolveAll c links st) in
  let out := fst (EnsureLinkedPages c content properties st) in
  out = fold_left (fun cp lu => replaceLink (fst lu) (snd lu) cp)
          (filter (fun lu => Contains (fst lu) "/" && negb (String.eqb (snd lu) ""))
             resolved)
          (content, properties)
  /\ ((forall link finalUUID,
         In (link, finalUUID) resolved -> Contains link "/" = true -> finalUUID = "") ->
      out = (content, properties))
  /\ ((forall l, In l links -> hasChar "[" l = false) ->
      forall l,
        In (l, "") resolved ->
        (Contains content ("[[" ++ l ++ "]]") = true ->
         Contains (fst out) ("[[" ++ l ++ "]]") = true)
        /\ (forall k s,
              In (k, Str s) (entries properties) ->
              Contains s ("[[" ++ l ++ "]]") = true ->
              exists s',
                In (k, Str s') (entries (snd out))
                /\ Contains s' ("[[" ++ l ++ "]]") = true)).
Proof.
  cbn zeta. rewrite EnsureLinkedPages_result. split; [| split].
  - apply fold_rewritten_filter.
  - intros H. rewrite fold_rewritten_filter.
    replace (filter _ _) with (@nil (string * string)); [reflexivity |].
    symmetry. induction (fst (resolveAll c (linksOf content properties) st)) as [| [l u] r IH];
      [reflexivity |].
    cbn [filter fst snd]. unfold rewrites at 1.
    destruct (Contains l "/") eqn:E.
    + rewrite (H l u (or_introl eq_refl) E). cbn. apply IH.
      intros l0 u0 I. apply H. right. exact I.
    + cbn. apply IH. intros l0 u0 I. apply H. right. exact I.
  - intros Names l I.
    pose proof (resolveAll_links c (linksOf content properties) st) as Eq.
    assert (ND : NoDup (map fst (fst (resolveAll c (linksOf content properties) st))))
      by (rewrite Eq; apply dedup_NoDup).
    assert (Ok : forall l' u',
               In (l', u') (fst (resolveAll c (linksOf content properties) st)) ->
               hasChar "[" l' = false /\ hasChar "]" l' = false).
    { intros l' u' I'. pose proof (resolved_names _ _ _ _ _ I') as I2.
      split; [exact (Names l' I2) | exact (linksOf_lacks _ _ _ I2)]. }
    assert (N : rewrites l "" = false) by (unfold rewrites; apply andb_false_r).
    split.
    + intros H. rewrite fold_rewritten_content.
      exact (fold_keeps_pair _ l "" ND Ok I N content H).
    + intros k s Ik H.
      exists (fold_left contentStep (fst (resolveAll c (linksOf content properties) st)) s).
      split.
      * exact (fold_rewritten_value _ (content, properties) k s Ik).
      * exact (fold_keeps_pair _ l "" ND Ok I N s H).
Qed.

End Literals.

Lemma EnsureLinkedPages_rewrites_hierarchical_links_witness :
  let out := fst (fst (EnsureLinkedPages onStore "text [[A/B]] more [[C]]" None (start []))) in
  Contains out "((u-A/B))" = true
  /\ Contains out "[[A/B]]" = false
  /\ Contains out "[[C]]" = true.
Proof.
  cbn zeta.
  pose proof (EnsureLinkedPages_rewrites_hierarchical_links onStore
                "text [[A/B]] more [[C]]" None (start [])) as T.
  cbn zeta in T.
  assert (P : forall l, In l (linksOf "text [[A/B]] more [[C]]" None) ->
                        hasChar "[" l = false).
  { intros l I. vm_compute in I. destruct I as [<- | [<- | []]]; reflexivity. }
  assert (U : forall l u,
             In (l, u) (fst (resolveAll onStore (linksOf "text [[A/B]] more [[C]]" None)
                               (start []))) -> hasChar "[" u = false).
  { intros l u I. vm_compute in I. destruct I as [E | [E | []]]; injection E as _ <-;
      reflexivity. }
  destruct (T P U "A/B") as (u & I & A & _);
    [discriminate | reflexivity | vm_compute; reflexivity | reflexivity |].
  assert (Eu : u = "u-A/B").
  { vm_compute in I. destruct I as [E | [E | []]]; [| discriminate E].
    injection E as E. symmetry. exact E. }
  subst u.
  destruct (T P U "C") as (u' & I' & _ & B);
    [discriminate | reflexivity | vm_compute; reflexivity | reflexivity |].
  destruct (A eq_refl) as [A1 A2]; [discriminate |].
  split; [exact A1 |]. split; [exact A2 | exact (B eq_refl)].
Defined.

(** What the conditions of C1 are for.  A link written with surrounding
    white space is materialized under its trimmed name, and its literal is
    left as it is; and an identifier that holds the text of the link
    brings the literal back into the content. *)
Lemma a_spaced_link_is_left_alone :
  let run := EnsureLinkedPages onStore "see [[ A/B ]]" None (start []) in
  fst (resolveAll onStore (linksOf "see [[ A/B ]]" None) (start [])) = [("A/B", "u-A/B")]
  /\ remote (snd run) = [("A", "u-A"); ("A/B", "u-A/B")]
  /\ fst (fst run) = "see [[ A/B ]]".
Proof.
  vm_compute. repeat split; reflexivity.
Qed.

Lemma an_identifier_with_brackets_brings_the_literal_back :
  let c := onScript answersBracketed in
  let out := fst (fst (EnsureLinkedPages c "see [[A/B]]" None (start 0))) in
  fst (resolveAll c (linksOf "see [[A/B]]" None) (start 0)) = [("A/B", "[[A/B]]")]
  /\ out = "see (([[A/B]]))"
  /\ Contains out "[[A/B]]" = true.
Proof.
  vm_compute. repeat split; reflexivity.
Qed.

Lemma rewrite_needs_leaf_identifier_witness :
  Contains (fst (fst (EnsureLinkedPages offline "see [[A/B]]"
                        (Some [("related", Str "[[A/B]]")]) (start tt))))
    "[[A/B]]" = true
  /\ exists s',
       In ("related", Str s')
         (entries (snd (fst (EnsureLinkedPages offline "see [[A/B]]"
                               (Some [("related", Str "[[A/B]]")]) (start tt)))))
       /\ Contains s' "[[A/B]]" = true.
Proof.
  destruct (rewrite_needs_leaf_identifier offline "see [[A/B]]"
              (Some [("related", Str "[[A/B]]")]) (start tt)) as (_ & _ & H).
  destruct (H (fun l I => match I with
                          | or_introl E => eq_ind "A/B" (fun x => hasChar "[" x = false)
                                             eq_refl l E
                          | or_intror F => match F with end
                          end)
              "A/B" (or_introl eq_refl)) as [A B].
  split; [exact (A eq_refl) |].
  exact (B "related" "[[A/B]]" (or_introl eq_refl) eq_refl).
Defined.

(** C9 does not hold for every content: the content [[[A/[[B/C]]] with a
    property [[[B/C]]] has the links [A/[[B/C] and [B/C]; the store refuses
    to create the levels of the first, so that it gets no identifier, and
    creates those of the second; the replacement made for the second link
    changes the content to [[[A/((u-B/C))], which no longer contains the
    literal [[[A/[[B/C]]] of the link that failed. *)
Lemma a_failed_link_is_rewritten_inside :
  let c := onScript refusesBrackets in
  let content := "[[A/[[B/C]]" in
  let properties := Some [("related", Str "[[B/C]]")] in
  let out := fst (fst (EnsureLinkedPages c content properties (start 0))) in
  fst (resolveAll c (linksOf content properties) (start 0))
  = [("A/[[B/C", ""); ("B/C", "u-B/C")]
  /\ Contains content "[[A/[[B/C]]" = true
  /\ out = "[[A/((u-B/C))"
  /\ Contains out "[[A/[[B/C]]" = false.
Proof.
  vm_compute. repeat split; reflexivity.
Qed.
